(** * texforge: the tiling and orchestration pipeline

    A shallow embedding of [ImageChunker] (chunker/ImageChunker.ts),
    [TextureForge] (converter/TextureForge.ts) and [TexForge.processMapToKTX2]
    (core/orchestrator.ts), with the properties of the grid partition, the
    per-tile conversion and the aggregate report.

    Conventions of the embedding.
    - Pixel counts, grid indices and byte sizes are JavaScript numbers that
      hold integers; they are modelled as [Z] (exact below 2^53).  The two
      places where a division can leave the integers are modelled as they
      are: [Math.ceil(a / b)] yields a [jsint] (an integer, an infinity or
      NaN) and the savings percentage is an IEEE binary64 [float].
    - Strings are [string]; a number inside a template literal is printed in
      decimal ([pretty]).
    - The file system, the image library (sharp), the encoder subprocess
      (toktx) and the clock are the outside world: every call is recorded in
      the trace of the [World], its outcome is chosen by an [Env].
    - Paths are joined by [path_join], which is Node's [path.join] on
      normalised directories; [posix_join] is Node's function in full, and
      the statements that name a joined path assume the directory
      [normalised].  Statements about the files an encoder run leaves assume
      a [plain_path], which the shell passes to the encoder as it is. *)

From Stdlib Require Import ZArith Lia List String Ascii.
From Stdlib Require Import Floats.PrimFloat Numbers.Cyclic.Int63.Uint63.
From stdpp Require Import gmap strings list list_numbers pretty.

Local Open Scope string_scope.
Local Open Scope list_scope.
Local Open Scope Z_scope.

(** ** JavaScript runtime: numbers *)

(** The value of [Math.ceil(a / b)] for integers [a] and [b]. *)
Inductive jsint :=
| Int (z : Z)
| PosInfinity
| NegInfinity
| NaN.

(** [Math.ceil(a / b)]: the ceiling of the exact quotient; a division by
    zero gives an infinity with the sign of [a], and [0 / 0] gives NaN. *)
Definition Math_ceil_div (a b : Z) : jsint :=
  if b =? 0 then
    if a =? 0 then NaN else if 0 <? a then PosInfinity else NegInfinity
  else Int (- ((- a) / b)).

(** A non-negative integer below 2^63 as a binary64 number (rounded to
    nearest, exact up to 2^53); the sign is restored for a negative one. *)
Definition Z_to_float (z : Z) : float :=
  if z <? 0 then PrimFloat.opp (PrimFloat.of_uint63 (Uint63.of_Z (- z)))
  else PrimFloat.of_uint63 (Uint63.of_Z z).

(** [(1 - compressed / original) * 100] in binary64 arithmetic. *)
Definition percent_saved (compressed original : Z) : float :=
  PrimFloat.mul
    (PrimFloat.sub (Z_to_float 1)
       (PrimFloat.div (Z_to_float compressed) (Z_to_float original)))
    (Z_to_float 100).

(** ** JavaScript runtime: strings and paths *)

(** [s.replace(pat, rep)] with a string pattern: the first occurrence of
    [pat] in [s] is replaced, the rest of [s] is kept. *)
Fixpoint replace_first (pat rep s : string) : string :=
  if String.prefix pat s then rep +:+ String.substring (String.length pat) (String.length s - String.length pat)%nat s
  else match s with
       | EmptyString => EmptyString
       | String c s' => String c (replace_first pat rep s')
       end.

Definition lower_ascii (c : ascii) : ascii :=
  let n := nat_of_ascii c in
  if ((65 <=? n) && (n <=? 90))%nat then ascii_of_nat (n + 32) else c.

Fixpoint lower (s : string) : string :=
  match s with
  | EmptyString => EmptyString
  | String c s' => String (lower_ascii c) (lower s')
  end.

(** Does [s] end with [suffix], letter case ignored? *)
Definition ends_with_ci (suffix s : string) : bool :=
  let n := String.length suffix in
  let m := String.length s in
  ((n <=? m)%nat && String.eqb (lower (String.substring (m - n)%nat n s)) suffix).

Definition drop_end (n : nat) (s : string) : string :=
  String.substring 0 (String.length s - n)%nat s.

(** [s.replace(/\.(png|jpg|jpeg)$/i, '.ktx2')]. *)
Definition replace_image_ext (s : string) : string :=
  if ends_with_ci ".png" s || ends_with_ci ".jpg" s then drop_end 4 s +:+ ".ktx2"
  else if ends_with_ci ".jpeg" s then drop_end 5 s +:+ ".ktx2"
  else s.

(** [args.join(' ')]. *)
Fixpoint join_space (args : list string) : string :=
  match args with
  | [] => ""
  | [a] => a
  | a :: rest => a +:+ " " +:+ join_space rest
  end.

(** [path.join(dir, name)] on POSIX, for a directory that is normalised (no
    empty, [.] or [..] segment, no trailing separator) and the name of an
    entry: the two joined by one separator.  On other arguments Node's
    function normalises the result; it is modelled in full as [posix_join]
    below, the two are proved equal on normalised arguments, and every
    statement that names a joined path assumes the directory
    [normalised]. *)
Definition path_join (dir name : string) : string := dir +:+ "/" +:+ name.

(** Is [p] the directory [dir] itself or a path below it?  A test on the
    strings, meant for normalised paths: a file is known by the one path the
    code gives it. *)
Definition under (dir p : string) : bool :=
  String.eqb dir p || String.prefix (dir +:+ "/") p.

(** ** core/types.ts *)

Inductive Format := png | ktx2.

Definition Format_str (f : Format) : string :=
  match f with png => "png" | ktx2 => "ktx2" end.

Record ChunkMetadata := {
  id : string;
  x : Z;
  y : Z;
  pixelX : Z;
  pixelY : Z;
  width : Z;
  height : Z;
  filename : string
}.

Record ChunkedMapMetadata := {
  version : Z;
  totalWidth : Z;
  totalHeight : Z;
  chunkWidth : Z;
  chunkHeight : Z;
  chunksX : jsint;
  chunksY : jsint;
  chunks : list ChunkMetadata;
  format : Format
}.

Record ChunkOptions := {
  co_chunkSize : option Z;
  co_outputDir : string;
  co_format : option Format
}.

Inductive Mode := etc1s | uastc.

Record ConversionOptions := {
  cv_mode : Mode;
  cv_quality : option Z;
  cv_compressionLevel : option Z;
  cv_mipmaps : option bool;
  cv_normalMap : option bool;
  cv_toktxPath : option string
}.

Record ConversionResult := {
  success : bool;
  inputFile : string;
  outputFile : string;
  originalSize : Z;
  compressedSize : Z;
  compressionRatio : float;
  mode : Mode;
  duration : Z;
  error : option string
}.

Record ProcessOptions := {
  po_input : string;
  po_outputDir : string;
  po_chunkSize : option Z;
  po_mode : option Mode;
  po_quality : option Z;
  po_compressionLevel : option Z;
  po_mipmaps : option bool
}.

Record ProcessResult := {
  pr_metadata : ChunkedMapMetadata;
  pr_conversions : list ConversionResult;
  pr_totalOriginalSize : Z;
  pr_totalCompressedSize : Z;
  pr_totalSaved : Z;
  pr_compressionRatio : float
}.

(** [a ?? b]. *)
Definition nullish {A} (a : option A) (b : A) : A :=
  match a with Some v => v | None => b end.

(** ** JSON.stringify(metadata, null, 2) *)

Definition dquote : ascii := ascii_of_nat 34.
Definition backslash : ascii := ascii_of_nat 92.

(** A double quote and a backslash get a backslash in front.  (Control
    characters, which JSON.stringify also escapes, do not occur in the
    names this program builds and are left as they are.) *)
Definition json_escape_char (c : ascii) : string :=
  if Ascii.eqb c dquote || Ascii.eqb c backslash then String backslash (String c "")
  else String c "".

Fixpoint json_escape (s : string) : string :=
  match s with
  | EmptyString => EmptyString
  | String c s' => json_escape_char c +:+ json_escape s'
  end.

Definition json_string (s : string) : string :=
  String dquote (json_escape s) +:+ String dquote "".

Definition json_number (n : jsint) : string :=
  match n with Int z => pretty z | _ => "null" end.

Definition nl : string := String (ascii_of_nat 10) "".

Definition json_field (indent key value : string) : string :=
  indent +:+ json_string key +:+ ": " +:+ value.

Fixpoint json_lines (lines : list string) : string :=
  match lines with
  | [] => ""
  | [l] => l
  | l :: rest => l +:+ "," +:+ nl +:+ json_lines rest
  end.

Definition json_chunk (c : ChunkMetadata) : string :=
  "    {" +:+ nl +:+
  json_lines
    [ json_field "      " "id" (json_string (id c));
      json_field "      " "x" (pretty (x c));
      json_field "      " "y" (pretty (y c));
      json_field "      " "pixelX" (pretty (pixelX c));
      json_field "      " "pixelY" (pretty (pixelY c));
      json_field "      " "width" (pretty (width c));
      json_field "      " "height" (pretty (height c));
      json_field "      " "filename" (json_string (filename c)) ]
  +:+ nl +:+ "    }".

Definition json_chunks (cs : list ChunkMetadata) : string :=
  match cs with
  | [] => "[]"
  | _ => "[" +:+ nl +:+ json_lines (map json_chunk cs) +:+ nl +:+ "  ]"
  end.

Definition JSON_stringify (m : ChunkedMapMetadata) : string :=
  "{" +:+ nl +:+
  json_lines
    [ json_field "  " "version" (pretty (version m));
      json_field "  " "totalWidth" (pretty (totalWidth m));
      json_field "  " "totalHeight" (pretty (totalHeight m));
      json_field "  " "chunkWidth" (pretty (chunkWidth m));
      json_field "  " "chunkHeight" (pretty (chunkHeight m));
      json_field "  " "chunksX" (json_number (chunksX m));
      json_field "  " "chunksY" (json_number (chunksY m));
      json_field "  " "chunks" (json_chunks (chunks m));
      json_field "  " "format" (json_string (Format_str (format m))) ]
  +:+ nl +:+ "}".

(** ** The outside world *)

(** A thrown JavaScript value: an [Error] with its message, or any other
    value, kept as the text [String(value)] gives. *)
Inductive Exn :=
| JsError (message : string)
| JsValue (text : string).

(** The calls this program makes to its collaborators. *)
Inductive Event :=
| EvMkdir (dir : string)
| EvMetadata (input : string)
| EvExtract (input : string) (left top w h : Z) (file : string)
| EvWriteFile (file content : string)
| EvAccess (file : string)
| EvStat (file : string)
| EvExec (command : string)
| EvRm (dir : string)
| EvNow.

(** The files on disk (path to content) and the calls made so far, oldest
    first.  A file is known by its path as the code spells it; with
    normalised directories one file has one spelling. *)
Record World := {
  files : gmap string string;
  trace : list Event
}.

Definition log (e : Event) (w : World) : World :=
  {| files := files w; trace := trace w ++ [e] |}.

(** What the outside world answers.  Every answer may depend on the files
    and on the calls made so far.
    - [fault e w]: the call [e] fails with this exception (a permission
      error, a full disk, a non-zero exit status, an image that cannot be
      decoded ...);
    - [image_size]: [width] and [height] of sharp's metadata for an image;
    - [tile_bytes]: the bytes sharp writes for an extracted region;
    - [toktx_output]: the bytes the encoder writes to its output path, or
      [None] when it exits with status 0 and writes nothing;
    - [clock]: the value of [Date.now()].
    A call that fails is taken to leave the files as they were. *)
Record Env := {
  fault : Event → World → option Exn;
  image_size : string → World → option Z * option Z;
  tile_bytes : string → Z → Z → Z → Z → World → string;
  toktx_output : string → World → option string;
  clock : World → Z
}.

(** ** Computations: state, exceptions and fuel

    A computation either returns, throws, or is still running when the fuel
    of an unbounded loop is used up. *)
Inductive Outcome (A : Type) :=
| Returned (a : A)
| Thrown (e : Exn)
| OutOfFuel.
Arguments Returned {A} a.
Arguments Thrown {A} e.
Arguments OutOfFuel {A}.

Definition M (A : Type) : Type := World → Outcome A * World.

Definition ret {A} (a : A) : M A := λ w, (Returned a, w).

Definition bind {A B} (m : M A) (k : A → M B) : M B :=
  λ w, match m w with
       | (Returned a, w') => k a w'
       | (Thrown e, w') => (Thrown e, w')
       | (OutOfFuel, w') => (OutOfFuel, w')
       end.

Definition throw {A} (e : Exn) : M A := λ w, (Thrown e, w).

Definition out_of_fuel {A} : M A := λ w, (OutOfFuel, w).

(** [try { body } catch (error) { handler(error) }]. *)
Definition try_catch {A} (body : M A) (handler : Exn → M A) : M A :=
  λ w, match body w with
       | (Thrown e, w') => handler e w'
       | r => r
       end.

Notation "'let*' x ':=' c1 'in' c2" := (bind c1 (λ x, c2))
  (at level 10, x pattern, c1 at level 100, c2 at level 200).
Notation "c1 ;;; c2" := (bind c1 (λ _, c2))
  (at level 100, c2 at level 200, right associativity).

(** [for (let i = start; i < start + n; i++) acc = body(i, acc)]. *)
Fixpoint for_range {A} (n : nat) (i : Z) (body : Z → A → M A) (acc : A) : M A :=
  match n with
  | O => ret acc
  | S n' => let* acc' := body i acc in for_range n' (i + 1) body acc'
  end.

(** [for (let i = 0; i < bound; i++) acc = body(i, acc)].  Below an infinite
    bound the loop can only end by an exception. *)
Definition for_lt {A} (fuel : nat) (bound : jsint) (body : Z → A → M A) (acc : A) : M A :=
  match bound with
  | Int b => for_range (Z.to_nat b) 0 body acc
  | PosInfinity => for_range fuel 0 body acc ;;; out_of_fuel
  | NegInfinity | NaN => ret acc
  end.

Section Collaborators.
Variable env : Env.

(** A call to the outside: it is recorded, then it fails or goes on.  A
    call that fails is taken to have changed no file.  The real calls are
    not atomic (a failed [fs.writeFile] may leave its file truncated, a
    failed [fs.rm] a part of the tree removed); no statement about a run
    that fails relies on the file the failing call was to change. *)
Definition call (e : Event) : M unit :=
  λ w, match fault env e w with
       | Some ex => (Thrown ex, log e w)
       | None => (Returned tt, log e w)
       end.

Definition set_file (p content : string) : M unit :=
  λ w, (Returned tt, {| files := <[p := content]> (files w); trace := trace w |}).

(** [fs.mkdir(dir, { recursive: true })].  Directories are not tracked. *)
Definition fs_mkdir (dir : string) : M unit := call (EvMkdir dir).

(** [fs.writeFile(file, content)]: the file is created or replaced.  When
    the call fails the model leaves [file] as it was; the statements about
    failing runs exclude the run that the write of the file in question
    ended. *)
Definition fs_writeFile (file content : string) : M unit :=
  call (EvWriteFile file content) ;;; set_file file content.

(** The error of the system call [syscall] on a path that does not exist,
    with the message Node gives it. *)
Definition ENOENT (syscall p : string) : Exn :=
  JsError ("ENOENT: no such file or directory, " +:+ syscall +:+ " '" +:+ p +:+ "'").

(** [fs.access(file)]. *)
Definition fs_access (file : string) : M unit :=
  call (EvAccess file) ;;;
  λ w, match files w !! file with
       | Some _ => (Returned tt, w)
       | None => (Thrown (ENOENT "access" file), w)
       end.

(** [(await fs.stat(file)).size]. *)
Definition fs_stat_size (file : string) : M Z :=
  call (EvStat file) ;;;
  λ w, match files w !! file with
       | Some content => (Returned (Z.of_nat (String.length content)), w)
       | None => (Thrown (ENOENT "stat" file), w)
       end.

(** [fs.rm(dir, { recursive: true, force: true })]: [dir] and everything
    below it is removed; a missing [dir] is not an error. *)
Definition fs_rm (dir : string) : M unit :=
  call (EvRm dir) ;;;
  λ w, (Returned tt,
        {| files := filter (λ kv, under dir kv.1 = false) (files w);
           trace := trace w |}).

(** [Date.now()]. *)
Definition Date_now : M Z :=
  λ w, (Returned (clock env w), log EvNow w).

(** [sharp(input).metadata()], its [width] and [height]. *)
Definition sharp_metadata (input : string) : M (option Z * option Z) :=
  λ w, match fault env (EvMetadata input) w with
       | Some ex => (Thrown ex, log (EvMetadata input) w)
       | None => (Returned (image_size env input w), log (EvMetadata input) w)
       end.

(** [image.clone().extract({ left, top, width, height }).toFile(file)]. *)
Definition sharp_extract_toFile (input : string) (left top w h : Z) (file : string) : M unit :=
  λ wd, match fault env (EvExtract input left top w h file) wd with
        | Some ex => (Thrown ex, log (EvExtract input left top w h file) wd)
        | None =>
            (Returned tt,
             {| files := <[file := tile_bytes env input left top w h wd]> (files wd);
                trace := trace wd ++ [EvExtract input left top w h file] |})
        end.

(** [execAsync(command)] for a toktx command whose output path is
    [output]: the encoder fails, or exits with status 0 having written
    [output] or nothing.  The code hands the command to a shell as one
    unquoted string; [output] is the path the encoder is given when the
    paths of the command are plain ([buildToktxCommand_words]), and the
    statements about the files an encoder run leaves assume a plain output
    directory. *)
Definition execAsync (command output : string) : M unit :=
  λ w, match fault env (EvExec command) w with
       | Some ex => (Thrown ex, log (EvExec command) w)
       | None =>
           (Returned tt,
            {| files := match toktx_output env command w with
                        | Some bytes => <[output := bytes]> (files w)
                        | None => files w
                        end;
               trace := trace w ++ [EvExec command] |})
       end.

End Collaborators.

(** ** chunker/ImageChunker.ts *)

Record ImageChunker := {
  chunkSize : Z;
  outputDir : string;
  ic_format : Format
}.

Definition new_ImageChunker (options : ChunkOptions) : ImageChunker :=
  {| chunkSize := nullish (co_chunkSize options) 1024;
     outputDir := co_outputDir options;
     ic_format := nullish (co_format options) png |}.

(** ** converter/TextureForge.ts *)

Record TextureForge := {
  tf_mode : Mode;
  quality : Z;
  compressionLevel : Z;
  mipmaps : bool;
  normalMap : bool;
  toktxPath : string
}.

Definition new_TextureForge (options : ConversionOptions) : TextureForge :=
  {| tf_mode := cv_mode options;
     quality := nullish (cv_quality options) 128;
     compressionLevel := nullish (cv_compressionLevel options) 2;
     mipmaps := nullish (cv_mipmaps options) false;
     normalMap := nullish (cv_normalMap options) false;
     toktxPath := nullish (cv_toktxPath options) "toktx" |}.

Definition buildToktxCommand (self : TextureForge) (inputPath outputPath : string) : string :=
  let args :=
    match tf_mode self with
    | etc1s =>
        ["--bcmp"; "--clevel"; pretty (compressionLevel self);
         "--qlevel"; pretty (quality self);
         "--max_endpoints"; "16128"; "--max_selectors"; "16128"]
    | uastc => ["--uastc"; "--uastc_quality"; "2"; "--zcmp"; "19"]
    end in
  let args := if mipmaps self then args ++ ["--genmipmap"] else args in
  let args := if normalMap self then args ++ ["--normal_map"] else args in
  let args := args ++ ["--t2"; "--threads"; "0"; outputPath; inputPath] in
  toktxPath self +:+ " " +:+ join_space args.

(** The state of the loop over [metadata.chunks] in [processMapToKTX2]: the
    manifest's chunk array, whose entries the loop renames in place, the
    outcomes pushed so far and the two running totals. *)
Record LoopState := {
  ls_chunks : list ChunkMetadata;
  ls_conversions : list ConversionResult;
  ls_totalOriginalSize : Z;
  ls_totalCompressedSize : Z
}.

Definition set_filename (c : ChunkMetadata) (name : string) : ChunkMetadata :=
  {| id := id c; x := x c; y := y c; pixelX := pixelX c; pixelY := pixelY c;
     width := width c; height := height c; filename := name |}.

Definition set_format (m : ChunkedMapMetadata) (f : Format) : ChunkedMapMetadata :=
  {| version := version m; totalWidth := totalWidth m; totalHeight := totalHeight m;
     chunkWidth := chunkWidth m; chunkHeight := chunkHeight m;
     chunksX := chunksX m; chunksY := chunksY m; chunks := chunks m; format := f |}.

Definition set_chunks (m : ChunkedMapMetadata) (cs : list ChunkMetadata) : ChunkedMapMetadata :=
  {| version := version m; totalWidth := totalWidth m; totalHeight := totalHeight m;
     chunkWidth := chunkWidth m; chunkHeight := chunkHeight m;
     chunksX := chunksX m; chunksY := chunksY m; chunks := cs; format := format m |}.

Section Pipeline.
Variable env : Env.

(** *** ImageChunker.createChunk *)
Definition createChunk (self : ImageChunker) (image : string)
    (col row totalWidth totalHeight : Z) : M ChunkMetadata :=
  let chunkId := pretty col +:+ "_" +:+ pretty row in
  let pixelX := col * chunkSize self in
  let pixelY := row * chunkSize self in
  let width := Z.min (chunkSize self) (totalWidth - pixelX) in
  let height := Z.min (chunkSize self) (totalHeight - pixelY) in
  let filename := chunkId +:+ "." +:+ Format_str (ic_format self) in
  let filePath := path_join (outputDir self) filename in
  sharp_extract_toFile env image pixelX pixelY width height filePath ;;;
  ret {| id := chunkId; x := col; y := row; pixelX := pixelX; pixelY := pixelY;
         width := width; height := height; filename := filename |}.

(** *** ImageChunker.saveMetadata *)
Definition saveMetadata (self : ImageChunker) (metadata : ChunkedMapMetadata) : M unit :=
  let metadataPath := path_join (outputDir self) "metadata.json" in
  fs_writeFile env metadataPath (JSON_stringify metadata).

(** *** ImageChunker.chunkImage *)
Definition chunkImage (fuel : nat) (self : ImageChunker) (inputPath : string)
    : M ChunkedMapMetadata :=
  fs_mkdir env (outputDir self) ;;;
  let image := inputPath in
  let* metadata := sharp_metadata env image in
  match metadata with
  | (Some width, Some height) =>
      if (width =? 0) || (height =? 0)
      then throw (JsError "Failed to read image dimensions")
      else
        let chunksX := Math_ceil_div width (chunkSize self) in
        let chunksY := Math_ceil_div height (chunkSize self) in
        let* chunks :=
          for_lt fuel chunksY (λ row chunks,
            for_lt fuel chunksX (λ col chunks,
              let* chunk := createChunk self image col row width height in
              ret (chunks ++ [chunk])) chunks) [] in
        let mapMetadata :=
          {| version := 1;
             totalWidth := width;
             totalHeight := height;
             chunkWidth := chunkSize self;
             chunkHeight := chunkSize self;
             chunksX := chunksX;
             chunksY := chunksY;
             chunks := chunks;
             format := ic_format self |} in
        saveMetadata self mapMetadata ;;;
        ret mapMetadata
  | _ => throw (JsError "Failed to read image dimensions")
  end.

(** *** TextureForge.convertFile: the [try] block *)
Definition convertFile_try (self : TextureForge) (inputPath : string)
    (outputPath : option string) (startTime : Z) : M ConversionResult :=
  fs_access env inputPath ;;;
  let* originalSize := fs_stat_size env inputPath in
  let outputFilePath := nullish outputPath (replace_image_ext inputPath) in
  let command := buildToktxCommand self inputPath outputFilePath in
  execAsync env command outputFilePath ;;;
  let* compressedSize := fs_stat_size env outputFilePath in
  let compressionRatio := percent_saved compressedSize originalSize in
  let* now := Date_now env in
  let duration := now - startTime in
  ret {| success := true;
         inputFile := inputPath;
         outputFile := outputFilePath;
         originalSize := originalSize;
         compressedSize := compressedSize;
         compressionRatio := compressionRatio;
         mode := tf_mode self;
         duration := duration;
         error := None |}.

(** [error instanceof Error ? error.message : String(error)]. *)
Definition Exn_text (error : Exn) : string :=
  match error with JsError message => message | JsValue text => text end.

(** *** TextureForge.convertFile: the [catch] block *)
Definition convertFile_catch (self : TextureForge) (inputPath : string)
    (outputPath : option string) (startTime : Z) (error : Exn) : M ConversionResult :=
  let* now := Date_now env in
  let duration := now - startTime in
  let errorMessage := Exn_text error in
  ret {| success := false;
         inputFile := inputPath;
         outputFile := nullish outputPath (replace_image_ext inputPath);
         originalSize := 0;
         compressedSize := 0;
         compressionRatio := Z_to_float 0;
         mode := tf_mode self;
         duration := duration;
         error := Some errorMessage |}.

(** *** TextureForge.convertFile *)
Definition convertFile (self : TextureForge) (inputPath : string)
    (outputPath : option string) : M ConversionResult :=
  let* startTime := Date_now env in
  try_catch
    (convertFile_try self inputPath outputPath startTime)
    (convertFile_catch self inputPath outputPath startTime).

(** *** TexForge.processMapToKTX2: one turn of the loop over the chunks *)
Definition compressChunk (forge : TextureForge) (chunksDir ktx2Dir : string)
    (i : nat) (chunk : ChunkMetadata) (st : LoopState) : M LoopState :=
  let inputPath := path_join chunksDir (filename chunk) in
  let outputPath := path_join ktx2Dir (replace_first ".png" ".ktx2" (filename chunk)) in
  let* result := convertFile forge inputPath (Some outputPath) in
  let conversions := ls_conversions st ++ [result] in
  if success result then
    ret {| ls_chunks :=
             <[i := set_filename chunk (replace_first ".png" ".ktx2" (filename chunk))]>
               (ls_chunks st);
           ls_conversions := conversions;
           ls_totalOriginalSize := ls_totalOriginalSize st + originalSize result;
           ls_totalCompressedSize := ls_totalCompressedSize st + compressedSize result |}
  else
    ret {| ls_chunks := ls_chunks st;
           ls_conversions := conversions;
           ls_totalOriginalSize := ls_totalOriginalSize st;
           ls_totalCompressedSize := ls_totalCompressedSize st |}.

(** [for (const chunk of metadata.chunks) { ... }], from index [i] on, with
    [n] entries left. *)
Fixpoint compressLoop (forge : TextureForge) (chunksDir ktx2Dir : string)
    (n i : nat) (st : LoopState) : M LoopState :=
  match n with
  | O => ret st
  | S n' =>
      match ls_chunks st !! i with
      | Some chunk =>
          let* st' := compressChunk forge chunksDir ktx2Dir i chunk st in
          compressLoop forge chunksDir ktx2Dir n' (S i) st'
      | None => ret st
      end
  end.

(** *** TexForge.processMapToKTX2 *)
Definition processMapToKTX2 (fuel : nat) (options : ProcessOptions) : M ProcessResult :=
  let chunksDir := path_join (po_outputDir options) "chunks_temp" in
  let chunker :=
    new_ImageChunker
      {| co_chunkSize := Some (nullish (po_chunkSize options) 1024);
         co_outputDir := chunksDir;
         co_format := Some png |} in
  let* metadata := chunkImage fuel chunker (po_input options) in
  let forge :=
    new_TextureForge
      {| cv_mode := nullish (po_mode options) etc1s;
         cv_quality := Some (nullish (po_quality options) 128);
         cv_compressionLevel := Some (nullish (po_compressionLevel options) 2);
         cv_mipmaps := Some (nullish (po_mipmaps options) false);
         cv_normalMap := None;
         cv_toktxPath := None |} in
  let ktx2Dir := path_join (po_outputDir options) "chunks" in
  fs_mkdir env ktx2Dir ;;;
  let* st :=
    compressLoop forge chunksDir ktx2Dir (length (chunks metadata)) 0
      {| ls_chunks := chunks metadata;
         ls_conversions := [];
         ls_totalOriginalSize := 0;
         ls_totalCompressedSize := 0 |} in
  let conversions := ls_conversions st in
  let totalOriginalSize := ls_totalOriginalSize st in
  let totalCompressedSize := ls_totalCompressedSize st in
  fs_rm env chunksDir ;;;
  let metadata := set_format (set_chunks metadata (ls_chunks st)) ktx2 in
  let metadataPath := path_join ktx2Dir "metadata.json" in
  fs_writeFile env metadataPath (JSON_stringify metadata) ;;;
  ret {| pr_metadata := metadata;
         pr_conversions := conversions;
         pr_totalOriginalSize := totalOriginalSize;
         pr_totalCompressedSize := totalCompressedSize;
         pr_totalSaved := totalOriginalSize - totalCompressedSize;
         pr_compressionRatio := percent_saved totalCompressedSize totalOriginalSize |}.

End Pipeline.

(** ** converter/TextureForge.ts: the directory batch *)

(** [/\.(png|jpg|jpeg)$/i.test(file)], the default [filePattern]. *)
Definition is_image_name (file : string) : bool :=
  ends_with_ci ".png" file || ends_with_ci ".jpg" file || ends_with_ci ".jpeg" file.

(** [outputDir ? a : b]: an absent directory and the empty string are
    falsy. *)
Definition truthy_dir (outputDir : option string) : option string :=
  match outputDir with
  | Some dir => if String.eqb dir "" then None else Some dir
  | None => None
  end.

Section Batch.
Variable env : Env.

(** [fs.readdir(dir)]: the names in [dir], in the order the file system
    gives them, or an exception.  The listing is one more answer of the
    outside world; the call does not change the files. *)
Variable readdir : string → World → list string + Exn.

Definition fs_readdir (dir : string) : M (list string) :=
  λ w, match readdir dir w with
       | inl names => (Returned names, w)
       | inr ex => (Thrown ex, w)
       end.

(** The progress callback: any computation of its four arguments. *)
Definition ProgressCallback : Type := Z → Z → string → ConversionResult → M unit.

(** The body of the loop of [convertDirectory] for the file at index [i]. *)
Definition convertOne (self : TextureForge) (inputDir : string) (outputDir : option string)
    (onProgress : option ProgressCallback) (total : nat) (i : Z) (file : string)
    (results : list ConversionResult) : M (list ConversionResult) :=
  let inputPath := path_join inputDir file in
  let outputPath :=
    match truthy_dir outputDir with
    | Some dir => path_join dir (replace_image_ext file)
    | None => replace_image_ext inputPath
    end in
  let* result := convertFile env self inputPath (Some outputPath) in
  let results := results ++ [result] in
  match onProgress with
  | Some callback => callback (i + 1) (Z.of_nat total) file result ;;; ret results
  | None => ret results
  end.

(** [for (let i = 0; i < imageFiles.length; i++) { ... }], from index [i]
    on, over the files left. *)
Fixpoint convertEach (self : TextureForge) (inputDir : string) (outputDir : option string)
    (onProgress : option ProgressCallback) (total : nat) (i : Z) (rest : list string)
    (results : list ConversionResult) : M (list ConversionResult) :=
  match rest with
  | [] => ret results
  | file :: rest' =>
      let* results' := convertOne self inputDir outputDir onProgress total i file results in
      convertEach self inputDir outputDir onProgress total (i + 1) rest' results'
  end.

(** *** TextureForge.convertDirectory.  [filePattern] is a regular
    expression without the global flag, given by its [test]. *)
Definition convertDirectory (self : TextureForge) (inputDir : string)
    (outputDir : option string) (filePattern : option (string → bool))
    (onProgress : option ProgressCallback) : M (list ConversionResult) :=
  let* files := fs_readdir inputDir in
  let imageFiles := List.filter (nullish filePattern is_image_name) files in
  if (length imageFiles =? 0)%nat then ret []
  else
    let targetDir := nullish outputDir inputDir in
    fs_mkdir env targetDir ;;;
    convertEach self inputDir outputDir onProgress (length imageFiles) 0 imageFiles [].

End Batch.

(** *** TextureForge.checkToktxAvailability: static, it asks for the
    [toktx] of the search path, whatever encoder path a forge was given. *)
Definition checkToktxAvailability (env : Env) : M bool :=
  try_catch
    (call env (EvExec "toktx --version") ;;; ret true)
    (λ _, ret false).

(** * Notions used in the statements *)

(** The record [createChunk] builds for the cell [(col, row)] of a
    [totalWidth] x [totalHeight] image. *)
Definition chunk_of (self : ImageChunker) (totalWidth totalHeight col row : Z) : ChunkMetadata :=
  {| id := pretty col +:+ "_" +:+ pretty row;
     x := col;
     y := row;
     pixelX := col * chunkSize self;
     pixelY := row * chunkSize self;
     width := Z.min (chunkSize self) (totalWidth - col * chunkSize self);
     height := Z.min (chunkSize self) (totalHeight - row * chunkSize self);
     filename := (pretty col +:+ "_" +:+ pretty row) +:+ "." +:+ Format_str (ic_format self) |}.

(** The indices a loop [for (i = 0; i < bound; i++)] goes through when it
    ends. *)
Definition range (bound : jsint) : list Z :=
  match bound with Int b => seqZ 0 b | _ => [] end.

(** The cells in row-major order: row 0 from left to right, then row 1 ... *)
Definition grid (self : ImageChunker) (totalWidth totalHeight : Z) (cx cy : jsint)
    : list ChunkMetadata :=
  mjoin ((λ row, (λ col, chunk_of self totalWidth totalHeight col row) <$> range cx)
           <$> range cy).

(** The pixel [(px, py)] lies in the rectangle of the region [c]. *)
Definition covers (c : ChunkMetadata) (px py : Z) : Prop :=
  pixelX c ≤ px < pixelX c + width c ∧ pixelY c ≤ py < pixelY c + height c.

Definition area (c : ChunkMetadata) : Z := width c * height c.

Fixpoint sumZ {A} (f : A → Z) (l : list A) : Z :=
  match l with
  | [] => 0
  | a :: l' => f a + sumZ f l'
  end.

(** Every character of [s] satisfies [P]. *)
Fixpoint all_chars (P : ascii → bool) (s : string) : bool :=
  match s with
  | EmptyString => true
  | String c s' => P c && all_chars P s'
  end.

(** The characters of a printed integer: a digit or the minus sign. *)
Definition number_char (c : ascii) : bool :=
  let n := nat_of_ascii c in
  ((48 <=? n)%nat && (n <=? 57)%nat) || Ascii.eqb c "-"%char.

(** The characters of a chunk identifier. *)
Definition id_char (c : ascii) : bool := number_char c || Ascii.eqb c "_"%char.

(** ** Paths

    [path_join] is [path.join] on a normalised directory and the name of
    an entry.  Node's function in full is [posix_join]; the two agree where
    [normalised] and [simple_name] hold ([posix_join_normalised]), and the
    statements that name a joined path assume the directory normalised. *)

(** The pieces of [s] between the occurrences of the separator. *)
Fixpoint split_on (sep : ascii) (s : string) : list string :=
  match s with
  | EmptyString => [EmptyString]
  | String c s' =>
      if Ascii.eqb c sep then EmptyString :: split_on sep s'
      else match split_on sep s' with
           | piece :: rest => String c piece :: rest
           | [] => [String c EmptyString]
           end
  end.

(** [segments.join('/')]. *)
Fixpoint join_slash (segments : list string) : string :=
  match segments with
  | [] => ""
  | [a] => a
  | a :: rest => a +:+ "/" +:+ join_slash rest
  end.

(** Node's [normalizeString], one segment at a time: [res] holds the
    segments kept so far, the last one first.  An empty segment and [.] are
    dropped; [..] removes the segment before it, and is kept only where
    there is none to remove and the path is relative. *)
Definition normalize_step (allowAboveRoot : bool) (res : list string) (segment : string)
    : list string :=
  if String.eqb segment "" || String.eqb segment "." then res
  else if String.eqb segment ".." then
    match res with
    | last :: before =>
        if String.eqb last ".." then (if allowAboveRoot then ".." :: res else res)
        else before
    | [] => if allowAboveRoot then [".."] else []
    end
  else segment :: res.

Definition normalizeString (path : string) (allowAboveRoot : bool) : string :=
  join_slash (rev (fold_left (normalize_step allowAboveRoot) (split_on "/" path) [])).

Definition starts_with_slash (s : string) : bool :=
  match s with
  | String c _ => Ascii.eqb c "/"
  | EmptyString => false
  end.

Fixpoint ends_with_slash (s : string) : bool :=
  match s with
  | EmptyString => false
  | String c EmptyString => Ascii.eqb c "/"
  | String _ s' => ends_with_slash s'
  end.

(** Node's [path.posix.normalize]. *)
Definition posix_normalize (path : string) : string :=
  if String.eqb path "" then "."
  else
    let isAbsolute := starts_with_slash path in
    let trailingSeparator := ends_with_slash path in
    let res := normalizeString path (negb isAbsolute) in
    if String.eqb res "" then
      if isAbsolute then "/" else if trailingSeparator then "./" else "."
    else
      let res := if trailingSeparator then res +:+ "/" else res in
      if isAbsolute then "/" +:+ res else res.

(** Node's [path.posix.join] of two arguments. *)
Definition posix_join (a b : string) : string :=
  if String.eqb a "" then (if String.eqb b "" then "." else posix_normalize b)
  else if String.eqb b "" then posix_normalize a
  else posix_normalize (a +:+ "/" +:+ b).

Definition not_slash (c : ascii) : bool := negb (Ascii.eqb c "/").

(** A name of a directory entry: not empty, not [.] or [..], without
    separator. *)
Definition simple_name (name : string) : bool :=
  negb (String.eqb name "") && negb (String.eqb name ".")
  && negb (String.eqb name "..") && all_chars not_slash name.

(** A path as [path.join] returns it, going down only: relative or
    absolute, every segment a simple name. *)
Definition normalised (dir : string) : bool :=
  match split_on "/" dir with
  | "" :: (_ :: _) as rest => forallb simple_name rest
  | segs => forallb simple_name segs
  end.

(** The characters a shell passes through unchanged, and that do not end
    a word of a command. *)
Definition plain_char (c : ascii) : bool :=
  let n := nat_of_ascii c in
  ((48 <=? n)%nat && (n <=? 57)%nat) || ((65 <=? n)%nat && (n <=? 90)%nat)
  || ((97 <=? n)%nat && (n <=? 122)%nat)
  || Ascii.eqb c "_" || Ascii.eqb c "-" || Ascii.eqb c "." || Ascii.eqb c "/".

(** A path of plain characters only that does not begin like an option: in
    an unquoted command it is one word, the path itself. *)
Definition plain_path (p : string) : bool :=
  match p with
  | String c _ => negb (Ascii.eqb c "-")
  | EmptyString => true
  end
  && all_chars plain_char p.

(** The words of a command without quotes: its pieces between spaces. *)
Definition words (command : string) : list string := split_on " " command.

(** The calls [convertFile] makes for one tile; the pipeline survives their
    failure. *)
Definition is_conversion_call (e : Event) : bool :=
  match e with
  | EvAccess _ | EvStat _ | EvExec _ => true
  | _ => false
  end.

(** Apart from the per-tile conversion calls, no call to the outside
    fails. *)
Definition reliable (env : Env) : Prop :=
  ∀ e w, is_conversion_call e = false → fault env e w = None.

(** The paths checked with [fs.access], in the order of the calls: one per
    run of [convertFile], its input. *)
Definition accessed (t : list Event) : list string :=
  omap (λ e, match e with EvAccess p => Some p | _ => None end) t.

(** The files written with [fs.writeFile], with their contents, in the
    order of the calls. *)
Definition written (t : list Event) : list (string * string) :=
  omap (λ e, match e with EvWriteFile p c => Some (p, c) | _ => None end) t.

(** A manifest entry after the compression attempt with outcome [r]. *)
Definition renamed (c : ChunkMetadata) (r : ConversionResult) : ChunkMetadata :=
  if success r then set_filename c (replace_first ".png" ".ktx2" (filename c)) else c.

(** The world-invariant kept by every call of the chunker before it saves
    the manifest: nothing accessed, nothing written with [fs.writeFile], no
    file touched outside the output directory. *)
Definition chunker_frame (dir : string) (w0 w : World) : Prop :=
  accessed (trace w) = accessed (trace w0) ∧
  written (trace w) = written (trace w0) ∧
  ∀ p, under dir p = false → files w !! p = files w0 !! p.

(** The chunker and the converter [processMapToKTX2] builds from its
    options. *)
Definition pipeline_chunker (options : ProcessOptions) : ImageChunker :=
  new_ImageChunker
    {| co_chunkSize := Some (nullish (po_chunkSize options) 1024);
       co_outputDir := path_join (po_outputDir options) "chunks_temp";
       co_format := Some png |}.

Definition pipeline_forge (options : ProcessOptions) : TextureForge :=
  new_TextureForge
    {| cv_mode := nullish (po_mode options) etc1s;
       cv_quality := Some (nullish (po_quality options) 128);
       cv_compressionLevel := Some (nullish (po_compressionLevel options) 2);
       cv_mipmaps := Some (nullish (po_mipmaps options) false);
       cv_normalMap := None;
       cv_toktxPath := None |}.

(** The report [processMapToKTX2] builds from the manifest [m] of the
    chunker and the outcomes [rs] of the conversions. *)
Definition report_of (m : ChunkedMapMetadata) (rs : list ConversionResult) : ProcessResult :=
  let totalOriginalSize := sumZ originalSize (List.filter success rs) in
  let totalCompressedSize := sumZ compressedSize (List.filter success rs) in
  {| pr_metadata := set_format (set_chunks m (zip_with renamed (chunks m) rs)) ktx2;
     pr_conversions := rs;
     pr_totalOriginalSize := totalOriginalSize;
     pr_totalCompressedSize := totalCompressedSize;
     pr_totalSaved := totalOriginalSize - totalCompressedSize;
     pr_compressionRatio := percent_saved totalCompressedSize totalOriginalSize |}.

(** The flags [buildToktxCommand] puts before [--t2]: those of the mode,
    then the two optional ones. *)
Definition toktx_flags (self : TextureForge) : list string :=
  match tf_mode self with
  | etc1s =>
      ["--bcmp"; "--clevel"; pretty (compressionLevel self);
       "--qlevel"; pretty (quality self);
       "--max_endpoints"; "16128"; "--max_selectors"; "16128"]
  | uastc => ["--uastc"; "--uastc_quality"; "2"; "--zcmp"; "19"]
  end
  ++ (if mipmaps self then ["--genmipmap"] else [])
  ++ (if normalMap self then ["--normal_map"] else []).

(** The encoder commands run, in the order of the calls. *)
Definition executed (t : list Event) : list string :=
  omap (λ e, match e with EvExec command => Some command | _ => None end) t.

(** The rectangles sharp was asked to extract, with the files they were to
    go to, in the order of the calls. *)
Definition extracted (t : list Event) : list (Z * Z * Z * Z * string) :=
  omap (λ e, match e with
             | EvExtract _ l t w h file => Some (l, t, w, h, file)
             | _ => None
             end) t.

(** The path of the compressed tile of a manifest entry and the command
    that is to produce it, in a run with the given options. *)
Definition tile_output (options : ProcessOptions) (c : ChunkMetadata) : string :=
  path_join (path_join (po_outputDir options) "chunks") (id c +:+ ".ktx2").

Definition tile_input (options : ProcessOptions) (c : ChunkMetadata) : string :=
  path_join (path_join (po_outputDir options) "chunks_temp") (id c +:+ ".png").

Definition tile_command (options : ProcessOptions) (c : ChunkMetadata) : string :=
  buildToktxCommand (pipeline_forge options) (tile_input options c) (tile_output options c).

(** The output path [convertDirectory] gives to a file of the batch. *)
Definition batch_output (inputDir : string) (outputDir : option string) (file : string) : string :=
  match truthy_dir outputDir with
  | Some dir => path_join dir (replace_image_ext file)
  | None => replace_image_ext (path_join inputDir file)
  end.

(** ** Example worlds *)

(** Nothing fails; every image is 3 x 2 pixels, every tile has 10 bytes and
    every compressed tile 4; the clock counts the calls made. *)
Definition quiet_env : Env :=
  {| fault := λ _ _, None;
     image_size := λ _ _, (Some 3, Some 2);
     tile_bytes := λ _ _ _ _ _ _, "0123456789";
     toktx_output := λ _ _, Some "0123";
     clock := λ w, Z.of_nat (length (trace w)) |}.

Definition empty_world : World := {| files := ∅; trace := [] |}.

Definition chunker2 : ImageChunker :=
  {| chunkSize := 2; outputDir := "out/chunks_temp"; ic_format := png |}.

Definition options2 : ProcessOptions :=
  {| po_input := "map.png"; po_outputDir := "out"; po_chunkSize := Some 2;
     po_mode := None; po_quality := None; po_compressionLevel := None;
     po_mipmaps := None |}.

Definition is_exec (e : Event) : bool :=
  match e with EvExec _ => true | _ => false end.

(** As [quiet_env], but the encoder exits with status 1 from its second
    run on. *)
Definition flaky_env : Env :=
  {| fault := λ e w,
       match e with
       | EvExec _ =>
           if existsb is_exec (trace w)
           then Some (JsError "Command failed: toktx exited with status 1")
           else None
       | _ => None
       end;
     image_size := image_size quiet_env;
     tile_bytes := tile_bytes quiet_env;
     toktx_output := toktx_output quiet_env;
     clock := clock quiet_env |}.

(** As [quiet_env], but the encoder cannot be started. *)
Definition no_encoder_env : Env :=
  {| fault := λ e w,
       match e with
       | EvExec _ => Some (JsError "Command failed: toktx: not found")
       | _ => None
       end;
     image_size := image_size quiet_env;
     tile_bytes := tile_bytes quiet_env;
     toktx_output := toktx_output quiet_env;
     clock := clock quiet_env |}.

(** As [quiet_env], but the temporary directory cannot be removed. *)
Definition stuck_env : Env :=
  {| fault := λ e w,
       match e with
       | EvRm _ => Some (JsError "EPERM: operation not permitted, rm")
       | _ => None
       end;
     image_size := image_size quiet_env;
     tile_bytes := tile_bytes quiet_env;
     toktx_output := toktx_output quiet_env;
     clock := clock quiet_env |}.

(** As [quiet_env], but the image library reports a width of 0. *)
Definition blank_env : Env :=
  {| fault := fault quiet_env;
     image_size := λ _ _, (Some 0, Some 2);
     tile_bytes := tile_bytes quiet_env;
     toktx_output := toktx_output quiet_env;
     clock := clock quiet_env |}.

(** A chunker with a negative tile size. *)
Definition chunker_neg : ImageChunker :=
  {| chunkSize := -1; outputDir := "out/chunks_temp"; ic_format := png |}.

(** As [quiet_env], but the encoder exits with status 0 and writes nothing. *)
Definition silent_env : Env :=
  {| fault := fault quiet_env;
     image_size := image_size quiet_env;
     tile_bytes := tile_bytes quiet_env;
     toktx_output := λ _ _, None;
     clock := clock quiet_env |}.

(** A disk with one tile of 10 bytes. *)
Definition tile_world : World :=
  {| files := {[ "tile.png" := "0123456789" ]}; trace := [] |}.

(** The extraction a region asks of the image library. *)
Definition region_request (self : ImageChunker) (c : ChunkMetadata)
    : Z * Z * Z * Z * string :=
  (pixelX c, pixelY c, width c, height c, path_join (outputDir self) (filename c)).


(** A disk with the manifest of an earlier run. *)
Definition stale_world : World :=
  {| files := {[ "out/chunks_temp/metadata.json" := "old manifest" ]}; trace := [] |}.

(** A disk with the source image and the final manifest of an earlier
    run. *)
Definition used_world : World :=
  {| files := {[ "map.png" := "image bytes";
                 "out/chunks/metadata.json" := "old report" ]};
     trace := [] |}.

(** A directory that lists three names, two of them images. *)
Definition listing3 : string → World → list string + Exn :=
  λ _ _, inl ["a.png"; "notes.txt"; "b.JPG"].

(** A progress callback that throws. *)
Definition failing_callback : ProgressCallback :=
  λ _ _ _ _, throw (JsError "progress failed").

(** A forge with the default options. *)
Definition forge0 : TextureForge :=
  new_TextureForge
    {| cv_mode := etc1s; cv_quality := None; cv_compressionLevel := None;
       cv_mipmaps := None; cv_normalMap := None; cv_toktxPath := None |}.

(** A disk with one tile of 10 bytes and a compressed tile of 7 bytes left
    by an earlier run. *)
Definition stale_tile_world : World :=
  {| files := {[ "tile.png" := "0123456789"; "tile.ktx2" := "earlier" ]};
     trace := [] |}.

(** * Properties *)

(** ** Paths *)

Lemma split_on_nonempty sep s : split_on sep s ≠ [].
Proof.
  destruct s as [| c s]; simpl; [done |].
  destruct (Ascii.eqb c sep); [done |]. by destruct (split_on sep s).
Qed.

Lemma split_on_whole sep name :
  all_chars (λ c, negb (Ascii.eqb c sep)) name = true → split_on sep name = [name].
Proof.
  induction name as [| c name IH]; simpl; [done |].
  intros [Hc Hname]%andb_prop. apply negb_true_iff in Hc. rewrite Hc.
  by rewrite IH.
Qed.

Lemma split_on_app sep dir name :
  all_chars (λ c, negb (Ascii.eqb c sep)) name = true →
  split_on sep (dir +:+ String sep name) = split_on sep dir ++ [name].
Proof.
  intros Hname. induction dir as [| c dir IH].
  - change ("" +:+ String sep name) with (String sep name). simpl.
    by rewrite Ascii.eqb_refl, split_on_whole.
  - change (String c dir +:+ String sep name) with (String c (dir +:+ String sep name)).
    simpl. destruct (Ascii.eqb c sep); [by rewrite IH |].
    rewrite IH. pose proof (split_on_nonempty sep dir).
    by destruct (split_on sep dir).
Qed.

Lemma join_slash_cons a rest :
  rest ≠ [] → join_slash (a :: rest) = a +:+ "/" +:+ join_slash rest.
Proof. by destruct rest. Qed.

Lemma join_split_slash s : join_slash (split_on "/" s) = s.
Proof.
  induction s as [| c s IH]; [done |].
  simpl. pose proof (split_on_nonempty "/" s) as Hne.
  destruct (Ascii.eqb_spec c "/") as [-> | _].
  - rewrite join_slash_cons by done. by rewrite IH.
  - destruct (split_on "/" s) as [| piece rest]; [done |].
    destruct rest as [| r rest].
    + simpl in *. by rewrite IH.
    + rewrite join_slash_cons in IH by done. rewrite join_slash_cons by done.
      change (String c piece +:+ "/" +:+ join_slash (r :: rest))
        with (String c (piece +:+ "/" +:+ join_slash (r :: rest))).
      by rewrite IH.
Qed.

Lemma simple_name_kept allowAboveRoot res name :
  simple_name name = true → normalize_step allowAboveRoot res name = name :: res.
Proof.
  unfold simple_name, normalize_step.
  intros [[[H1 H2]%andb_prop H3]%andb_prop _]%andb_prop.
  apply negb_true_iff in H1, H2, H3. by rewrite H1, H2, H3.
Qed.

Lemma simple_names_kept allowAboveRoot segs :
  ∀ res, forallb simple_name segs = true →
         fold_left (normalize_step allowAboveRoot) segs res = rev segs ++ res.
Proof.
  induction segs as [| seg segs IH]; intros res; simpl; [done |].
  intros [Hseg Hsegs]%andb_prop.
  rewrite simple_name_kept by done. rewrite IH by done.
  by rewrite <- app_assoc.
Qed.

Lemma ends_with_slash_app a b :
  b ≠ "" → ends_with_slash (a +:+ b) = ends_with_slash b.
Proof.
  intros Hb. induction a as [| c a IH]; [done |].
  change (String c a +:+ b) with (String c (a +:+ b)). simpl.
  destruct (a +:+ b) eqn:Hab; [| done].
  destruct a; [| done]. by destruct b.
Qed.

Lemma not_ends_with_slash name :
  all_chars not_slash name = true → ends_with_slash name = false.
Proof.
  induction name as [| c name IH]; simpl; [done |].
  intros [Hc Hname]%andb_prop. destruct name; [| by apply IH].
  by apply negb_true_iff in Hc.
Qed.

Lemma join_slash_snoc_nonempty segs name :
  name ≠ "" → join_slash (segs ++ [name]) ≠ "".
Proof.
  intros Hname. induction segs as [| seg segs IH]; [done |].
  simpl app. rewrite join_slash_cons by (by destruct segs).
  destruct seg; done.
Qed.

Lemma simple_name_nonempty name : simple_name name = true → name ≠ "".
Proof. by intros H ->. Qed.

Lemma normalised_nonempty dir : normalised dir = true → dir ≠ "".
Proof. by intros H ->. Qed.

(** The first segment is empty exactly for a path that starts with the
    separator. *)
Lemma prefix_slash_split c s :
  ∃ seg rest, split_on "/" (String c s) = seg :: rest ∧
              starts_with_slash (String c s) = String.eqb seg "".
Proof.
  simpl. pose proof (split_on_nonempty "/" s) as Hne.
  destruct (Ascii.eqb_spec c "/") as [-> | Hc].
  - by eexists _, _.
  - destruct (split_on "/" s) as [| piece rest]; [done |].
    by eexists _, _.
Qed.

(** What [normalizeString] keeps of a normalised path and one more name. *)
Lemma normalizeString_normalised dir name :
  normalised dir = true → simple_name name = true →
  (if starts_with_slash dir then "/" else "") +:+
  normalizeString (dir +:+ String "/" name) (negb (starts_with_slash dir))
  = dir +:+ String "/" name.
Proof.
  intros Hdir Hname.
  assert (all_chars not_slash name = true) as Hns
    by (unfold simple_name in Hname; by apply andb_prop in Hname as [_ ?]).
  unfold normalizeString.
  pose proof (join_split_slash (dir +:+ String "/" name)) as Hjoin.
  rewrite (split_on_app "/") in Hjoin |- * by done.
  rewrite fold_left_app. simpl fold_left.
  unfold normalised in Hdir.
  destruct dir as [| c dir]; [done |].
  destruct (prefix_slash_split c dir) as (seg & rest & Hsplit & Hprefix).
  rewrite Hsplit in *. rewrite Hprefix.
  destruct (String.eqb_spec seg "") as [-> | Hseg].
  - destruct rest as [| r rest]; [done |].
    change (fold_left (normalize_step (negb true)) ("" :: r :: rest) [])
      with (fold_left (normalize_step (negb true)) (r :: rest) []).
    rewrite simple_names_kept by done. rewrite simple_name_kept by done.
    rewrite app_nil_r.
    change (name :: rev (r :: rest)) with (rev [name] ++ rev (r :: rest)).
    rewrite <- rev_app_distr, rev_involutive.
    simpl app in Hjoin. rewrite join_slash_cons in Hjoin by done. done.
  - assert (forallb simple_name (seg :: rest) = true) as Hall.
    { destruct seg; [done |]. exact Hdir. }
    rewrite simple_names_kept by done. rewrite simple_name_kept by done.
    rewrite app_nil_r.
    change (name :: rev (seg :: rest)) with (rev [name] ++ rev (seg :: rest)).
    rewrite <- rev_app_distr, rev_involutive. done.
Qed.

(** On a normalised directory and the name of an entry, [path.join] is
    the concatenation with one separator. *)
Lemma posix_join_normalised dir name :
  normalised dir = true → simple_name name = true →
  posix_join dir name = path_join dir name.
Proof.
  intros Hdir Hname.
  pose proof (simple_name_nonempty _ Hname) as Hne.
  pose proof (normalised_nonempty _ Hdir) as Hdne.
  assert (all_chars not_slash name = true) as Hns
    by (unfold simple_name in Hname; by apply andb_prop in Hname as [_ ?]).
  pose proof (normalizeString_normalised dir name Hdir Hname) as Hnorm.
  unfold posix_join, path_join.
  destruct (String.eqb_spec dir "") as [| _]; [done |].
  destruct (String.eqb_spec name "") as [| _]; [done |].
  unfold posix_normalize.
  change ("/" +:+ name) with (String "/" name).
  destruct (String.eqb_spec (dir +:+ String "/" name) "") as [Hjoined | _];
    [by destruct dir |].
  assert (ends_with_slash (dir +:+ String "/" name) = false) as ->.
  { rewrite ends_with_slash_app by done. simpl.
    destruct name; [done |]. by apply not_ends_with_slash. }
  assert (starts_with_slash (dir +:+ String "/" name) = starts_with_slash dir) as ->
    by (by destruct dir).
  destruct (String.eqb_spec
              (normalizeString (dir +:+ String "/" name) (negb (starts_with_slash dir))) "")
    as [Hempty | _].
  - rewrite Hempty in Hnorm.
    destruct (starts_with_slash dir); [exact Hnorm | by destruct dir].
  - by destruct (starts_with_slash dir).
Qed.

(** A normalised directory and one more name: normalised. *)
Lemma normalised_path_join dir name :
  normalised dir = true → simple_name name = true →
  normalised (path_join dir name) = true.
Proof.
  intros Hdir Hname.
  assert (all_chars not_slash name = true) as Hns
    by (unfold simple_name in Hname; by apply andb_prop in Hname as [_ ?]).
  unfold normalised, path_join in *.
  change ("/" +:+ name) with (String "/" name).
  rewrite (split_on_app "/") by done.
  pose proof (split_on_nonempty "/" dir) as Hsplit.
  destruct (split_on "/" dir) as [| seg rest]; [done |].
  assert (forallb simple_name [name] = true) as Hlast by (simpl; by rewrite Hname).
  destruct seg as [| c seg].
  - destruct rest as [| r rest]; [done |].
    change (forallb simple_name ((r :: rest) ++ [name]) = true).
    rewrite forallb_app. by rewrite Hdir, Hlast.
  - change (forallb simple_name ((String c seg :: rest) ++ [name]) = true).
    rewrite forallb_app. by rewrite Hdir, Hlast.
Qed.

(** ** Integer ceiling *)

(** [- ((- a) / b)] is the least [n] with [a <= n * b], for a positive [b]. *)
Lemma ceil_bounds (a b : Z) :
  0 < b → (- ((- a) / b) - 1) * b < a ≤ - ((- a) / b) * b.
Proof.
  intros Hb.
  pose proof (Z.div_mod (- a) b ltac:(lia)) as Hdm.
  pose proof (Z.mod_pos_bound (- a) b Hb) as Hm.
  nia.
Qed.

Lemma ceil_unique (a b n : Z) :
  0 < b → (n - 1) * b < a ≤ n * b → n = - ((- a) / b).
Proof.
  intros Hb Hn. pose proof (ceil_bounds a b Hb) as Hc. nia.
Qed.

Lemma Math_ceil_div_pos (a b : Z) :
  0 < b → Math_ceil_div a b = Int (- ((- a) / b)).
Proof.
  intros Hb. unfold Math_ceil_div.
  destruct (Z.eqb_spec b 0); [lia | reflexivity].
Qed.

(** ** Reasoning about computations *)

Lemma bind_returned {A B} (m : M A) (k : A → M B) w r w' :
  bind m k w = (Returned r, w') →
  ∃ a w1, m w = (Returned a, w1) ∧ k a w1 = (Returned r, w').
Proof.
  unfold bind. destruct (m w) as [[a | e |] w1]; intros Heq;
    [eauto | discriminate | discriminate].
Qed.

Lemma bind_run {A B} (m : M A) (k : A → M B) w a w1 :
  m w = (Returned a, w1) → bind m k w = k a w1.
Proof. unfold bind. intros ->. reflexivity. Qed.

(** A loop invariant for [for_range]: when each turn that starts in the
    invariant returns and re-establishes it, so does the loop. *)
Lemma for_range_total {A} (I : Z → A → World → Prop) (body : Z → A → M A) n :
  ∀ i acc w,
    I i acc w →
    (∀ j a w1, i ≤ j < i + Z.of_nat n → I j a w1 →
       ∃ a' w2, body j a w1 = (Returned a', w2) ∧ I (j + 1) a' w2) →
    ∃ r w', for_range n i body acc w = (Returned r, w') ∧ I (i + Z.of_nat n) r w'.
Proof.
  induction n as [| n IH]; intros i acc w Hi Hstep.
  - exists acc, w. simpl. split; [reflexivity |].
    replace (i + Z.of_nat 0) with i by lia. exact Hi.
  - destruct (Hstep i acc w ltac:(lia) Hi) as (a' & w2 & Hb & Hi').
    destruct (IH (i + 1) a' w2 Hi') as (r & w' & Hr & HI).
    { intros j a w1 Hj. apply Hstep. lia. }
    exists r, w'. split.
    + simpl. rewrite (bind_run _ _ _ _ _ Hb). exact Hr.
    + replace (i + Z.of_nat (S n)) with (i + 1 + Z.of_nat n) by lia. exact HI.
Qed.

(** The partial-correctness form: turns may throw, but a loop that returns
    has kept the invariant. *)
Lemma for_range_inv {A} (I : Z → A → World → Prop) (body : Z → A → M A) n :
  ∀ i acc w r w',
    I i acc w →
    (∀ j a w1 a' w2, i ≤ j < i + Z.of_nat n → I j a w1 →
       body j a w1 = (Returned a', w2) → I (j + 1) a' w2) →
    for_range n i body acc w = (Returned r, w') →
    I (i + Z.of_nat n) r w'.
Proof.
  induction n as [| n IH]; intros i acc w r w' Hi Hstep Hrun.
  - simpl in Hrun. injection Hrun as <- <-.
    replace (i + Z.of_nat 0) with i by lia. exact Hi.
  - simpl in Hrun. apply bind_returned in Hrun as (a' & w2 & Hb & Hrest).
    replace (i + Z.of_nat (S n)) with (i + 1 + Z.of_nat n) by lia.
    apply (IH (i + 1) a' w2 r w'); [| | exact Hrest].
    + apply (Hstep i acc w a' w2); [lia | exact Hi | exact Hb].
    + intros j a w1 a'' w3 Hj. apply Hstep. lia.
Qed.

(** Below an infinite bound a loop never returns. *)
Lemma for_lt_PosInfinity_never_returns {A} fuel (body : Z → A → M A) acc w r w' :
  for_lt fuel PosInfinity body acc w ≠ (Returned r, w').
Proof.
  unfold for_lt, bind, out_of_fuel.
  destruct (for_range fuel 0 body acc w) as [[a | e |] w1]; discriminate.
Qed.

Lemma range_Int_of_nat (b : Z) : seqZ 0 (0 + Z.of_nat (Z.to_nat b)) = range (Int b).
Proof.
  simpl. destruct (Z.le_gt_cases 0 b).
  - rewrite Z2Nat.id by lia. reflexivity.
  - rewrite !seqZ_nil by lia. reflexivity.
Qed.

Lemma seqZ_snoc (j : Z) : 0 ≤ j → seqZ 0 (j + 1) = seqZ 0 j ++ [j].
Proof.
  intros Hj. rewrite seqZ_app by lia.
  rewrite (seqZ_cons _ 1) by lia. rewrite (seqZ_nil _ (Z.pred 1)) by lia.
  reflexivity.
Qed.

(** A loop whose turns append [F i] to the accumulator collects the [F i]
    in order. *)
Lemma for_lt_collect {T} fuel bound (body : Z → list T → M (list T))
    (F : Z → list T) acc w r w' :
  (∀ j a w1 a' w2, body j a w1 = (Returned a', w2) → a' = a ++ F j) →
  for_lt fuel bound body acc w = (Returned r, w') →
  r = acc ++ mjoin (F <$> range bound).
Proof.
  intros Hbody Hrun. destruct bound as [b | | |].
  - unfold for_lt in Hrun.
    rewrite <- range_Int_of_nat.
    apply (for_range_inv (λ j a _, 0 ≤ j ∧ a = acc ++ mjoin (F <$> seqZ 0 j))
             body _ 0 acc w r w') in Hrun; [tauto | |].
    + split; [lia |]. rewrite seqZ_nil by lia. simpl. by rewrite app_nil_r.
    + intros j a w1 a' w2 Hj [Hj0 ->] Hb. split; [lia |].
      rewrite (Hbody _ _ _ _ _ Hb), seqZ_snoc by lia.
      rewrite fmap_app, join_app. simpl. by rewrite app_nil_r, app_assoc.
  - exfalso. by eapply for_lt_PosInfinity_never_returns.
  - simpl in Hrun. injection Hrun as <- <-. simpl. by rewrite app_nil_r.
  - simpl in Hrun. injection Hrun as <- <-. simpl. by rewrite app_nil_r.
Qed.

Lemma join_singletons {A B} (f : A → B) (l : list A) :
  mjoin ((λ a, [f a]) <$> l) = f <$> l.
Proof. induction l as [| a l IH]; csimpl; [done | by f_equal]. Qed.

Section ChunkerProperties.
Variable env : Env.

(** [createChunk] asks for the extraction of the cell's rectangle into the
    cell's file and, unless that fails, returns the cell's record. *)
Lemma createChunk_run self image col row W H w :
  createChunk env self image col row W H w =
  let c := chunk_of self W H col row in
  let e := EvExtract image (pixelX c) (pixelY c) (width c) (height c)
             (path_join (outputDir self) (filename c)) in
  match fault env e w with
  | Some ex => (Thrown ex, log e w)
  | None =>
      (Returned c,
       {| files := <[path_join (outputDir self) (filename c) :=
                       tile_bytes env image (pixelX c) (pixelY c) (width c) (height c) w]>
                     (files w);
          trace := trace w ++ [e] |})
  end.
Proof.
  unfold createChunk, bind, sharp_extract_toFile, ret. simpl.
  destruct (fault env _ w); reflexivity.
Qed.

Lemma createChunk_returned self image col row W H w c w' :
  createChunk env self image col row W H w = (Returned c, w') →
  c = chunk_of self W H col row.
Proof.
  rewrite createChunk_run. simpl.
  destruct (fault env _ w); [discriminate | congruence].
Qed.

(** The manifest [chunkImage] returns: the dimensions sharp reported, both
    non-zero, the two counts, and the cells in row-major order. *)
Lemma chunkImage_returned fuel self inputPath w m w' :
  chunkImage env fuel self inputPath w = (Returned m, w') →
  ∃ W H w1,
    image_size env inputPath w1 = (Some W, Some H) ∧
    W ≠ 0 ∧ H ≠ 0 ∧
    m = {| version := 1;
           totalWidth := W;
           totalHeight := H;
           chunkWidth := chunkSize self;
           chunkHeight := chunkSize self;
           chunksX := Math_ceil_div W (chunkSize self);
           chunksY := Math_ceil_div H (chunkSize self);
           chunks := grid self W H (Math_ceil_div W (chunkSize self))
                       (Math_ceil_div H (chunkSize self));
           format := ic_format self |}.
Proof.
  unfold chunkImage. intros Hrun.
  apply bind_returned in Hrun as (_ & w1 & _ & Hrun).
  apply bind_returned in Hrun as ([[W |] [H |]] & w2 & Hmeta & Hrun);
    try discriminate.
  unfold sharp_metadata in Hmeta.
  destruct (fault env _ w1); [discriminate |]. injection Hmeta as Hsize _.
  destruct (Z.eqb_spec W 0) as [| HW]; [discriminate |].
  destruct (Z.eqb_spec H 0) as [| HH]; [discriminate |]. simpl in Hrun.
  apply bind_returned in Hrun as (cs & w3 & Hloop & Hrun).
  apply bind_returned in Hrun as (_ & w4 & _ & Hrun).
  injection Hrun as <- <-.
  exists W, H, w1. split; [done |]. split; [done |]. split; [done |]. f_equal.
  eapply (for_lt_collect _ _ _
            (λ row, (λ col, chunk_of self W H col row)
                      <$> range (Math_ceil_div W (chunkSize self)))) in Hloop.
  - exact Hloop.
  - intros row a w5 a' w6 Hin.
    eapply (for_lt_collect _ _ _ (λ col, [chunk_of self W H col row])) in Hin.
    + by rewrite join_singletons in Hin.
    + intros col b w7 b' w8 Hb.
      apply bind_returned in Hb as (c & w9 & Hc & Hb).
      injection Hb as <- <-. by rewrite (createChunk_returned _ _ _ _ _ _ _ _ _ Hc).
Qed.

End ChunkerProperties.

(** ** The grid *)

Section Grid.
Variable self : ImageChunker.
Variables W H : Z.

Lemma row_length (cx row : Z) :
  length ((λ col, chunk_of self W H col row) <$> seqZ 0 cx) = Z.to_nat cx.
Proof. by rewrite length_fmap, length_seqZ. Qed.

(** The entry at index [i] is the cell [(i mod cx, i / cx)]. *)
Lemma grid_lookup (cx cy : Z) (i : nat) (c : ChunkMetadata) :
  grid self W H (Int cx) (Int cy) !! i = Some c ↔
  ∃ col row, 0 ≤ col < cx ∧ 0 ≤ row < cy ∧ Z.of_nat i = row * cx + col ∧
             c = chunk_of self W H col row.
Proof.
  unfold grid, range.
  rewrite (join_lookup_Some_same_length (Z.to_nat cx)).
  2:{ apply Forall_fmap, Forall_forall. intros row _. apply row_length. }
  split.
  - intros (j & l & i' & Hj & Hi' & ->).
    apply list_lookup_fmap_Some in Hj as (row & -> & Hrow).
    apply list_lookup_fmap_Some in Hi' as (col & -> & Hcol).
    apply lookup_seqZ in Hrow as [-> Hrow]. apply lookup_seqZ in Hcol as [-> Hcol].
    exists (0 + Z.of_nat i'), (0 + Z.of_nat j).
    repeat split; try lia.
  - intros (col & row & Hcol & Hrow & Hi & ->).
    exists (Z.to_nat row), ((λ col, chunk_of self W H col row) <$> seqZ 0 cx),
      (Z.to_nat col).
    split; [| split].
    + apply list_lookup_fmap_Some. exists row. split; [done |].
      apply lookup_seqZ. lia.
    + apply list_lookup_fmap_Some. exists col. split; [done |].
      apply lookup_seqZ. lia.
    + apply Nat2Z.inj. rewrite Nat2Z.inj_add, Nat2Z.inj_mul, !Z2Nat.id by lia. lia.
Qed.

Lemma grid_elem (cx cy : Z) (c : ChunkMetadata) :
  c ∈ grid self W H (Int cx) (Int cy) ↔
  ∃ col row, 0 ≤ col < cx ∧ 0 ≤ row < cy ∧ c = chunk_of self W H col row.
Proof.
  rewrite list_elem_of_lookup. split.
  - intros (i & Hi). apply grid_lookup in Hi as (col & row & ? & ? & _ & ?). eauto.
  - intros (col & row & Hcol & Hrow & ->).
    exists (Z.to_nat (row * cx + col)). apply grid_lookup.
    exists col, row. repeat split; try lia.
    rewrite Z2Nat.id by nia. done.
Qed.

Lemma grid_length (cx cy : Z) :
  0 ≤ cx → 0 ≤ cy →
  Z.of_nat (length (grid self W H (Int cx) (Int cy))) = cx * cy.
Proof.
  intros Hcx Hcy. unfold grid, range.
  rewrite length_join, <- list_fmap_compose.
  rewrite (sum_list_fmap_same (Z.to_nat cx)).
  - rewrite length_seqZ. rewrite Nat2Z.inj_mul, !Z2Nat.id by lia. lia.
  - apply Forall_forall. intros row _. simpl. apply row_length.
Qed.

End Grid.

Lemma for_lt_total {A} fuel (b : Z) (body : Z → A → M A) acc w :
  (∀ j a w1, ∃ a' w2, body j a w1 = (Returned a', w2)) →
  ∃ r w', for_lt fuel (Int b) body acc w = (Returned r, w').
Proof.
  intros Hbody. unfold for_lt.
  destruct (for_range_total (λ _ _ _, True) body (Z.to_nat b) 0 acc w I)
    as (r & w' & Hr & _); [| eauto].
  intros j a w1 _ _. destruct (Hbody j a w1) as (a' & w2 & Hb). eauto.
Qed.

Section ChunkerProgress.
Variable env : Env.
Hypothesis Hreliable : reliable env.

Lemma call_reliable e w :
  is_conversion_call e = false → call env e w = (Returned tt, log e w).
Proof. intros He. unfold call. by rewrite (Hreliable e w He). Qed.

Lemma fs_mkdir_reliable dir w :
  fs_mkdir env dir w = (Returned tt, log (EvMkdir dir) w).
Proof. by apply call_reliable. Qed.

Lemma fs_writeFile_reliable file content w :
  fs_writeFile env file content w =
  (Returned tt,
   {| files := <[file := content]> (files w);
      trace := trace w ++ [EvWriteFile file content] |}).
Proof.
  unfold fs_writeFile.
  by rewrite (bind_run _ _ _ _ _ (call_reliable (EvWriteFile file content) w eq_refl)).
Qed.

Lemma fs_rm_reliable dir w :
  fs_rm env dir w =
  (Returned tt,
   {| files := filter (λ kv, under dir kv.1 = false) (files w);
      trace := trace w ++ [EvRm dir] |}).
Proof.
  unfold fs_rm. by rewrite (bind_run _ _ _ _ _ (call_reliable (EvRm dir) w eq_refl)).
Qed.

Lemma createChunk_reliable self image col row W H w :
  ∃ w', createChunk env self image col row W H w
        = (Returned (chunk_of self W H col row), w').
Proof.
  rewrite createChunk_run. simpl. rewrite Hreliable by done. eauto.
Qed.

(** With a non-zero tile size and non-zero dimensions, [chunkImage]
    returns whenever its collaborators do. *)
Lemma chunkImage_succeeds fuel self inputPath w W H :
  chunkSize self ≠ 0 → W ≠ 0 → H ≠ 0 →
  (∀ w0, image_size env inputPath w0 = (Some W, Some H)) →
  ∃ m w', chunkImage env fuel self inputPath w = (Returned m, w').
Proof.
  intros HS HW HH Hsize. unfold chunkImage.
  rewrite (bind_run _ _ _ _ _ (fs_mkdir_reliable _ w)).
  unfold sharp_metadata at 1. unfold bind at 1.
  rewrite Hreliable by done. rewrite Hsize.
  destruct (Z.eqb_spec W 0) as [| _]; [done |].
  destruct (Z.eqb_spec H 0) as [| _]; [done |]. simpl.
  unfold Math_ceil_div. destruct (Z.eqb_spec (chunkSize self) 0) as [| _]; [done |].
  match goal with
  | |- context [bind (for_lt fuel (Int ?cy) ?body ?acc)] =>
      destruct (for_lt_total fuel cy body acc
                  (log (EvMetadata inputPath) (log (EvMkdir (outputDir self)) w)))
        as (cs & w3 & Hloop)
  end.
  { intros row a w1. apply for_lt_total. intros col b w2.
    destruct (createChunk_reliable self inputPath col row W H w2) as (w4 & Hc).
    rewrite (bind_run _ _ _ _ _ Hc). eauto. }
  rewrite (bind_run _ _ _ _ _ Hloop).
  unfold saveMetadata.
  rewrite (bind_run _ _ _ _ _ (fs_writeFile_reliable _ _ w3)).
  eauto.
Qed.

End ChunkerProgress.

(** For positive dimensions and a positive tile size the two counts are
    the integer ceilings and the chunk array is the grid of that size. *)
Lemma chunkImage_returned_pos env fuel self inputPath w W H m w' :
  0 < W → 0 < H → 0 < chunkSize self →
  (∀ w0, image_size env inputPath w0 = (Some W, Some H)) →
  chunkImage env fuel self inputPath w = (Returned m, w') →
  ∃ cx cy,
    (cx - 1) * chunkSize self < W ≤ cx * chunkSize self ∧
    (cy - 1) * chunkSize self < H ≤ cy * chunkSize self ∧
    0 < cx ∧ 0 < cy ∧
    totalWidth m = W ∧ totalHeight m = H ∧
    chunkWidth m = chunkSize self ∧ chunkHeight m = chunkSize self ∧
    chunksX m = Int cx ∧ chunksY m = Int cy ∧
    format m = ic_format self ∧
    chunks m = grid self W H (Int cx) (Int cy).
Proof.
  intros HW HH HS Hsize Hrun.
  apply chunkImage_returned in Hrun as (W' & H' & w1 & Hsz & _ & _ & ->).
  rewrite Hsize in Hsz. injection Hsz as <- <-.
  rewrite !Math_ceil_div_pos by done.
  pose proof (ceil_bounds W _ HS). pose proof (ceil_bounds H _ HS).
  eexists _, _. simpl. repeat split; try done; nia.
Qed.

(** C1: for positive [W], [H] and tile size [S], [chunkImage] returns
    (whenever its collaborators do) a manifest whose counts are
    [cx = ceil(W / S)] and [cy = ceil(H / S)], with [cx * cy] regions; the
    region of the cell [(col, row)] has [pixelX = col * S],
    [pixelY = row * S], [width = min(S, W - pixelX)] and
    [height = min(S, H - pixelY)]; when [W <= S] and [H <= S] there is one
    region, the whole image. *)
Theorem chunkImage_partition env fuel self inputPath w W H :
  0 < W → 0 < H → 0 < chunkSize self →
  (∀ w0, image_size env inputPath w0 = (Some W, Some H)) →
  (reliable env → ∃ m w', chunkImage env fuel self inputPath w = (Returned m, w')) ∧
  ∀ m w', chunkImage env fuel self inputPath w = (Returned m, w') →
    ∃ cx cy,
      (cx - 1) * chunkSize self < W ≤ cx * chunkSize self ∧
      (cy - 1) * chunkSize self < H ≤ cy * chunkSize self ∧
      chunksX m = Int cx ∧ chunksY m = Int cy ∧
      Z.of_nat (length (chunks m)) = cx * cy ∧
      (∀ col row, 0 ≤ col < cx → 0 ≤ row < cy →
         ∃ c, chunks m !! Z.to_nat (row * cx + col) = Some c ∧
              x c = col ∧ y c = row ∧
              pixelX c = col * chunkSize self ∧
              pixelY c = row * chunkSize self ∧
              width c = Z.min (chunkSize self) (W - pixelX c) ∧
              height c = Z.min (chunkSize self) (H - pixelY c)) ∧
      (W ≤ chunkSize self → H ≤ chunkSize self →
         ∃ c, chunks m = [c] ∧ pixelX c = 0 ∧ pixelY c = 0 ∧
              width c = W ∧ height c = H).
Proof.
  intros HW HH HS Hsize. split.
  - intros Hrel. apply (chunkImage_succeeds env Hrel fuel self inputPath w W H);
      [lia | lia | lia | done].
  - intros m w' Hrun.
    destruct (chunkImage_returned_pos _ _ _ _ _ _ _ _ _ HW HH HS Hsize Hrun)
      as (cx & cy & Hcx & Hcy & Hcx0 & Hcy0 & _ & _ & _ & _ & HX & HY & _ & Hchunks).
    exists cx, cy. rewrite Hchunks.
    split; [done |]. split; [done |]. split; [done |]. split; [done |].
    split; [apply grid_length; lia |]. split.
    + intros col row Hcol Hrow. exists (chunk_of self W H col row). split.
      * apply grid_lookup. exists col, row. repeat split; try lia.
      * simpl. done.
    + intros HWS HHS.
      assert (cx = 1) as -> by nia. assert (cy = 1) as -> by nia.
      exists (chunk_of self W H 0 0). split; [reflexivity |]. simpl. lia.
Qed.

(** The partition of a 3 x 2 image into tiles of size 2: two columns, one
    row. *)
Lemma chunkImage_partition_witness :
  ∃ m w', chunkImage quiet_env 0 chunker2 "map.png" empty_world = (Returned m, w') ∧
          chunksX m = Int 2 ∧ chunksY m = Int 1 ∧ length (chunks m) = 2%nat.
Proof.
  destruct (chunkImage_partition quiet_env 0 chunker2 "map.png" empty_world 3 2
              ltac:(lia) ltac:(simpl; lia) ltac:(simpl; lia) ltac:(reflexivity))
    as [Hret Hgrid].
  destruct (Hret ltac:(intros e w0 _; reflexivity)) as (m & w' & Hrun).
  destruct (Hgrid m w' Hrun) as (cx & cy & Hcx & Hcy & HX & HY & Hlen & _).
  simpl in Hcx, Hcy.
  assert (cx = 2) by lia. assert (cy = 1) by lia. subst cx cy.
  exists m, w'. repeat split; try done. lia.
Defined.

(** ** Tiling *)

Lemma sumZ_app {A} (f : A → Z) (l k : list A) :
  sumZ f (l ++ k) = sumZ f l + sumZ f k.
Proof. induction l as [| a l IH]; simpl; lia. Qed.

Lemma sumZ_fmap {A B} (f : B → Z) (g : A → B) (l : list A) :
  sumZ f (g <$> l) = sumZ (λ a, f (g a)) l.
Proof. induction l as [| a l IH]; csimpl; [done | by rewrite IH]. Qed.

Lemma sumZ_join {A} (f : A → Z) (ls : list (list A)) :
  sumZ f (mjoin ls) = sumZ (sumZ f) ls.
Proof. induction ls as [| l ls IH]; csimpl; [done |]. by rewrite sumZ_app, IH. Qed.

Lemma sumZ_scale {A} (f : A → Z) (k : Z) (l : list A) :
  sumZ (λ a, f a * k) l = sumZ f l * k.
Proof. induction l as [| a l IH]; simpl; lia. Qed.

Lemma sumZ_ext {A} (f g : A → Z) (l : list A) :
  (∀ a, f a = g a) → sumZ f l = sumZ g l.
Proof. intros Hfg. induction l as [| a l IH]; simpl; [done |]. by rewrite Hfg, IH. Qed.

(** The clipped sizes along one axis add up to the length of the axis. *)
Lemma sum_clipped (S L : Z) (n : nat) :
  0 < S → 0 ≤ L → (Z.of_nat n - 1) * S < L →
  sumZ (λ k, Z.min S (L - k * S)) (seqZ 0 (Z.of_nat n)) = Z.min (Z.of_nat n * S) L.
Proof.
  intros HS HL. induction n as [| n IH]; intros Hn.
  - simpl. lia.
  - rewrite Nat2Z.inj_succ, <- Z.add_1_r, seqZ_snoc, sumZ_app by lia.
    rewrite IH by lia. simpl. nia.
Qed.

Lemma same_cell (S a b p : Z) :
  0 < S → a * S ≤ p < a * S + S → b * S ≤ p < b * S + S → a = b.
Proof. intros HS Ha Hb. nia. Qed.

Section GridTiling.
Variable self : ImageChunker.
Variables W H cx cy : Z.
Hypothesis HS : 0 < chunkSize self.
Hypothesis HW : 0 < W.
Hypothesis HH : 0 < H.
Hypothesis Hcx : (cx - 1) * chunkSize self < W ≤ cx * chunkSize self.
Hypothesis Hcy : (cy - 1) * chunkSize self < H ≤ cy * chunkSize self.

Lemma grid_disjoint i j c1 c2 px py :
  i ≠ j →
  grid self W H (Int cx) (Int cy) !! i = Some c1 →
  grid self W H (Int cx) (Int cy) !! j = Some c2 →
  ¬ (covers c1 px py ∧ covers c2 px py).
Proof.
  intros Hij H1 H2 [[Hx1 Hy1] [Hx2 Hy2]].
  apply grid_lookup in H1 as (col1 & row1 & Hc1 & Hr1 & Hi & ->).
  apply grid_lookup in H2 as (col2 & row2 & Hc2 & Hr2 & Hj & ->).
  simpl in *.
  assert (col1 = col2) by (apply (same_cell (chunkSize self) _ _ px); lia).
  assert (row1 = row2) by (apply (same_cell (chunkSize self) _ _ py); lia).
  subst. apply Hij. lia.
Qed.

Lemma grid_covers px py :
  (0 ≤ px < W ∧ 0 ≤ py < H) ↔
  ∃ c, c ∈ grid self W H (Int cx) (Int cy) ∧ covers c px py.
Proof.
  split.
  - intros [Hpx Hpy].
    exists (chunk_of self W H (px / chunkSize self) (py / chunkSize self)).
    assert (chunkSize self ≠ 0) as HS0 by lia.
    pose proof (Z.div_mod px _ HS0).
    pose proof (Z.mod_pos_bound px _ HS).
    pose proof (Z.div_mod py _ HS0).
    pose proof (Z.mod_pos_bound py _ HS).
    split.
    + apply grid_elem. eexists _, _. split; [| split; [| reflexivity]]; nia.
    + unfold covers. simpl. nia.
  - intros (c & Hc & [Hx Hy]).
    apply grid_elem in Hc as (col & row & Hcol & Hrow & ->). simpl in *. nia.
Qed.

Lemma grid_nonempty_regions c :
  c ∈ grid self W H (Int cx) (Int cy) → 0 < width c ∧ 0 < height c.
Proof.
  intros Hc. apply grid_elem in Hc as (col & row & Hcol & Hrow & ->). simpl. nia.
Qed.

Lemma grid_area : sumZ area (grid self W H (Int cx) (Int cy)) = W * H.
Proof.
  unfold grid, range. rewrite sumZ_join, sumZ_fmap.
  rewrite (sumZ_ext _ (λ row, W * Z.min (chunkSize self) (H - row * chunkSize self))).
  - rewrite (sumZ_ext _ (λ row, Z.min (chunkSize self) (H - row * chunkSize self) * W))
      by (intros; lia).
    rewrite sumZ_scale. rewrite <- (Z2Nat.id cy) by nia.
    rewrite sum_clipped by (rewrite ?Z2Nat.id; nia).
    rewrite Z2Nat.id by nia. nia.
  - intros row. rewrite sumZ_fmap. unfold area. simpl.
    rewrite sumZ_scale. rewrite <- (Z2Nat.id cx) by nia.
    rewrite sum_clipped by (rewrite ?Z2Nat.id; nia).
    rewrite Z2Nat.id by nia. nia.
Qed.

End GridTiling.

(** C2: for positive [W], [H] and tile size, the rectangles of two
    distinct regions of the returned manifest share no pixel, a pixel lies
    in the [W] x [H] image exactly when some region covers it, and the
    areas of the regions add up to [W * H]. *)
Theorem chunkImage_tiling env fuel self inputPath w W H :
  0 < W → 0 < H → 0 < chunkSize self →
  (∀ w0, image_size env inputPath w0 = (Some W, Some H)) →
  (reliable env → ∃ m w', chunkImage env fuel self inputPath w = (Returned m, w')) ∧
  ∀ m w', chunkImage env fuel self inputPath w = (Returned m, w') →
    (∀ i j c1 c2 px py,
       i ≠ j → chunks m !! i = Some c1 → chunks m !! j = Some c2 →
       ¬ (covers c1 px py ∧ covers c2 px py)) ∧
    (∀ px py, (0 ≤ px < W ∧ 0 ≤ py < H) ↔ ∃ c, c ∈ chunks m ∧ covers c px py) ∧
    (∀ c, c ∈ chunks m → 0 < width c ∧ 0 < height c) ∧
    sumZ area (chunks m) = W * H.
Proof.
  intros HW HH HS Hsize. split.
  - intros Hrel. apply (chunkImage_succeeds env Hrel fuel self inputPath w W H);
      [lia | lia | lia | done].
  - intros m w' Hrun.
    destruct (chunkImage_returned_pos _ _ _ _ _ _ _ _ _ HW HH HS Hsize Hrun)
      as (cx & cy & Hcx & Hcy & _ & _ & _ & _ & _ & _ & _ & _ & _ & ->).
    split; [| split; [| split]].
    + intros i j c1 c2 px py. by apply grid_disjoint.
    + intros px py. by apply grid_covers.
    + intros c. by apply grid_nonempty_regions.
    + by apply grid_area.
Qed.

(** The two tiles of the 3 x 2 image cover its 6 pixels. *)
Lemma chunkImage_tiling_witness :
  ∃ m w', chunkImage quiet_env 0 chunker2 "map.png" empty_world = (Returned m, w') ∧
          sumZ area (chunks m) = 6.
Proof.
  destruct (chunkImage_tiling quiet_env 0 chunker2 "map.png" empty_world 3 2
              ltac:(lia) ltac:(simpl; lia) ltac:(simpl; lia) ltac:(reflexivity))
    as [Hret Htiles].
  destruct (Hret ltac:(intros e w0 _; reflexivity)) as (m & w' & Hrun).
  destruct (Htiles m w' Hrun) as (_ & _ & _ & Harea).
  exists m, w'. split; [exact Hrun | exact Harea].
Defined.

(** ** Identifiers and file names *)

Lemma all_chars_app P (a b : string) :
  all_chars P (a +:+ b) = all_chars P a && all_chars P b.
Proof. induction a as [| c a IH]; simpl; [done |]. by rewrite IH, andb_assoc. Qed.

Lemma all_chars_weaken (P Q : ascii → bool) (s : string) :
  (∀ c, P c = true → Q c = true) → all_chars P s = true → all_chars Q s = true.
Proof.
  intros HPQ. induction s as [| c s IH]; simpl; [done |].
  intros [Hc Hs]%andb_prop. by rewrite (HPQ c Hc), IH.
Qed.

Lemma pretty_N_char_number (n : N) : number_char (pretty_N_char n) = true.
Proof. unfold pretty_N_char. by repeat case_match. Qed.

Lemma pretty_N_go_chars (n : N) (s : string) :
  all_chars number_char s = true → all_chars number_char (pretty_N_go n s) = true.
Proof.
  revert s. induction (N.lt_wf_0 n) as [n _ IH]. intros s Hs.
  destruct (decide (n = 0)%N) as [-> | Hn].
  - by rewrite pretty_N_go_0.
  - rewrite pretty_N_go_step by lia. apply IH.
    + apply N.div_lt; lia.
    + simpl. by rewrite pretty_N_char_number, Hs.
Qed.

Lemma pretty_N_chars (n : N) : all_chars number_char (pretty n) = true.
Proof.
  unfold pretty, pretty_N. case_decide; [done |]. by apply pretty_N_go_chars.
Qed.

Lemma pretty_Z_chars (z : Z) : all_chars number_char (pretty z) = true.
Proof.
  destruct z as [| p | p]; [done | apply pretty_N_chars |].
  unfold pretty, pretty_Z. simpl.
  apply (pretty_N_chars (N.pos p)).
Qed.

(** Two strings that agree after a separator which neither head contains
    have the same head and the same tail. *)
Lemma split_at_sep (sep : ascii) (a a' b b' : string) :
  all_chars (λ c, negb (Ascii.eqb c sep)) a = true →
  all_chars (λ c, negb (Ascii.eqb c sep)) a' = true →
  a +:+ String sep b = a' +:+ String sep b' → a = a' ∧ b = b'.
Proof.
  revert a'. induction a as [| c a IH]; intros [| c' a']; simpl.
  - intros _ _ [= ->]. done.
  - intros _ [Hc _]%andb_prop [= <- _]. by rewrite Ascii.eqb_refl in Hc.
  - intros [Hc _]%andb_prop _ [= -> _]. by rewrite Ascii.eqb_refl in Hc.
  - intros [_ Ha]%andb_prop [_ Ha']%andb_prop [= -> Heq].
    destruct (IH a' Ha Ha' Heq) as [-> ->]. done.
Qed.

Lemma chunk_id_chars (col row : Z) :
  all_chars id_char (pretty col +:+ "_" +:+ pretty row) = true.
Proof.
  rewrite all_chars_app. simpl. apply andb_true_intro. split.
  - apply (all_chars_weaken number_char); [| apply pretty_Z_chars].
    intros c Hc. unfold id_char. by rewrite Hc.
  - apply (all_chars_weaken number_char); [| apply pretty_Z_chars].
    intros c Hc. unfold id_char. by rewrite Hc.
Qed.

Lemma number_char_not (sep : ascii) :
  number_char sep = false →
  ∀ c, number_char c = true → negb (Ascii.eqb c sep) = true.
Proof.
  intros Hsep c Hc. destruct (Ascii.eqb_spec c sep) as [-> |]; [congruence | done].
Qed.

Lemma id_char_not (sep : ascii) :
  id_char sep = false →
  ∀ c, id_char c = true → negb (Ascii.eqb c sep) = true.
Proof.
  intros Hsep c Hc. destruct (Ascii.eqb_spec c sep) as [-> |]; [congruence | done].
Qed.

(** The identifier determines the cell. *)
Lemma chunk_id_inj (col row col' row' : Z) :
  pretty col +:+ "_" +:+ pretty row = pretty col' +:+ "_" +:+ pretty row' →
  col = col' ∧ row = row'.
Proof.
  intros Heq. apply (split_at_sep "_"%char) in Heq as [Hc Hr].
  - split; by apply (inj pretty).
  - apply (all_chars_weaken number_char); [| apply pretty_Z_chars].
    by apply number_char_not.
  - apply (all_chars_weaken number_char); [| apply pretty_Z_chars].
    by apply number_char_not.
Qed.

(** So does the file name, for one format. *)
Lemma chunk_filename_inj (fmt : string) (col row col' row' : Z) :
  (pretty col +:+ "_" +:+ pretty row) +:+ "." +:+ fmt
  = (pretty col' +:+ "_" +:+ pretty row') +:+ "." +:+ fmt →
  col = col' ∧ row = row'.
Proof.
  intros Heq. apply (split_at_sep "."%char) in Heq as [Hid _].
  - by apply chunk_id_inj.
  - apply (all_chars_weaken id_char); [| apply chunk_id_chars].
    by apply id_char_not.
  - apply (all_chars_weaken id_char); [| apply chunk_id_chars].
    by apply id_char_not.
Qed.

(** Whatever the two counts are, an entry of the grid is a cell of it. *)
Lemma grid_lookup_any self W H (bx bY : jsint) (i : nat) (c : ChunkMetadata) :
  grid self W H bx bY !! i = Some c →
  ∃ cx cy col row,
    bx = Int cx ∧ bY = Int cy ∧ 0 ≤ col < cx ∧ 0 ≤ row < cy ∧
    Z.of_nat i = row * cx + col ∧ c = chunk_of self W H col row.
Proof.
  intros Hi.
  assert (∀ b, (∀ z, b ≠ Int z) → range b = []) as Hrange
    by (intros [z | | |] Hb; [by destruct (Hb z) | done..]).
  destruct bY as [cy | | |]; try (by unfold grid in Hi; simpl in Hi; rewrite lookup_nil in Hi).
  destruct bx as [cx | | |].
  - apply grid_lookup in Hi as (col & row & ? & ? & ? & ?). by exists cx, cy, col, row.
  - unfold grid in Hi. rewrite join_nil_2 in Hi; [by rewrite lookup_nil in Hi |].
    apply Forall_fmap, Forall_forall. by intros.
  - unfold grid in Hi. rewrite join_nil_2 in Hi; [by rewrite lookup_nil in Hi |].
    apply Forall_fmap, Forall_forall. by intros.
  - unfold grid in Hi. rewrite join_nil_2 in Hi; [by rewrite lookup_nil in Hi |].
    apply Forall_fmap, Forall_forall. by intros.
Qed.

(** ** The tile compressor *)

Section Converter.
Variable env : Env.
Variable self : TextureForge.
Variable inputPath : string.
Variable outputPath : option string.

Local Abbreviation outputFilePath := (nullish outputPath (replace_image_ext inputPath)).
Local Abbreviation command := (buildToktxCommand self inputPath outputFilePath).



(** The exception of a failed encoder run reaches the [catch] block. *)
Lemma convertFile_try_exec_fails startTime w0 content ex :
  fault env (EvAccess inputPath) w0 = None →
  files w0 !! inputPath = Some content →
  fault env (EvStat inputPath) (log (EvAccess inputPath) w0) = None →
  fault env (EvExec command)
    (log (EvStat inputPath) (log (EvAccess inputPath) w0)) = Some ex →
  ∃ w1, convertFile_try env self inputPath outputPath startTime w0 = (Thrown ex, w1).
Proof.
  intros Hacc Hin Hstat Hexec.
  unfold convertFile_try, fs_access, fs_stat_size, execAsync, Date_now.
  unfold call, ret, bind.
  rewrite Hacc. simpl. rewrite Hin, Hstat. simpl. rewrite Hin.
  rewrite Hexec. eauto.
Qed.

(** [convertFile] is the [try] block, with an exception turned into a
    failure record by the [catch] block. *)
Lemma convertFile_run w :
  convertFile env self inputPath outputPath w =
  match convertFile_try env self inputPath outputPath (clock env w) (log EvNow w) with
  | (Thrown ex, w1) =>
      (Returned {| success := false;
                   inputFile := inputPath;
                   outputFile := outputFilePath;
                   originalSize := 0;
                   compressedSize := 0;
                   compressionRatio := Z_to_float 0;
                   mode := tf_mode self;
                   duration := clock env w1 - clock env w;
                   error := Some (Exn_text ex) |},
       log EvNow w1)
  | r => r
  end.
Proof.
  unfold convertFile, bind, try_catch, Date_now at 1. simpl.
  destruct (convertFile_try _ _ _ _ _ _) as [[r | ex |] w1]; reflexivity.
Qed.

End Converter.


(** The three failures of one conversion, run: the encoder cannot be
    started, the input file is missing, the encoder writes no output. *)
Example convertFile_encoder_fails :
  (convertFile no_encoder_env (pipeline_forge options2) "tile.png" None tile_world).1
  = Returned {| success := false; inputFile := "tile.png"; outputFile := "tile.ktx2";
                originalSize := 0; compressedSize := 0; compressionRatio := PrimFloat.zero;
                mode := etc1s; duration := 4;
                error := Some "Command failed: toktx: not found" |}.
Proof. vm_compute. reflexivity. Qed.

Example convertFile_input_missing :
  (convertFile quiet_env (pipeline_forge options2) "tile.png" None empty_world).1
  = Returned {| success := false; inputFile := "tile.png"; outputFile := "tile.ktx2";
                originalSize := 0; compressedSize := 0; compressionRatio := PrimFloat.zero;
                mode := etc1s; duration := 2;
                error := Some "ENOENT: no such file or directory, access 'tile.png'" |}.
Proof. vm_compute. reflexivity. Qed.

Example convertFile_output_missing :
  (convertFile silent_env (pipeline_forge options2) "tile.png" None tile_world).1
  = Returned {| success := false; inputFile := "tile.png"; outputFile := "tile.ktx2";
                originalSize := 0; compressedSize := 0; compressionRatio := PrimFloat.zero;
                mode := etc1s; duration := 5;
                error := Some "ENOENT: no such file or directory, stat 'tile.ktx2'" |}.
Proof. vm_compute. reflexivity. Qed.

Example convertFile_succeeds :
  (convertFile quiet_env (pipeline_forge options2) "tile.png" None tile_world).1
  = Returned {| success := true; inputFile := "tile.png"; outputFile := "tile.ktx2";
                originalSize := 10; compressedSize := 4;
                compressionRatio := percent_saved 4 10;
                mode := etc1s; duration := 5; error := None |}.
Proof. vm_compute. reflexivity. Qed.

(** ** The compress loop *)

Lemma accessed_snoc t e :
  accessed (t ++ [e]) = accessed t ++ match e with EvAccess p => [p] | _ => [] end.
Proof. unfold accessed. rewrite omap_app. by destruct e. Qed.

Lemma written_snoc t e :
  written (t ++ [e]) = written t ++ match e with EvWriteFile p c => [(p, c)] | _ => [] end.
Proof. unfold written. rewrite omap_app. by destruct e. Qed.

Section ConverterWorld.
Variable env : Env.
Variable self : TextureForge.
Variable inputPath : string.
Variable outputPath : option string.

(** What one run of [convertFile] does to the world: one [fs.access], of
    its input; no [fs.writeFile]; no file touched but its output. *)
Lemma convertFile_world w :
  ∃ r w',
    convertFile env self inputPath outputPath w = (Returned r, w') ∧
    inputFile r = inputPath ∧
    outputFile r = nullish outputPath (replace_image_ext inputPath) ∧
    accessed (trace w') = accessed (trace w) ++ [inputPath] ∧
    written (trace w') = written (trace w) ∧
    (∀ p, p ≠ nullish outputPath (replace_image_ext inputPath) →
          files w' !! p = files w !! p).
Proof.
  rewrite convertFile_run.
  unfold convertFile_try, fs_access, fs_stat_size, execAsync, Date_now.
  unfold call, ret, bind.
  destruct (fault env (EvAccess inputPath) _); simpl.
  { eexists _, _. split; [reflexivity |]. simpl.
    rewrite !accessed_snoc, !written_snoc, !app_nil_r, <- ?app_assoc. done. }
  destruct (files w !! inputPath) as [content |] eqn:Hin.
  2:{ eexists _, _. split; [reflexivity |]. simpl.
      rewrite !accessed_snoc, !written_snoc, !app_nil_r, <- ?app_assoc. done. }
  destruct (fault env (EvStat inputPath) _); simpl.
  { eexists _, _. split; [reflexivity |]. simpl.
    rewrite !accessed_snoc, !written_snoc, !app_nil_r, <- ?app_assoc. done. }
  rewrite Hin.
  destruct (fault env (EvExec _) _); simpl.
  { eexists _, _. split; [reflexivity |]. simpl.
    rewrite !accessed_snoc, !written_snoc, !app_nil_r, <- ?app_assoc. done. }
  assert (∀ p, p ≠ nullish outputPath (replace_image_ext inputPath) →
          match toktx_output env
                  (buildToktxCommand self inputPath
                     (nullish outputPath (replace_image_ext inputPath)))
                  (log (EvStat inputPath) (log (EvAccess inputPath) (log EvNow w)))
          with
          | Some bytes =>
              <[nullish outputPath (replace_image_ext inputPath) := bytes]> (files w)
          | None => files w
          end !! p = files w !! p) as Hframe.
  { intros p Hp. destruct (toktx_output _ _ _); [by rewrite lookup_insert_ne | done]. }
  destruct (fault env (EvStat _) _); simpl.
  { eexists _, _. split; [reflexivity |]. simpl.
    rewrite !accessed_snoc, !written_snoc, !app_nil_r, <- ?app_assoc. done. }
  destruct (_ !! nullish outputPath (replace_image_ext inputPath)).
  - eexists _, _. split; [reflexivity |]. simpl.
    rewrite !accessed_snoc, !written_snoc, !app_nil_r, <- ?app_assoc. done.
  - eexists _, _. split; [reflexivity |]. simpl.
    rewrite !accessed_snoc, !written_snoc, !app_nil_r, <- ?app_assoc. done.
Qed.

End ConverterWorld.

(** ** Paths *)

Lemma string_app_assoc (a b c : string) : (a +:+ b) +:+ c = a +:+ b +:+ c.
Proof.
  induction a as [| x a IH]; [done |].
  change (String x ((a +:+ b) +:+ c) = String x (a +:+ b +:+ c)). by rewrite IH.
Qed.

Lemma prefix_app_same (a b c : string) :
  String.prefix (a +:+ b) (a +:+ c) = String.prefix b c.
Proof.
  induction a as [| x a IH]; simpl; [done |].
  destruct (ascii_dec x x); [done | congruence].
Qed.

Lemma eqb_app_same (a b c : string) :
  String.eqb (a +:+ b) (a +:+ c) = String.eqb b c.
Proof.
  induction a as [| x a IH]; simpl; [done |]. by rewrite Ascii.eqb_refl.
Qed.

Lemma under_app_same (a b c : string) : under (a +:+ b) (a +:+ c) = under b c.
Proof.
  unfold under. by rewrite eqb_app_same, string_app_assoc, prefix_app_same.
Qed.

Lemma prefix_refl_app (a b : string) : String.prefix a (a +:+ b) = true.
Proof.
  induction a as [| x a IH]; simpl; [by destruct b |].
  destruct (ascii_dec x x); [done | congruence].
Qed.

(** A file of a directory lies under it. *)
Lemma under_path_join (dir name : string) : under dir (path_join dir name) = true.
Proof.
  unfold under, path_join.
  rewrite <- string_app_assoc, prefix_refl_app. apply orb_true_r.
Qed.

(** The paths of the pipeline below an output directory [out]. *)
Lemma under_chunks_temp_chunks (out name : string) :
  under (path_join out "chunks_temp") (path_join (path_join out "chunks") name) = false.
Proof.
  unfold path_join. rewrite string_app_assoc, under_app_same.
  unfold under. simpl. done.
Qed.




Lemma not_under_ne (dir name p : string) :
  under dir p = false → p ≠ path_join dir name.
Proof. intros Hp ->. by rewrite under_path_join in Hp. Qed.

Section CompressLoop.
Variable env : Env.
Variable forge : TextureForge.
Variables chunksDir ktx2Dir : string.

(** One turn of the loop: the outcome is pushed; a success adds its two
    sizes to the totals and renames the entry, a failure changes neither. *)
Lemma compressChunk_run i chunk st w :
  ∃ r st' w',
    compressChunk env forge chunksDir ktx2Dir i chunk st w = (Returned st', w') ∧
    ls_conversions st' = ls_conversions st ++ [r] ∧
    (success r = true →
       ls_chunks st' =
         <[i := set_filename chunk (replace_first ".png" ".ktx2" (filename chunk))]>
           (ls_chunks st) ∧
       ls_totalOriginalSize st' = ls_totalOriginalSize st + originalSize r ∧
       ls_totalCompressedSize st' = ls_totalCompressedSize st + compressedSize r) ∧
    (success r = false →
       ls_chunks st' = ls_chunks st ∧
       ls_totalOriginalSize st' = ls_totalOriginalSize st ∧
       ls_totalCompressedSize st' = ls_totalCompressedSize st) ∧
    inputFile r = path_join chunksDir (filename chunk) ∧
    outputFile r = path_join ktx2Dir (replace_first ".png" ".ktx2" (filename chunk)) ∧
    accessed (trace w') = accessed (trace w) ++ [path_join chunksDir (filename chunk)] ∧
    written (trace w') = written (trace w) ∧
    (∀ p, under ktx2Dir p = false → files w' !! p = files w !! p).
Proof.
  unfold compressChunk.
  destruct (convertFile_world env forge (path_join chunksDir (filename chunk))
              (Some (path_join ktx2Dir (replace_first ".png" ".ktx2" (filename chunk)))) w)
    as (r & w' & Hrun & Hin & Hout & Hacc & Hwr & Hframe).
  rewrite (bind_run _ _ _ _ _ Hrun).
  assert (∀ p, under ktx2Dir p = false → files w' !! p = files w !! p) as Hfr.
  { intros p Hp. apply Hframe. simpl. by apply not_under_ne. }
  exists r. destruct (success r) eqn:Hs; unfold ret; eexists _, _;
    (split; [reflexivity |]); simpl; repeat split; try done.
Qed.

(** The loop from index [i] on, over the [n] entries left. *)
Lemma compressLoop_spec n :
  ∀ i st w,
    (i + n = length (ls_chunks st))%nat →
    ∃ st' w' rs,
      compressLoop env forge chunksDir ktx2Dir n i st w = (Returned st', w') ∧
      length rs = n ∧
      ls_conversions st' = ls_conversions st ++ rs ∧
      length (ls_chunks st') = length (ls_chunks st) ∧
      (∀ k, (k < i)%nat → ls_chunks st' !! k = ls_chunks st !! k) ∧
      (∀ k c0, ls_chunks st !! (i + k)%nat = Some c0 →
         ∃ r, rs !! k = Some r ∧
              inputFile r = path_join chunksDir (filename c0) ∧
              outputFile r
              = path_join ktx2Dir (replace_first ".png" ".ktx2" (filename c0)) ∧
              ls_chunks st' !! (i + k)%nat = Some (renamed c0 r)) ∧
      ls_totalOriginalSize st'
      = ls_totalOriginalSize st + sumZ originalSize (List.filter success rs) ∧
      ls_totalCompressedSize st'
      = ls_totalCompressedSize st + sumZ compressedSize (List.filter success rs) ∧
      accessed (trace w')
      = accessed (trace w)
        ++ ((λ c, path_join chunksDir (filename c)) <$> drop i (ls_chunks st)) ∧
      written (trace w') = written (trace w) ∧
      (∀ p, under ktx2Dir p = false → files w' !! p = files w !! p).
Proof.
  induction n as [| n IH]; intros i st w Hlen.
  - exists st, w, []. simpl. rewrite !app_nil_r, Z.add_0_r.
    rewrite drop_ge by lia. simpl. rewrite app_nil_r.
    repeat split; try done; try lia.
    intros k c0 Hk. apply lookup_lt_Some in Hk. lia.
  - simpl. destruct (ls_chunks st !! i) as [chunk |] eqn:Hi.
    2:{ apply lookup_ge_None in Hi. lia. }
    destruct (compressChunk_run i chunk st w)
      as (r & st1 & w1 & Hstep & Hconv & Hsucc & Hfail & Hin & Hout & Hacc & Hwr & Hfr).
    rewrite (bind_run _ _ _ _ _ Hstep).
    assert (ls_chunks st1 = <[i := renamed chunk r]> (ls_chunks st)
            ∧ ls_totalOriginalSize st1
              = ls_totalOriginalSize st + sumZ originalSize (List.filter success [r])
            ∧ ls_totalCompressedSize st1
              = ls_totalCompressedSize st + sumZ compressedSize (List.filter success [r]))
      as (Hchunks & HtotO & HtotC).
    { unfold renamed. simpl. destruct (success r); simpl.
      - destruct (Hsucc eq_refl) as (-> & -> & ->). repeat split; lia.
      - destruct (Hfail eq_refl) as (-> & -> & ->).
        rewrite list_insert_id by done. repeat split; lia. }
    destruct (IH (S i) st1 w1) as
      (st' & w' & rs & Hloop & Hrs & Hconv' & Hlen' & Hbelow & Hat & HO & HC
         & Hacc' & Hwr' & Hfr').
    { rewrite Hchunks, length_insert. lia. }
    exists st', w', (r :: rs). split; [exact Hloop |].
    split; [simpl; lia |].
    split; [by rewrite Hconv', Hconv, <- app_assoc |].
    split; [by rewrite Hlen', Hchunks, length_insert |].
    split; [| split; [| split; [| split; [| split; [| split]]]]].
    + intros k Hk. rewrite Hbelow by lia. rewrite Hchunks.
      apply list_lookup_insert_ne. lia.
    + intros [| k] c0 Hk.
      * rewrite Nat.add_0_r in Hk |- *. rewrite Hi in Hk. injection Hk as <-.
        exists r. split; [done |]. split; [done |]. split; [done |].
        rewrite Hbelow by lia. rewrite Hchunks.
        apply list_lookup_insert_eq. by eapply lookup_lt_Some.
      * replace (i + S k)%nat with (S i + k)%nat in Hk |- * by lia.
        destruct (Hat k c0) as (r' & ? & ? & ? & ?).
        { rewrite Hchunks. rewrite list_lookup_insert_ne by lia. done. }
        exists r'. done.
    + rewrite HO, HtotO. simpl. destruct (success r); simpl; lia.
    + rewrite HC, HtotC. simpl. destruct (success r); simpl; lia.
    + rewrite Hacc', Hacc, Hchunks, <- app_assoc. f_equal.
      rewrite (drop_S _ chunk i Hi). simpl. f_equal.
      rewrite drop_insert_lt by lia. done.
    + by rewrite Hwr', Hwr.
    + intros p Hp. by rewrite Hfr', Hfr.
Qed.

End CompressLoop.

(** ** What the chunker does to the world *)

Lemma for_lt_inv {A} (I : World → Prop) fuel bound (body : Z → A → M A) acc w r w' :
  I w →
  (∀ j a w1 a' w2, I w1 → body j a w1 = (Returned a', w2) → I w2) →
  for_lt fuel bound body acc w = (Returned r, w') →
  I w'.
Proof.
  intros Hw Hbody Hrun. destruct bound as [b | | |].
  - unfold for_lt in Hrun.
    apply (for_range_inv (λ _ _ w1, I w1) body _ 0 acc w r w') in Hrun; [done.. |].
    intros j a w1 a' w2 _. apply Hbody.
  - exfalso. by eapply for_lt_PosInfinity_never_returns.
  - simpl in Hrun. by injection Hrun as <- <-.
  - simpl in Hrun. by injection Hrun as <- <-.
Qed.

Section ChunkerWorld.
Variable env : Env.

Lemma call_returned e w u w' :
  call env e w = (Returned u, w') → fault env e w = None ∧ w' = log e w.
Proof. unfold call. destruct (fault env e w); [done |]. by intros [= _ <-]. Qed.

Lemma fs_writeFile_returned file content w u w' :
  fs_writeFile env file content w = (Returned u, w') →
  fault env (EvWriteFile file content) w = None ∧
  w' = {| files := <[file := content]> (files w);
          trace := trace w ++ [EvWriteFile file content] |}.
Proof.
  unfold fs_writeFile. intros (? & w1 & [Hf ->]%call_returned & Hset)%bind_returned.
  unfold set_file in Hset. by injection Hset as _ <-.
Qed.

Lemma fs_rm_returned dir w u w' :
  fs_rm env dir w = (Returned u, w') →
  fault env (EvRm dir) w = None ∧
  w' = {| files := filter (λ kv, under dir kv.1 = false) (files w);
          trace := trace w ++ [EvRm dir] |}.
Proof.
  unfold fs_rm. intros (? & w1 & [Hf ->]%call_returned & Hset)%bind_returned.
  by injection Hset as _ <-.
Qed.

Lemma createChunk_frame self image col row W H w0 w c w' :
  chunker_frame (outputDir self) w0 w →
  createChunk env self image col row W H w = (Returned c, w') →
  chunker_frame (outputDir self) w0 w'.
Proof.
  intros (Hacc & Hwr & Hfr). rewrite createChunk_run. simpl.
  destruct (fault env _ w); [done |]. intros [= _ <-].
  split; [| split]; simpl.
  - by rewrite accessed_snoc, app_nil_r.
  - by rewrite written_snoc, app_nil_r.
  - intros p Hp. rewrite lookup_insert_ne; [by apply Hfr |].
    intros <-. by rewrite under_path_join in Hp.
Qed.

(** [chunkImage] writes one manifest, its own, into its output directory,
    checks no file, and leaves every file outside that directory alone. *)
Lemma chunkImage_world fuel self inputPath w m w' :
  chunkImage env fuel self inputPath w = (Returned m, w') →
  accessed (trace w') = accessed (trace w) ∧
  written (trace w')
  = written (trace w) ++ [(path_join (outputDir self) "metadata.json", JSON_stringify m)] ∧
  files w' !! path_join (outputDir self) "metadata.json" = Some (JSON_stringify m) ∧
  ∀ p, under (outputDir self) p = false → files w' !! p = files w !! p.
Proof.
  unfold chunkImage. intros Hrun.
  apply bind_returned in Hrun as (_ & w1 & [_ ->]%call_returned & Hrun).
  apply bind_returned in Hrun as ([[W |] [H |]] & w2 & Hmeta & Hrun);
    try discriminate.
  unfold sharp_metadata in Hmeta.
  destruct (fault env _ _); [discriminate |]. injection Hmeta as _ <-.
  destruct ((W =? 0) || (H =? 0)); [discriminate |].
  apply bind_returned in Hrun as (cs & w3 & Hloop & Hrun).
  apply bind_returned in Hrun as (_ & w4 & [_ ->]%fs_writeFile_returned & Hrun).
  injection Hrun as <- <-.
  assert (chunker_frame (outputDir self) w w3) as (Hacc & Hwr & Hfr).
  { eapply (for_lt_inv (chunker_frame (outputDir self) w)); [| | exact Hloop].
    - split; [| split]; simpl; [| | done].
      + by rewrite !accessed_snoc, !app_nil_r.
      + by rewrite !written_snoc, !app_nil_r.
    - intros row a w5 a' w6 Hw5 Hin.
      eapply (for_lt_inv (chunker_frame (outputDir self) w)); [exact Hw5 | | exact Hin].
      intros col b w7 b' w8 Hw7 Hb.
      apply bind_returned in Hb as (c & w9 & Hc & Hb). injection Hb as _ <-.
      by eapply createChunk_frame. }
  simpl. split; [| split; [| split]].
  - by rewrite accessed_snoc, app_nil_r.
  - by rewrite written_snoc, Hwr.
  - by rewrite lookup_insert_eq.
  - intros p Hp. rewrite lookup_insert_ne; [by apply Hfr |].
    intros <-. by rewrite under_path_join in Hp.
Qed.

End ChunkerWorld.

(** ** The pipeline *)

Lemma replace_first_skip (p : ascii) (pat rep : string) (c : ascii) (s : string) :
  c ≠ p →
  replace_first (String p pat) rep (String c s)
  = String c (replace_first (String p pat) rep s).
Proof.
  intros Hc. unfold replace_first; fold replace_first.
  unfold String.prefix; fold String.prefix.
  destruct (ascii_dec p c); [congruence | done].
Qed.

Lemma replace_png_ext (a : string) :
  all_chars (λ c, negb (Ascii.eqb c "."%char)) a = true →
  replace_first ".png" ".ktx2" (a +:+ ".png") = a +:+ ".ktx2".
Proof.
  induction a as [| c a IH]; [done |].
  intros [Hc Ha]%andb_prop.
  change (String c a +:+ ".png") with (String c (a +:+ ".png")).
  change (String c a +:+ ".ktx2") with (String c (a +:+ ".ktx2")).
  rewrite replace_first_skip, IH; [done | done |].
  intros ->. by rewrite Ascii.eqb_refl in Hc.
Qed.

Section PipelineRun.
Variable env : Env.
Variable fuel : nat.
Variable options : ProcessOptions.

Local Abbreviation chunksDir := (path_join (po_outputDir options) "chunks_temp").
Local Abbreviation ktx2Dir := (path_join (po_outputDir options) "chunks").

(** The whole loop, from the first entry on. *)
Lemma compressLoop_all (cs : list ChunkMetadata) w :
  ∃ st w',
    compressLoop env (pipeline_forge options) chunksDir ktx2Dir (length cs) 0
      {| ls_chunks := cs; ls_conversions := [];
         ls_totalOriginalSize := 0; ls_totalCompressedSize := 0 |} w
    = (Returned st, w') ∧
    length (ls_conversions st) = length cs ∧
    ls_chunks st = zip_with renamed cs (ls_conversions st) ∧
    Forall2 (λ c r,
               inputFile r = path_join chunksDir (filename c) ∧
               outputFile r
               = path_join ktx2Dir (replace_first ".png" ".ktx2" (filename c)))
      cs (ls_conversions st) ∧
    ls_totalOriginalSize st = sumZ originalSize (List.filter success (ls_conversions st)) ∧
    ls_totalCompressedSize st
    = sumZ compressedSize (List.filter success (ls_conversions st)) ∧
    accessed (trace w')
    = accessed (trace w) ++ ((λ c, path_join chunksDir (filename c)) <$> cs) ∧
    written (trace w') = written (trace w) ∧
    (∀ p, under ktx2Dir p = false → files w' !! p = files w !! p).
Proof.
  destruct (compressLoop_spec env (pipeline_forge options) chunksDir ktx2Dir
              (length cs) 0
              {| ls_chunks := cs; ls_conversions := [];
                 ls_totalOriginalSize := 0; ls_totalCompressedSize := 0 |} w)
    as (st & w' & rs & Hloop & Hrs & Hconv & Hlen & _ & Hat & HO & HC & Hacc & Hwr & Hfr);
    [done |].
  simpl in *. subst rs.
  exists st, w'. split; [done |]. split; [done |].
  split; [| split; [| repeat split; done]].
  - apply list_eq. intros k. rewrite lookup_zip_with.
    destruct (cs !! k) as [c0 |] eqn:Hk; simpl.
    + destruct (Hat k c0 Hk) as (r & -> & _ & _ & ->). done.
    + apply lookup_ge_None. rewrite Hlen. by apply lookup_ge_None.
  - apply Forall2_same_length_lookup. split; [done |].
    intros k c0 r Hk Hr. destruct (Hat k c0 Hk) as (r' & Hr' & ? & ? & _).
    rewrite Hr in Hr'. by injection Hr' as <-.
Qed.

(** A run that returns: the chunker returned its manifest, every entry
    went through the converter, the temporary directory was removed and
    the final manifest written. *)
Lemma processMapToKTX2_returned w report w' :
  processMapToKTX2 env fuel options w = (Returned report, w') →
  ∃ m w1 rs w3,
    chunkImage env fuel (pipeline_chunker options) (po_input options) w
    = (Returned m, w1) ∧
    fault env (EvMkdir ktx2Dir) w1 = None ∧
    length rs = length (chunks m) ∧
    Forall2 (λ c r,
               inputFile r = path_join chunksDir (filename c) ∧
               outputFile r
               = path_join ktx2Dir (replace_first ".png" ".ktx2" (filename c)))
      (chunks m) rs ∧
    report = report_of m rs ∧
    fault env (EvRm chunksDir) w3 = None ∧
    accessed (trace w3)
    = accessed (trace w1) ++ ((λ c, path_join chunksDir (filename c)) <$> chunks m) ∧
    written (trace w3) = written (trace w1) ∧
    (∀ p, under ktx2Dir p = false → files w3 !! p = files w1 !! p) ∧
    w' = {| files := <[path_join ktx2Dir "metadata.json"
                       := JSON_stringify (pr_metadata report)]>
                       (filter (λ kv, under chunksDir kv.1 = false) (files w3));
            trace := (trace w3 ++ [EvRm chunksDir])
                     ++ [EvWriteFile (path_join ktx2Dir "metadata.json")
                           (JSON_stringify (pr_metadata report))] |}.
Proof.
  unfold processMapToKTX2.
  fold (pipeline_chunker options) (pipeline_forge options). intros Hrun.
  apply bind_returned in Hrun as (m & w1 & Hchunk & Hrun).
  apply bind_returned in Hrun as (_ & w2 & [Hmk ->]%call_returned & Hrun).
  apply bind_returned in Hrun as (st & w3 & Hloop & Hrun).
  apply bind_returned in Hrun as (_ & w4 & [Hrm ->]%fs_rm_returned & Hrun).
  apply bind_returned in Hrun as (_ & w5 & [_ ->]%fs_writeFile_returned & Hrun).
  injection Hrun as <- <-.
  destruct (compressLoop_all (chunks m) (log (EvMkdir ktx2Dir) w1))
    as (st' & w3' & Hloop' & Hlen & Hchunks & Hio & HO & HC & Hacc & Hwr & Hfr).
  rewrite Hloop in Hloop'. injection Hloop' as <- <-.
  exists m, w1, (ls_conversions st), w3.
  split; [done |]. split; [done |]. split; [done |]. split; [done |].
  split; [| split; [done |]; split; [| split; [| split; [done | done]]]].
  - unfold report_of. by rewrite Hchunks, HO, HC.
  - rewrite Hacc. simpl. by rewrite accessed_snoc, app_nil_r.
  - rewrite Hwr. simpl. by rewrite written_snoc, app_nil_r.
Qed.

End PipelineRun.

Section PipelineProgress.
Variable env : Env.
Hypothesis Hreliable : reliable env.
Variable fuel : nat.
Variable options : ProcessOptions.

(** Once the chunker has returned, the run returns a report whenever the
    file system calls of the orchestrator succeed, whatever happens to the
    conversions. *)
Lemma processMapToKTX2_succeeds w m w1 :
  chunkImage env fuel (pipeline_chunker options) (po_input options) w
  = (Returned m, w1) →
  ∃ report w', processMapToKTX2 env fuel options w = (Returned report, w').
Proof.
  intros Hchunk. unfold processMapToKTX2.
  fold (pipeline_chunker options) (pipeline_forge options).
  rewrite (bind_run _ _ _ _ _ Hchunk).
  rewrite (bind_run _ _ _ _ _ (fs_mkdir_reliable env Hreliable _ w1)).
  destruct (compressLoop_all env options (chunks m)
              (log (EvMkdir (path_join (po_outputDir options) "chunks")) w1))
    as (st & w3 & Hloop & _).
  rewrite (bind_run _ _ _ _ _ Hloop).
  rewrite (bind_run _ _ _ _ _ (fs_rm_reliable env Hreliable _ w3)).
  rewrite (bind_run _ _ _ _ _ (fs_writeFile_reliable env Hreliable _ _ _)).
  eauto.
Qed.

End PipelineProgress.

(** An entry of the final manifest: the cell's record, renamed when its
    conversion succeeded. *)
Lemma final_entry env fuel options w m w1 rs i c :
  chunkImage env fuel (pipeline_chunker options) (po_input options) w = (Returned m, w1) →
  zip_with renamed (chunks m) rs !! i = Some c →
  ∃ c0 r,
    chunks m !! i = Some c0 ∧ rs !! i = Some r ∧
    id c = id c0 ∧ x c = x c0 ∧ y c = y c0 ∧
    filename c0 = id c0 +:+ ".png" ∧
    replace_first ".png" ".ktx2" (filename c0) = id c0 +:+ ".ktx2" ∧
    filename c = id c0 +:+ (if success r then ".ktx2" else ".png").
Proof.
  intros Hchunk Hc.
  apply lookup_zip_with_Some in Hc as (c0 & r & -> & Hc0 & Hr).
  exists c0, r. split; [done |]. split; [done |].
  apply chunkImage_returned in Hchunk as (W & H & _ & _ & _ & _ & ->).
  simpl in Hc0.
  apply grid_lookup_any in Hc0 as (cx & cy & col & row & _ & _ & _ & _ & _ & ->).
  assert (replace_first ".png" ".ktx2"
            (filename (chunk_of (pipeline_chunker options) W H col row))
          = (pretty col +:+ "_" +:+ pretty row) +:+ ".ktx2") as Hren.
  { apply replace_png_ext.
    apply (all_chars_weaken id_char); [| apply chunk_id_chars].
    by apply id_char_not. }
  unfold renamed. destruct (success r); simpl; by rewrite ?Hren.
Qed.

(** C3: a run returns a report whenever the chunker has returned and the
    orchestrator's own file system calls succeed.  In the report there is
    one outcome per manifest entry, in the order of the entries (the outcome
    at an index is that of the tile at that index, whose path it has as
    input when the output directory is normalised); the entry of a success
    is named [id.ktx2], the entry of a failure keeps [id.png]; the two
    totals are the sums of the original and of the compressed sizes over the
    successes, [totalSaved] is their difference and [compressionRatio] is
    [(1 - totalCompressed / totalOriginal) * 100]. *)
Theorem processMapToKTX2_compress env fuel options w :
  (reliable env →
   ∀ m w1,
     chunkImage env fuel (pipeline_chunker options) (po_input options) w
     = (Returned m, w1) →
     ∃ report w', processMapToKTX2 env fuel options w = (Returned report, w')) ∧
  ∀ report w',
    processMapToKTX2 env fuel options w = (Returned report, w') →
    length (pr_conversions report) = length (chunks (pr_metadata report)) ∧
    (∀ i c r,
       chunks (pr_metadata report) !! i = Some c →
       pr_conversions report !! i = Some r →
       (normalised (po_outputDir options) = true →
        inputFile r
        = path_join (path_join (po_outputDir options) "chunks_temp") (id c +:+ ".png")) ∧
       (success r = true → filename c = id c +:+ ".ktx2") ∧
       (success r = false → filename c = id c +:+ ".png")) ∧
    pr_totalOriginalSize report
    = sumZ originalSize (List.filter success (pr_conversions report)) ∧
    pr_totalCompressedSize report
    = sumZ compressedSize (List.filter success (pr_conversions report)) ∧
    pr_totalSaved report
    = sumZ originalSize (List.filter success (pr_conversions report))
      - sumZ compressedSize (List.filter success (pr_conversions report)) ∧
    pr_compressionRatio report
    = percent_saved
        (sumZ compressedSize (List.filter success (pr_conversions report)))
        (sumZ originalSize (List.filter success (pr_conversions report))).
Proof.
  split.
  - intros Hrel m w1. by apply processMapToKTX2_succeeds.
  - intros report w' Hrun.
    apply processMapToKTX2_returned in Hrun
      as (m & w1 & rs & w3 & Hchunk & _ & Hlen & Hio & -> & _).
    simpl. split; [| split; [| done]].
    + rewrite length_zip_with. lia.
    + intros i c r Hc Hr.
      destruct (final_entry _ _ _ _ _ _ _ _ _ Hchunk Hc)
        as (c0 & r' & Hc0 & Hr' & Hid & _ & _ & Hpng & _ & Hname).
      rewrite Hr in Hr'. injection Hr' as <-.
      pose proof (proj2 (proj1 (Forall2_same_length_lookup _ _ _) Hio) i c0 r Hc0 Hr)
        as [Hin _].
      rewrite Hin, Hpng, Hid, Hname.
      split; [done |]. by split; intros ->.
Qed.

(** A run with two tiles in which the second conversion fails: the first
    entry is renamed, the second is not, and the totals are those of the
    first tile. *)
Lemma processMapToKTX2_compress_witness :
  ∃ report w',
    processMapToKTX2 flaky_env 0 options2 empty_world = (Returned report, w') ∧
    success <$> pr_conversions report = [true; false] ∧
    filename <$> chunks (pr_metadata report) = ["0_0.ktx2"; "1_0.png"] ∧
    pr_totalOriginalSize report = 10 ∧ pr_totalCompressedSize report = 4 ∧
    pr_totalSaved report
    = sumZ originalSize (List.filter success (pr_conversions report))
      - sumZ compressedSize (List.filter success (pr_conversions report)) ∧
    (∀ c r, chunks (pr_metadata report) !! 1%nat = Some c →
            pr_conversions report !! 1%nat = Some r →
            inputFile r = path_join "out/chunks_temp" (id c +:+ ".png")).
Proof.
  pose proof (proj2 (processMapToKTX2_compress flaky_env 0 options2 empty_world))
    as Hcompress.
  destruct (processMapToKTX2 flaky_env 0 options2 empty_world)
    as [[report | e |] w'] eqn:Hrun; [| vm_compute in Hrun; discriminate..].
  destruct (Hcompress report w' eq_refl) as (_ & Hentry & _ & _ & Hsaved & _).
  exists report, w'. split; [reflexivity |].
  split; [| split; [| split; [| split; [| split; [exact Hsaved |]]]]];
    [vm_compute in Hrun; injection Hrun as <- _; reflexivity.. |].
  intros c r Hc Hr. exact (proj1 (Hentry 1%nat c r Hc Hr) eq_refl).
Defined.

(** ** Order *)

Lemma fmap_mjoin {A B} (f : A → B) (ls : list (list A)) :
  f <$> mjoin ls = mjoin (fmap f <$> ls).
Proof.
  induction ls as [| l ls IH]; csimpl; [done |]. by rewrite fmap_app, IH.
Qed.

(** The cells of the grid, read off its entries, are the row-major
    enumeration. *)
Lemma grid_row_major self W H (bx bY : jsint) :
  (λ c, (x c, y c)) <$> grid self W H bx bY
  = mjoin ((λ row, (λ col, (col, row)) <$> range bx) <$> range bY).
Proof.
  unfold grid. rewrite fmap_mjoin, <- list_fmap_compose. f_equal.
  apply list_fmap_ext. intros _ row _. simpl.
  by rewrite <- list_fmap_compose.
Qed.

(** Renaming entries keeps whatever does not look at the file name. *)
Lemma fmap_renamed {B} (g : ChunkMetadata → B) (cs : list ChunkMetadata)
    (rs : list ConversionResult) :
  length rs = length cs →
  (∀ c name, g (set_filename c name) = g c) →
  g <$> zip_with renamed cs rs = g <$> cs.
Proof.
  intros Hlen Hg. revert rs Hlen.
  induction cs as [| c cs IH]; intros [| r rs] Hlen; simplify_eq/=; [done |].
  f_equal; [| by apply IH].
  unfold renamed. by destruct (success r).
Qed.

(** C7: the chunker lists the cells in row-major order (row 0 from left to
    right, then row 1 ...); the final manifest lists them in the same order
    and the report has one outcome per entry; during a run the converter is
    called once per outcome, in the order of the report, on the input of
    the outcome; with a normalised output directory these inputs are the
    tiles of the entries in manifest order, so the outcome at an index of
    the report is that of the entry at the same index of the manifest: its
    input is the tile of the entry and its output the compressed tile. *)
Theorem processMapToKTX2_order env fuel options w :
  (∀ self inputPath m w1,
     chunkImage env fuel self inputPath w = (Returned m, w1) →
     (λ c, (x c, y c)) <$> chunks m
     = mjoin ((λ row, (λ col, (col, row)) <$> range (chunksX m)) <$> range (chunksY m))) ∧
  ∀ report w',
    processMapToKTX2 env fuel options w = (Returned report, w') →
    (λ c, (x c, y c)) <$> chunks (pr_metadata report)
    = mjoin ((λ row, (λ col, (col, row)) <$> range (chunksX (pr_metadata report)))
               <$> range (chunksY (pr_metadata report))) ∧
    length (pr_conversions report) = length (chunks (pr_metadata report)) ∧
    accessed (trace w') = accessed (trace w) ++ (inputFile <$> pr_conversions report) ∧
    (normalised (po_outputDir options) = true →
     accessed (trace w')
     = accessed (trace w)
       ++ ((λ c, path_join (path_join (po_outputDir options) "chunks_temp")
                   (id c +:+ ".png"))
             <$> chunks (pr_metadata report)) ∧
     Forall2 (λ c r,
                inputFile r
                = path_join (path_join (po_outputDir options) "chunks_temp")
                    (id c +:+ ".png") ∧
                outputFile r
                = path_join (path_join (po_outputDir options) "chunks")
                    (id c +:+ ".ktx2"))
       (chunks (pr_metadata report)) (pr_conversions report)).
Proof.
  split.
  - intros self inputPath m w1 Hchunk.
    apply chunkImage_returned in Hchunk as (W & H & _ & _ & _ & _ & ->).
    simpl. apply grid_row_major.
  - intros report w' Hrun.
    apply processMapToKTX2_returned in Hrun
      as (m & w1 & rs & w3 & Hchunk & _ & Hlen & Hio & -> & _ & Hacc & _ & _ & ->).
    simpl.
    split; [| split; [rewrite length_zip_with; lia |]; split; [| intros _; split]].
    + rewrite (fmap_renamed (λ c, (x c, y c))) by done.
      pose proof Hchunk as (W & H & _ & _ & _ & _ & ->)%chunkImage_returned.
      simpl. apply grid_row_major.
    + rewrite !accessed_snoc, !app_nil_r, Hacc.
      destruct (chunkImage_world _ _ _ _ _ _ _ Hchunk) as (-> & _).
      f_equal. clear -Hio.
      induction Hio as [| c r cs rs' [Hin _] _ IH]; [done |].
      rewrite !fmap_cons. by rewrite Hin, IH.
    + rewrite !accessed_snoc, !app_nil_r, Hacc.
      destruct (chunkImage_world _ _ _ _ _ _ _ Hchunk) as (-> & _).
      f_equal. rewrite (fmap_renamed (λ c, path_join _ (id c +:+ ".png"))) by done.
      apply list_fmap_ext. intros i c0 Hc0.
      destruct (lookup_lt_is_Some_2 rs i) as [r Hr];
        [rewrite Hlen; by eapply lookup_lt_Some |].
      destruct (final_entry _ _ _ _ _ _ rs i (renamed c0 r) Hchunk)
        as (c0' & _ & Hc0' & _ & _ & _ & _ & Hpng & _).
      { apply lookup_zip_with_Some. by exists c0, r. }
      rewrite Hc0 in Hc0'. injection Hc0' as <-. by rewrite Hpng.
    + apply Forall2_same_length_lookup. split; [rewrite length_zip_with; lia |].
      intros i c r Hc Hr.
      destruct (final_entry _ _ _ _ _ _ _ _ _ Hchunk Hc)
        as (c0 & r' & Hc0 & Hr' & Hid & _ & _ & Hpng & Hren & _).
      rewrite Hr in Hr'. injection Hr' as <-.
      pose proof (proj2 (proj1 (Forall2_same_length_lookup _ _ _) Hio) i c0 r Hc0 Hr)
        as [Hin Hout].
      by rewrite Hin, Hout, Hren, Hpng, Hid.
Qed.

(** The same run: the converter is called on the two tiles in manifest
    order. *)
Lemma processMapToKTX2_order_witness :
  ∃ report w',
    processMapToKTX2 flaky_env 0 options2 empty_world = (Returned report, w') ∧
    accessed (trace w') = ["out/chunks_temp/0_0.png"; "out/chunks_temp/1_0.png"] ∧
    inputFile <$> pr_conversions report
    = ["out/chunks_temp/0_0.png"; "out/chunks_temp/1_0.png"].
Proof.
  pose proof (proj2 (processMapToKTX2_order flaky_env 0 options2 empty_world))
    as Horder.
  destruct (processMapToKTX2 flaky_env 0 options2 empty_world)
    as [[report | e |] w'] eqn:Hrun; [| vm_compute in Hrun; discriminate..].
  destruct (Horder report w' eq_refl) as (_ & _ & _ & Hpaths).
  destruct (Hpaths eq_refl) as (Hacc & _).
  exists report, w'. split; [reflexivity |].
  split; [rewrite Hacc |]; vm_compute in Hrun; injection Hrun as <- _; reflexivity.
Defined.

(** ** Totals *)

Lemma filter_all_failed (rs : list ConversionResult) :
  (∀ r, r ∈ rs → success r = false) → List.filter success rs = [].
Proof.
  induction rs as [| r rs IH]; intros Hall; simpl; [done |].
  rewrite (Hall r) by apply list_elem_of_here.
  apply IH. intros r' Hr'. apply Hall. by apply list_elem_of_further.
Qed.

(** C9: the ratio of the report is always
    [(1 - totalCompressedSize / totalOriginalSize) * 100], whatever the
    total is; when every conversion failed both totals are 0 and the ratio
    is [(1 - 0 / 0) * 100], which is NaN. *)
Theorem all_failed_ratio_is_nan env fuel options w report w' :
  processMapToKTX2 env fuel options w = (Returned report, w') →
  pr_compressionRatio report
  = percent_saved (pr_totalCompressedSize report) (pr_totalOriginalSize report) ∧
  ((∀ r, r ∈ pr_conversions report → success r = false) →
   pr_totalOriginalSize report = 0 ∧
   pr_totalCompressedSize report = 0 ∧
   PrimFloat.is_nan (pr_compressionRatio report) = true).
Proof.
  intros Hrun.
  apply processMapToKTX2_returned in Hrun as (m & w1 & rs & w3 & _ & _ & _ & _ & -> & _).
  simpl. split; [done |].
  intros Hall. rewrite (filter_all_failed rs Hall). simpl.
  repeat split. 
Qed.

(** A run without an encoder: both conversions fail and the ratio of the
    report is NaN. *)
Lemma all_failed_ratio_is_nan_witness :
  ∃ report w',
    processMapToKTX2 no_encoder_env 0 options2 empty_world = (Returned report, w') ∧
    success <$> pr_conversions report = [false; false] ∧
    pr_totalOriginalSize report = 0 ∧
    pr_totalCompressedSize report = 0 ∧
    PrimFloat.is_nan (pr_compressionRatio report) = true.
Proof.
  pose proof (all_failed_ratio_is_nan no_encoder_env 0 options2 empty_world) as Hnan.
  destruct (processMapToKTX2 no_encoder_env 0 options2 empty_world)
    as [[report | e |] w'] eqn:Hrun; [| vm_compute in Hrun; discriminate..].
  destruct (Hnan report w' eq_refl) as [_ Hall].
  exists report, w'. split; [reflexivity |].
  assert (success <$> pr_conversions report = [false; false]) as Hfailed
    by (vm_compute in Hrun; injection Hrun as <- _; reflexivity).
  split; [exact Hfailed |]. apply Hall.
  intros r Hr. apply (list_elem_of_fmap_2 success) in Hr. rewrite Hfailed in Hr.
  rewrite !elem_of_cons, elem_of_nil in Hr. tauto.
Defined.

(** ** Manifests on disk *)

(** What [fs.rm] leaves of a file. *)
Lemma lookup_rm (dir p : string) (fs : gmap string string) :
  filter (λ kv : string * string, under dir kv.1 = false) fs !! p
  = if under dir p then None else fs !! p.
Proof.
  rewrite map_lookup_filter. destruct (fs !! p) as [content |]; simpl.
  - destruct (under dir p); [by rewrite option_guard_False | by rewrite option_guard_True].
  - by destruct (under dir p).
Qed.




(** ** Cleanup *)

Lemma bind_thrown {A B} (m : M A) (k : A → M B) w e w1 :
  m w = (Thrown e, w1) → bind m k w = (Thrown e, w1).
Proof. unfold bind. intros ->. reflexivity. Qed.

(** Counterexample to C8 as stated: every tile is extracted and compressed,
    then the removal of the temporary directory fails; the run ends with
    that exception and returns no report. *)
Lemma cleanup_failure_loses_report :
  ∃ w',
    processMapToKTX2 stuck_env 0 options2 empty_world
    = (Thrown (JsError "EPERM: operation not permitted, rm"), w') ∧
    files w' !! "out/chunks/0_0.ktx2" = Some "0123" ∧
    files w' !! "out/chunks/1_0.ktx2" = Some "0123" ∧
    files w' !! "out/chunks/metadata.json" = None.
Proof.
  destruct (processMapToKTX2 stuck_env 0 options2 empty_world) as [out w'] eqn:Hrun.
  exists w'. vm_compute in Hrun. injection Hrun as <- <-.
  repeat split; reflexivity.
Qed.

(** C8 as amended: when the removal of the temporary directory fails, the
    run ends with the exception of that failure: no report is returned, with
    or without a warning, and the final manifest is not written. *)
Theorem processMapToKTX2_cleanup_failure env fuel options w m w1 ex :
  chunkImage env fuel (pipeline_chunker options) (po_input options) w = (Returned m, w1) →
  fault env (EvMkdir (path_join (po_outputDir options) "chunks")) w1 = None →
  (∀ w0, fault env (EvRm (path_join (po_outputDir options) "chunks_temp")) w0 = Some ex) →
  ∃ w',
    processMapToKTX2 env fuel options w = (Thrown ex, w') ∧
    written (trace w') = written (trace w1).
Proof.
  intros Hchunk Hmk Hrm. unfold processMapToKTX2.
  fold (pipeline_chunker options) (pipeline_forge options).
  rewrite (bind_run _ _ _ _ _ Hchunk).
  assert (fs_mkdir env (path_join (po_outputDir options) "chunks") w1
          = (Returned tt, log (EvMkdir (path_join (po_outputDir options) "chunks")) w1))
    as Hmkdir by (unfold fs_mkdir, call; by rewrite Hmk).
  rewrite (bind_run _ _ _ _ _ Hmkdir).
  destruct (compressLoop_all env options (chunks m)
              (log (EvMkdir (path_join (po_outputDir options) "chunks")) w1))
    as (st & w3 & Hloop & _ & _ & _ & _ & _ & _ & Hwr & _).
  rewrite (bind_run _ _ _ _ _ Hloop).
  assert (fs_rm env (path_join (po_outputDir options) "chunks_temp") w3
          = (Thrown ex, log (EvRm (path_join (po_outputDir options) "chunks_temp")) w3))
    as Hfail.
  { unfold fs_rm. apply bind_thrown. unfold call. by rewrite Hrm. }
  rewrite (bind_thrown _ _ _ _ _ Hfail).
  eexists. split; [reflexivity |].
  simpl. rewrite written_snoc, app_nil_r, Hwr. simpl.
  by rewrite written_snoc, app_nil_r.
Qed.

(** The run in which the temporary directory cannot be removed. *)
Lemma processMapToKTX2_cleanup_failure_witness :
  ∃ w',
    processMapToKTX2 stuck_env 0 options2 empty_world
    = (Thrown (JsError "EPERM: operation not permitted, rm"), w').
Proof.
  destruct (chunkImage stuck_env 0 (pipeline_chunker options2) (po_input options2)
              empty_world) as [[m | e |] w1] eqn:Hchunk;
    [| vm_compute in Hchunk; discriminate..].
  destruct (processMapToKTX2_cleanup_failure stuck_env 0 options2 empty_world m w1
              (JsError "EPERM: operation not permitted, rm") Hchunk
              ltac:(reflexivity) ltac:(reflexivity)) as (w' & Hrun & _).
  by exists w'.
Defined.

(** ** Validation *)

(** A zero tile size and a positive height: the outer loop has an infinite
    bound, and the call never returns a manifest. *)
Lemma chunkImage_zero_tile_never_returns env fuel self inputPath w m w' :
  chunkSize self = 0 →
  chunkImage env fuel self inputPath w = (Returned m, w') →
  ¬ 0 < totalHeight m.
Proof.
  intros HS Hrun HH. unfold chunkImage in Hrun.
  apply bind_returned in Hrun as (_ & w1 & _ & Hrun).
  apply bind_returned in Hrun as ([[W |] [H |]] & w2 & _ & Hrun); try discriminate.
  destruct ((W =? 0) || (H =? 0)); [discriminate |].
  apply bind_returned in Hrun as (cs & w3 & Hloop & Hrun).
  apply bind_returned in Hrun as (_ & w4 & _ & Hrun).
  injection Hrun as <- _. simpl in HH.
  unfold Math_ceil_div in Hloop at 1. rewrite HS in Hloop. simpl in Hloop.
  destruct (Z.eqb_spec H 0); [lia |].
  destruct (Z.ltb_spec 0 H); [| lia].
  by eapply for_lt_PosInfinity_never_returns.
Qed.

Lemma grid_negative_tile self W H :
  chunkSize self < 0 → 0 < H →
  grid self W H (Math_ceil_div W (chunkSize self)) (Math_ceil_div H (chunkSize self)) = [].
Proof.
  intros HS HH. unfold grid, Math_ceil_div.
  destruct (Z.eqb_spec (chunkSize self) 0); [lia |]. simpl.
  rewrite (seqZ_nil 0 (- (- H / chunkSize self))); [done |].
  rewrite <- (Z.opp_involutive (chunkSize self)) at 1.
  rewrite Z.div_opp_opp by lia.
  pose proof (Z.div_pos H (- chunkSize self) ltac:(lia) ltac:(lia)). lia.
Qed.

(** Counterexample to C5 as stated: with the tile size -1 and a 3 x 2
    image the call succeeds, with an empty grid; and when the width read is
    0 the call fails only after it has created the directory and read the
    image. *)
Lemma negative_tile_size_is_accepted :
  (∃ m w',
     chunkImage quiet_env 0 chunker_neg "map.png" empty_world = (Returned m, w') ∧
     chunkWidth m = -1 ∧ totalWidth m = 3 ∧ totalHeight m = 2 ∧ chunks m = []) ∧
  (∃ w',
     chunkImage blank_env 0 chunker2 "map.png" empty_world
     = (Thrown (JsError "Failed to read image dimensions"), w') ∧
     trace w' = [EvMkdir "out/chunks_temp"; EvMetadata "map.png"]).
Proof.
  split.
  - destruct (chunkImage quiet_env 0 chunker_neg "map.png" empty_world)
      as [[m | e |] w'] eqn:Hrun; [| vm_compute in Hrun; discriminate..].
    exists m, w'. split; [reflexivity |].
    vm_compute in Hrun. injection Hrun as <- _. repeat split; reflexivity.
  - destruct (chunkImage blank_env 0 chunker2 "map.png" empty_world)
      as [out w'] eqn:Hrun.
    exists w'. vm_compute in Hrun. injection Hrun as <- <-. split; reflexivity.
Qed.

(** C5 as amended: [chunkImage] checks the two dimensions only, and only
    after it has created the output directory and read the image: when the
    width or the height is missing or 0 it throws
    [Error('Failed to read image dimensions')].  The tile size is not
    checked: with a negative tile size and positive dimensions a call that
    returns yields an empty grid.  With non-zero dimensions and a non-zero
    tile size, so for all positive inputs, the call returns whenever the
    calls to its collaborators succeed. *)
Theorem chunkImage_validation env fuel self inputPath w :
  (∀ W H,
     fault env (EvMkdir (outputDir self)) w = None →
     fault env (EvMetadata inputPath) (log (EvMkdir (outputDir self)) w) = None →
     image_size env inputPath (log (EvMkdir (outputDir self)) w) = (W, H) →
     W = None ∨ W = Some 0 ∨ H = None ∨ H = Some 0 →
     chunkImage env fuel self inputPath w
     = (Thrown (JsError "Failed to read image dimensions"),
        log (EvMetadata inputPath) (log (EvMkdir (outputDir self)) w))) ∧
  (∀ m w',
     chunkImage env fuel self inputPath w = (Returned m, w') →
     chunkSize self < 0 → 0 < totalWidth m → 0 < totalHeight m →
     chunks m = []) ∧
  (∀ W H,
     reliable env →
     (∀ w0, image_size env inputPath w0 = (Some W, Some H)) →
     W ≠ 0 → H ≠ 0 → chunkSize self ≠ 0 →
     ∃ m w', chunkImage env fuel self inputPath w = (Returned m, w')).
Proof.
  split; [| split].
  - intros W H Hmk Hmeta Hsize Hbad. unfold chunkImage.
    assert (fs_mkdir env (outputDir self) w
            = (Returned tt, log (EvMkdir (outputDir self)) w)) as Hmkdir
      by (unfold fs_mkdir, call; by rewrite Hmk).
    rewrite (bind_run _ _ _ _ _ Hmkdir).
    unfold bind, sharp_metadata. rewrite Hmeta, Hsize.
    destruct Hbad as [-> | [-> | [-> | ->]]].
    + reflexivity.
    + destruct H as [H |]; reflexivity.
    + destruct W as [W |]; reflexivity.
    + destruct W as [W |]; [| reflexivity]. simpl. by rewrite orb_true_r.
  - intros m w' Hrun HS HW HH.
    apply chunkImage_returned in Hrun as (W & H & _ & _ & _ & _ & ->). simpl in *.
    by apply grid_negative_tile.
  - intros W H Hrel Hsize HW HH HS. by apply (chunkImage_succeeds env Hrel _ _ _ _ W H).
Qed.

(** A width of 0 is rejected after the two calls; a 3 x 2 image with the
    tile size 2 is accepted. *)
Lemma chunkImage_validation_witness :
  chunkImage blank_env 0 chunker2 "map.png" empty_world
  = (Thrown (JsError "Failed to read image dimensions"),
     log (EvMetadata "map.png") (log (EvMkdir "out/chunks_temp") empty_world)) ∧
  ∃ m w', chunkImage quiet_env 0 chunker2 "map.png" empty_world = (Returned m, w').
Proof.
  split.
  - exact (proj1 (chunkImage_validation blank_env 0 chunker2 "map.png" empty_world)
             (Some 0) (Some 2) eq_refl eq_refl eq_refl (or_intror (or_introl eq_refl))).
  - apply (proj2 (proj2 (chunkImage_validation quiet_env 0 chunker2 "map.png" empty_world))
             3 2); [by intros e w0 _ | done | lia | lia | simpl; lia].
Defined.

(** * Further properties *)

(** ** The encoder command *)

Lemma buildToktxCommand_args (self : TextureForge) (inputPath outputPath : string) :
  buildToktxCommand self inputPath outputPath
  = toktxPath self +:+ " "
    +:+ join_space (toktx_flags self ++ ["--t2"; "--threads"; "0"; outputPath; inputPath]).
Proof.
  unfold buildToktxCommand, toktx_flags.
  destruct (tf_mode self), (mipmaps self), (normalMap self); reflexivity.
Qed.

Lemma join_space_cons (a : string) (rest : list string) :
  rest ≠ [] → join_space (a :: rest) = a +:+ " " +:+ join_space rest.
Proof. by destruct rest. Qed.

(** An argument with a space in it reads as two arguments. *)
Lemma join_space_split (l : list string) (a b : string) (tail : list string) :
  join_space (l ++ (a +:+ " " +:+ b) :: tail) = join_space (l ++ a :: b :: tail).
Proof.
  induction l as [| x l IH]; simpl app.
  - destruct tail as [| t tail].
    + reflexivity.
    + rewrite !join_space_cons by done. by rewrite string_app_assoc.
  - rewrite !join_space_cons by (by destruct l). by rewrite IH.
Qed.

(** A printed integer is none of the flags. *)
Lemma pretty_not_flag (z : Z) (flag : string) :
  all_chars number_char flag = false → pretty z ≠ flag.
Proof. intros Hflag Heq. by rewrite <- Heq, pretty_Z_chars in Hflag. Qed.

(** X1: the command is the encoder path, the flags, [--t2 --threads 0], the
    output path and then the input path, joined by single spaces.  The
    flags of the two modes exclude each other: an ETC1S command has
    [--bcmp], [--clevel] and [--qlevel] and none of the UASTC flags, a UASTC
    command has [--uastc] and none of the ETC1S flags; [--genmipmap] and
    [--normal_map] are present exactly when the option is set. *)
Theorem buildToktxCommand_shape (self : TextureForge) (inputPath outputPath : string) :
  buildToktxCommand self inputPath outputPath
  = toktxPath self +:+ " "
    +:+ join_space (toktx_flags self ++ ["--t2"; "--threads"; "0"; outputPath; inputPath]) ∧
  (tf_mode self = etc1s →
     "--bcmp" ∈ toktx_flags self ∧ "--clevel" ∈ toktx_flags self ∧
     "--qlevel" ∈ toktx_flags self ∧
     ("--uastc" ∉ toktx_flags self) ∧ ("--uastc_quality" ∉ toktx_flags self) ∧
     ("--zcmp" ∉ toktx_flags self)) ∧
  (tf_mode self = uastc →
     "--uastc" ∈ toktx_flags self ∧
     ("--bcmp" ∉ toktx_flags self) ∧ ("--clevel" ∉ toktx_flags self) ∧
     ("--qlevel" ∉ toktx_flags self) ∧ ("--max_endpoints" ∉ toktx_flags self) ∧
     ("--max_selectors" ∉ toktx_flags self)) ∧
  ("--genmipmap" ∈ toktx_flags self ↔ mipmaps self = true) ∧
  ("--normal_map" ∈ toktx_flags self ↔ normalMap self = true).
Proof.
  split; [apply buildToktxCommand_args |].
  pose proof (pretty_not_flag (compressionLevel self)) as Hcl.
  pose proof (pretty_not_flag (quality self)) as Hq.
  unfold toktx_flags.
  destruct (tf_mode self), (mipmaps self), (normalMap self);
    repeat split; try discriminate; intros;
    rewrite ?elem_of_app, ?elem_of_cons, ?elem_of_nil in *;
    try (intuition (try discriminate; try done);
         match goal with
         | H : ?flag = pretty _ |- _ =>
             symmetry in H; (apply Hcl in H || apply Hq in H); [done | reflexivity]
         end).
Qed.

(** X2: the paths are put into the command as they are, without quotes: the
    command built for a path with a space in it is the one an argument list
    with the two halves of the path as separate arguments gives. *)
Theorem buildToktxCommand_unquoted (self : TextureForge) (a b other : string) :
  buildToktxCommand self (a +:+ " " +:+ b) other
  = toktxPath self +:+ " "
    +:+ join_space (toktx_flags self ++ ["--t2"; "--threads"; "0"; other; a; b]) ∧
  buildToktxCommand self other (a +:+ " " +:+ b)
  = toktxPath self +:+ " "
    +:+ join_space (toktx_flags self ++ ["--t2"; "--threads"; "0"; a; b; other]).
Proof.
  rewrite !buildToktxCommand_args. split; do 2 f_equal.
  - rewrite (app_assoc _ ["--t2"; "--threads"; "0"; other] [a +:+ " " +:+ b]).
    rewrite join_space_split. by rewrite <- app_assoc.
  - rewrite (app_assoc _ ["--t2"; "--threads"; "0"] [a +:+ " " +:+ b; other]).
    rewrite join_space_split. by rewrite <- app_assoc.
Qed.

(** ** One conversion, in detail *)

Lemma executed_snoc t e :
  executed (t ++ [e]) = executed t ++ match e with EvExec c => [c] | _ => [] end.
Proof. unfold executed. rewrite omap_app. by destruct e. Qed.

(** The encoder is run at most once; a success has run it, and its two
    sizes are those of the input file before and of the output file after
    the run. *)
Lemma convertFile_detail env self inputPath outputPath w :
  ∃ r w',
    convertFile env self inputPath outputPath w = (Returned r, w') ∧
    (executed (trace w') = executed (trace w) ∨
     executed (trace w')
     = executed (trace w)
       ++ [buildToktxCommand self inputPath
             (nullish outputPath (replace_image_ext inputPath))]) ∧
    (success r = true →
     ∃ input output,
       files w !! inputPath = Some input ∧
       files w' !! nullish outputPath (replace_image_ext inputPath) = Some output ∧
       originalSize r = Z.of_nat (String.length input) ∧
       compressedSize r = Z.of_nat (String.length output) ∧
       compressionRatio r = percent_saved (compressedSize r) (originalSize r) ∧
       error r = None ∧
       executed (trace w')
       = executed (trace w)
         ++ [buildToktxCommand self inputPath
               (nullish outputPath (replace_image_ext inputPath))]).
Proof.
  rewrite convertFile_run.
  unfold convertFile_try, fs_access, fs_stat_size, execAsync, Date_now.
  unfold call, ret, bind.
  destruct (fault env (EvAccess inputPath) _); simpl.
  { eexists _, _. split; [reflexivity |]. simpl.
    rewrite !executed_snoc, !app_nil_r. split; [by left | done]. }
  destruct (files w !! inputPath) as [content |] eqn:Hin.
  2:{ eexists _, _. split; [reflexivity |]. simpl.
      rewrite !executed_snoc, !app_nil_r. split; [by left | done]. }
  destruct (fault env (EvStat inputPath) _); simpl.
  { eexists _, _. split; [reflexivity |]. simpl.
    rewrite !executed_snoc, !app_nil_r. split; [by left | done]. }
  rewrite Hin.
  destruct (fault env (EvExec _) _); simpl.
  { eexists _, _. split; [reflexivity |]. simpl.
    rewrite !executed_snoc, !app_nil_r. split; [by right | done]. }
  destruct (fault env (EvStat _) _); simpl.
  { eexists _, _. split; [reflexivity |]. simpl.
    rewrite !executed_snoc, !app_nil_r. split; [by right | done]. }
  destruct (_ !! nullish outputPath (replace_image_ext inputPath)) as [out |] eqn:Hout.
  - eexists _, _. split; [reflexivity |]. simpl.
    rewrite !executed_snoc, !app_nil_r. split; [by right |].
    intros _. exists content, out. by rewrite Hout.
  - eexists _, _. split; [reflexivity |]. simpl.
    rewrite !executed_snoc, !app_nil_r. split; [by right | done].
Qed.

(** X3: a successful conversion has run the encoder once, and reports what
    is on disk: the original size is the size of the input file before the
    run, the compressed size is the size of the output file after it, and
    the ratio is [(1 - compressed / original) * 100] of these two. *)
Theorem convertFile_success_sizes env self inputPath outputPath w r w' :
  convertFile env self inputPath outputPath w = (Returned r, w') →
  success r = true →
  ∃ input output,
    files w !! inputPath = Some input ∧
    files w' !! nullish outputPath (replace_image_ext inputPath) = Some output ∧
    originalSize r = Z.of_nat (String.length input) ∧
    compressedSize r = Z.of_nat (String.length output) ∧
    compressionRatio r = percent_saved (compressedSize r) (originalSize r) ∧
    error r = None ∧
    executed (trace w')
    = executed (trace w)
      ++ [buildToktxCommand self inputPath
            (nullish outputPath (replace_image_ext inputPath))].
Proof.
  intros Hrun Hok.
  destruct (convertFile_detail env self inputPath outputPath w)
    as (r0 & w0 & Hrun0 & _ & Hsucc).
  rewrite Hrun in Hrun0. injection Hrun0 as <- <-. by apply Hsucc.
Qed.

(** The tile of 10 bytes is compressed to 4 bytes. *)
Lemma convertFile_success_sizes_witness :
  ∃ r w',
    convertFile quiet_env (pipeline_forge options2) "tile.png" None tile_world
    = (Returned r, w') ∧
    originalSize r = 10 ∧ compressedSize r = 4 ∧
    files w' !! "tile.ktx2" = Some "0123".
Proof.
  pose proof (convertFile_success_sizes quiet_env (pipeline_forge options2)
                "tile.png" None tile_world) as Hsizes.
  destruct (convertFile quiet_env (pipeline_forge options2) "tile.png" None tile_world)
    as [[r | e |] w'] eqn:Hrun; [| vm_compute in Hrun; discriminate..].
  destruct (Hsizes r w' eq_refl) as (input & output & Hin & Hout & HO & HC & _).
  { vm_compute in Hrun. by injection Hrun as <- _. }
  exists r, w'. split; [reflexivity |].
  assert (input = "0123456789") as -> by (vm_compute in Hin; congruence).
  assert (replace_image_ext "tile.png" = "tile.ktx2") as Hext by reflexivity.
  simpl in Hout. rewrite Hext in Hout.
  assert (output = "0123") as ->.
  { vm_compute in Hrun. injection Hrun as _ <-. vm_compute in Hout. congruence. }
  repeat split; done.
Defined.

(** ** The default output path *)

Lemma string_length_app (a b : string) :
  String.length (a +:+ b) = (String.length a + String.length b)%nat.
Proof.
  induction a as [| c a IH]; [done |].
  change (String c a +:+ b) with (String c (a +:+ b)). simpl. by rewrite IH.
Qed.

Lemma substring_app_r (a b : string) :
  String.substring (String.length a) (String.length b) (a +:+ b) = b.
Proof.
  induction a as [| c a IH].
  - change ("" +:+ b) with b. simpl. induction b as [| c b IHb]; [done |].
    simpl. by rewrite IHb.
  - change (String c a +:+ b) with (String c (a +:+ b)). simpl. exact IH.
Qed.

Lemma substring_app_l (a b : string) :
  String.substring 0 (String.length a) (a +:+ b) = a.
Proof.
  induction a as [| c a IH].
  - change ("" +:+ b) with b. simpl. by destruct b.
  - change (String c a +:+ b) with (String c (a +:+ b)). simpl. by rewrite IH.
Qed.

Lemma lower_length (s : string) : String.length (lower s) = String.length s.
Proof. induction s as [| c s IH]; simpl; [done | by rewrite IH]. Qed.

(** A string ends with a suffix of the length of its tail exactly when its
    tail is the suffix, letter case apart. *)
Lemma ends_with_ci_app (suffix stem ext : string) :
  String.length ext = String.length suffix →
  ends_with_ci suffix (stem +:+ ext) = String.eqb (lower ext) suffix.
Proof.
  intros Hlen. unfold ends_with_ci. rewrite string_length_app, <- Hlen.
  replace (String.length stem + String.length ext - String.length ext)%nat
    with (String.length stem) by lia.
  rewrite substring_app_r.
  destruct (Nat.leb_spec (String.length ext) (String.length stem + String.length ext));
    [done | lia].
Qed.

Lemma drop_end_app (stem ext : string) :
  drop_end (String.length ext) (stem +:+ ext) = stem.
Proof.
  unfold drop_end. rewrite string_length_app.
  replace (String.length stem + String.length ext - String.length ext)%nat
    with (String.length stem) by lia.
  apply substring_app_l.
Qed.

Lemma replace_image_ext_short (stem ext suffix : string) :
  suffix = ".png" ∨ suffix = ".jpg" →
  lower ext = suffix →
  is_image_name (stem +:+ ext) = true ∧
  replace_image_ext (stem +:+ ext) = stem +:+ ".ktx2".
Proof.
  intros Hsuffix Hext.
  assert (String.length ext = 4%nat) as Hlen
    by (rewrite <- lower_length, Hext; by destruct Hsuffix as [-> | ->]).
  unfold is_image_name, replace_image_ext.
  rewrite (ends_with_ci_app ".png"), (ends_with_ci_app ".jpg"), Hext by done.
  assert ((suffix =? ".png")%string || (suffix =? ".jpg")%string = true) as ->
    by (by destruct Hsuffix as [-> | ->]).
  split; [done |].
  by rewrite <- Hlen, drop_end_app.
Qed.

Lemma replace_image_ext_jpeg (stem ext : string) :
  lower ext = ".jpeg" →
  is_image_name (stem +:+ ext) = true ∧
  replace_image_ext (stem +:+ ext) = stem +:+ ".ktx2".
Proof.
  intros Hext.
  assert (String.length ext = 5%nat) as Hlen by (by rewrite <- lower_length, Hext).
  destruct ext as [| c ext']; [done |].
  injection Hext as Hc Hext'.
  assert (String.length ext' = 4%nat) as Hlen' by (simpl in Hlen; lia).
  assert (stem +:+ String c ext' = (stem +:+ String c "") +:+ ext') as Hsplit
    by (by rewrite string_app_assoc).
  unfold is_image_name, replace_image_ext.
  rewrite Hsplit, (ends_with_ci_app ".png"), (ends_with_ci_app ".jpg"), Hext' by done.
  rewrite <- Hsplit.
  rewrite (ends_with_ci_app ".jpeg") by done. simpl lower. rewrite Hc, Hext'.
  split; [done |]. simpl.
  by rewrite <- Hlen, drop_end_app.
Qed.

(** X4: the default output path.  A name that ends in [.png], [.jpg] or
    [.jpeg], in any letter case, is selected by the default file pattern and
    gets its extension replaced by [.ktx2], the rest of the name kept.  Any
    other name is left as it is, so a conversion of such a file without an
    explicit output path names its input as its output. *)
Theorem replace_image_ext_spec :
  (∀ stem ext,
     lower ext = ".png" ∨ lower ext = ".jpg" ∨ lower ext = ".jpeg" →
     is_image_name (stem +:+ ext) = true ∧
     replace_image_ext (stem +:+ ext) = stem +:+ ".ktx2") ∧
  (∀ s, is_image_name s = false → replace_image_ext s = s) ∧
  (∀ env self inputPath w r w',
     is_image_name inputPath = false →
     convertFile env self inputPath None w = (Returned r, w') →
     inputFile r = inputPath ∧ outputFile r = inputPath).
Proof.
  split; [| split].
  - intros stem ext [Hext | [Hext | Hext]].
    + by apply (replace_image_ext_short stem ext ".png"); [left |].
    + by apply (replace_image_ext_short stem ext ".jpg"); [right |].
    + by apply replace_image_ext_jpeg.
  - intros s Hs. unfold is_image_name in Hs. unfold replace_image_ext.
    apply orb_false_elim in Hs as [Hs ->]. by rewrite Hs.
  - intros env self inputPath w r w' Hname Hrun.
    destruct (convertFile_world env self inputPath None w)
      as (r0 & w0 & Hrun0 & Hin & Hout & _).
    rewrite Hrun in Hrun0. injection Hrun0 as <- <-.
    split; [done |]. rewrite Hout. simpl.
    unfold is_image_name in Hname. unfold replace_image_ext.
    apply orb_false_elim in Hname as [Hname ->]. by rewrite Hname.
Qed.

(** [Map.PNG] becomes [Map.ktx2]; [notes.txt] stays [notes.txt]. *)
Lemma replace_image_ext_spec_witness :
  replace_image_ext ("Map" +:+ ".PNG") = "Map" +:+ ".ktx2" ∧
  replace_image_ext "notes.txt" = "notes.txt".
Proof.
  split.
  - exact (proj2 (proj1 replace_image_ext_spec "Map" ".PNG" (or_introl eq_refl))).
  - exact (proj1 (proj2 replace_image_ext_spec) "notes.txt" eq_refl).
Defined.

(** ** The partition, further *)

Lemma clipped_size (S L n k : Z) :
  0 < S → (n - 1) * S < L ≤ n * S → 0 ≤ k < n →
  (k < n - 1 → Z.min S (L - k * S) = S) ∧
  (k = n - 1 → Z.min S (L - k * S) = L - (n - 1) * S) ∧
  0 < Z.min S (L - k * S) ≤ S.
Proof.
  intros HS HL Hk.
  assert (k * S ≤ (n - 1) * S) as H1 by nia.
  assert (k < n - 1 → k * S + S ≤ (n - 1) * S) as H2 by (intros; nia).
  split; [| split].
  - intros Hlt. specialize (H2 Hlt). lia.
  - intros ->. lia.
  - destruct (Z.eq_dec k (n - 1)) as [-> | Hne]; [lia |].
    specialize (H2 ltac:(lia)). lia.
Qed.

(** X5: only the last column and the last row are clipped.  For positive
    dimensions and tile size, a region left of the last column is exactly
    one tile wide and a region of the last column has the rest of the width,
    between 1 and the tile size; the same holds for rows and heights; and
    when the tile size divides a dimension no region is clipped along it. *)
Theorem chunkImage_edge_regions env fuel self inputPath w W H m w' :
  0 < W → 0 < H → 0 < chunkSize self →
  (∀ w0, image_size env inputPath w0 = (Some W, Some H)) →
  chunkImage env fuel self inputPath w = (Returned m, w') →
  ∃ cx cy,
    chunksX m = Int cx ∧ chunksY m = Int cy ∧
    (∀ c, c ∈ chunks m →
       (x c < cx - 1 → width c = chunkSize self) ∧
       (x c = cx - 1 → width c = W - (cx - 1) * chunkSize self) ∧
       0 < width c ≤ chunkSize self ∧
       (y c < cy - 1 → height c = chunkSize self) ∧
       (y c = cy - 1 → height c = H - (cy - 1) * chunkSize self) ∧
       0 < height c ≤ chunkSize self) ∧
    ((chunkSize self | W) → ∀ c, c ∈ chunks m → width c = chunkSize self) ∧
    ((chunkSize self | H) → ∀ c, c ∈ chunks m → height c = chunkSize self).
Proof.
  intros HW HH HS Hsize Hrun.
  destruct (chunkImage_returned_pos _ _ _ _ _ _ _ _ _ HW HH HS Hsize Hrun)
    as (cx & cy & Hcx & Hcy & _ & _ & _ & _ & _ & _ & HX & HY & _ & ->).
  exists cx, cy. split; [done |]. split; [done |]. split; [| split].
  - intros c (col & row & Hcol & Hrow & ->)%grid_elem. simpl.
    destruct (clipped_size (chunkSize self) W cx col HS Hcx Hcol) as (? & ? & ?).
    destruct (clipped_size (chunkSize self) H cy row HS Hcy Hrow) as (? & ? & ?).
    repeat split; auto; lia.
  - intros [k ->] c (col & row & Hcol & Hrow & ->)%grid_elem. simpl.
    assert (cx = k) as -> by nia.
    assert (col * chunkSize self + chunkSize self ≤ k * chunkSize self) by nia. lia.
  - intros [k ->] c (col & row & Hcol & Hrow & ->)%grid_elem. simpl.
    assert (cy = k) as -> by nia.
    assert (row * chunkSize self + chunkSize self ≤ k * chunkSize self) by nia. lia.
Qed.

(** The 3 x 2 image with the tile size 2: the second column is 1 wide. *)
Lemma chunkImage_edge_regions_witness :
  ∃ m w',
    chunkImage quiet_env 0 chunker2 "map.png" empty_world = (Returned m, w') ∧
    ∀ c, c ∈ chunks m → x c = 1 → width c = 1.
Proof.
  pose proof (chunkImage_edge_regions quiet_env 0 chunker2 "map.png" empty_world 3 2)
    as Hedge.
  destruct (chunkImage quiet_env 0 chunker2 "map.png" empty_world)
    as [[m | e |] w'] eqn:Hrun; [| vm_compute in Hrun; discriminate..].
  destruct (Hedge m w' ltac:(lia) ltac:(lia) ltac:(simpl; lia) ltac:(reflexivity) eq_refl)
    as (cx & cy & HX & _ & Hregions & _).
  assert (cx = 2) as -> by (vm_compute in Hrun; injection Hrun as <- _; by injection HX).
  exists m, w'. split; [reflexivity |].
  intros c Hc Hx. destruct (Hregions c Hc) as (_ & Hlast & _).
  rewrite Hlast by lia. reflexivity.
Defined.

Lemma for_lt_inv_acc {A} (I : A → World → Prop) fuel bound (body : Z → A → M A)
    acc w r w' :
  I acc w →
  (∀ j a w1 a' w2, I a w1 → body j a w1 = (Returned a', w2) → I a' w2) →
  for_lt fuel bound body acc w = (Returned r, w') →
  I r w'.
Proof.
  intros Hw Hbody Hrun. destruct bound as [b | | |].
  - unfold for_lt in Hrun.
    apply (for_range_inv (λ _ a w1, I a w1) body _ 0 acc w r w') in Hrun; [done.. |].
    intros j a w1 a' w2 _. apply Hbody.
  - exfalso. by eapply for_lt_PosInfinity_never_returns.
  - simpl in Hrun. by injection Hrun as <- <-.
  - simpl in Hrun. by injection Hrun as <- <-.
Qed.

Lemma extracted_snoc t e :
  extracted (t ++ [e])
  = extracted t ++ match e with
                   | EvExtract _ l t w h file => [(l, t, w, h, file)]
                   | _ => []
                   end.
Proof. unfold extracted. rewrite omap_app. by destruct e. Qed.

(** A partition that returns has asked for one extraction per region, in
    the order of the manifest. *)
Lemma chunkImage_extracted env fuel self inputPath w m w' :
  chunkImage env fuel self inputPath w = (Returned m, w') →
  extracted (trace w') = extracted (trace w) ++ (region_request self <$> chunks m).
Proof.
  intros Hrun. unfold chunkImage in Hrun.
  apply bind_returned in Hrun as (_ & w1 & [_ ->]%call_returned & Hrun).
  apply bind_returned in Hrun as ([[W |] [H |]] & w2 & Hmeta & Hrun);
    try discriminate.
  unfold sharp_metadata in Hmeta.
  destruct (fault env _ _); [discriminate |]. injection Hmeta as _ <-.
  destruct ((W =? 0) || (H =? 0)); [discriminate |].
  apply bind_returned in Hrun as (cs & w3 & Hloop & Hrun).
  apply bind_returned in Hrun as (_ & w4 & [_ ->]%fs_writeFile_returned & Hrun).
  injection Hrun as <- <-. simpl.
  rewrite extracted_snoc, app_nil_r.
  eapply (for_lt_inv_acc
            (λ acc w1, extracted (trace w1)
                       = extracted (trace w) ++ (region_request self <$> acc)));
    [| | exact Hloop].
  - simpl. by rewrite !extracted_snoc, !app_nil_r.
  - intros row a w5 a' w6 Ha Hin.
    eapply (for_lt_inv_acc
              (λ acc w1, extracted (trace w1)
                         = extracted (trace w) ++ (region_request self <$> acc)));
      [exact Ha | | exact Hin].
    intros col b w7 b' w8 Hb Hstep.
    apply bind_returned in Hstep as (c & w9 & Hc & Hstep). injection Hstep as <- <-.
    rewrite createChunk_run in Hc. simpl in Hc.
    destruct (fault env _ w7); [discriminate |]. injection Hc as <- <-. simpl.
    rewrite extracted_snoc, Hb, fmap_app, app_assoc. done.
Qed.

(** X6: a partition that returns, into a normalised output directory, has
    asked the image library for one extraction per region, in the order of
    the manifest, each of the region's rectangle into the region's file; for
    positive dimensions and tile size every such rectangle is non-empty and
    lies inside the image. *)
Theorem chunkImage_extracts env fuel self inputPath w m w' :
  chunkImage env fuel self inputPath w = (Returned m, w') →
  (normalised (outputDir self) = true →
   extracted (trace w') = extracted (trace w) ++ (region_request self <$> chunks m)) ∧
  (0 < totalWidth m → 0 < totalHeight m → 0 < chunkWidth m →
   ∀ c, c ∈ chunks m →
     0 ≤ pixelX c ∧ 0 ≤ pixelY c ∧ 0 < width c ∧ 0 < height c ∧
     pixelX c + width c ≤ totalWidth m ∧ pixelY c + height c ≤ totalHeight m).
Proof.
  intros Hrun. split.
  - intros _. by eapply chunkImage_extracted.
  - intros HW HH HS c Hc.
    apply chunkImage_returned in Hrun as (W & H & _ & _ & _ & _ & ->). simpl in *.
    rewrite !Math_ceil_div_pos in Hc by done.
    apply grid_elem in Hc as (col & row & Hcol & Hrow & ->). simpl.
    pose proof (ceil_bounds W _ HS) as Hcx. pose proof (ceil_bounds H _ HS) as Hcy.
    destruct (clipped_size (chunkSize self) W _ col HS Hcx Hcol) as (_ & _ & ?).
    destruct (clipped_size (chunkSize self) H _ row HS Hcy Hrow) as (_ & _ & ?).
    repeat split; try lia; nia.
Qed.

(** The two extractions of the 3 x 2 image. *)
Lemma chunkImage_extracts_witness :
  ∃ m w',
    chunkImage quiet_env 0 chunker2 "map.png" empty_world = (Returned m, w') ∧
    extracted (trace w')
    = [(0, 0, 2, 2, "out/chunks_temp/0_0.png"); (2, 0, 1, 2, "out/chunks_temp/1_0.png")].
Proof.
  pose proof (chunkImage_extracts quiet_env 0 chunker2 "map.png" empty_world) as Hext.
  destruct (chunkImage quiet_env 0 chunker2 "map.png" empty_world)
    as [[m | e |] w'] eqn:Hrun; [| vm_compute in Hrun; discriminate..].
  destruct (Hext m w' eq_refl) as [Hreq _].
  exists m, w'. split; [reflexivity |]. rewrite (Hreq eq_refl).
  vm_compute in Hrun. injection Hrun as <- _. reflexivity.
Defined.

(** C10: in a manifest returned by [chunkImage], the identifier of a region
    is [col_row], its file name is [col_row.format], and two distinct
    regions have distinct identifiers, distinct file names and distinct
    tile files.  The call has written its tiles to these files, one
    extraction per region: the files the extractions of the call went to
    are, in order, the tile files of the regions, and no file occurs twice
    among them. *)
Theorem chunkImage_distinct_names env fuel self inputPath w m w' :
  chunkImage env fuel self inputPath w = (Returned m, w') →
  (∀ c, c ∈ chunks m →
     id c = pretty (x c) +:+ "_" +:+ pretty (y c) ∧
     filename c = id c +:+ "." +:+ Format_str (format m)) ∧
  (∀ i j c1 c2,
     i ≠ j → chunks m !! i = Some c1 → chunks m !! j = Some c2 →
     id c1 ≠ id c2 ∧ filename c1 ≠ filename c2 ∧
     path_join (outputDir self) (filename c1) ≠ path_join (outputDir self) (filename c2)) ∧
  (normalised (outputDir self) = true →
   ∃ targets,
     (extracted (trace w')).*2 = (extracted (trace w)).*2 ++ targets ∧
     targets = (λ c, path_join (outputDir self) (filename c)) <$> chunks m ∧
     NoDup targets).
Proof.
  intros Hrun.
  pose proof (chunkImage_extracted _ _ _ _ _ _ _ Hrun) as Hext.
  apply chunkImage_returned in Hrun as (W & H & _ & _ & _ & _ & ->). simpl in *.
  assert (∀ i j c1 c2,
            i ≠ j →
            grid self W H (Math_ceil_div W (chunkSize self))
              (Math_ceil_div H (chunkSize self)) !! i = Some c1 →
            grid self W H (Math_ceil_div W (chunkSize self))
              (Math_ceil_div H (chunkSize self)) !! j = Some c2 →
            id c1 ≠ id c2 ∧ filename c1 ≠ filename c2 ∧
            path_join (outputDir self) (filename c1)
            ≠ path_join (outputDir self) (filename c2)) as Hdistinct.
  { intros i j c1 c2 Hij H1 H2.
    apply grid_lookup_any in H1 as (cx & cy & col1 & row1 & HX & HY & ? & ? & Hi & ->).
    apply grid_lookup_any in H2 as (cx' & cy' & col2 & row2 & HX' & HY' & ? & ? & Hj & ->).
    rewrite HX in HX'. injection HX' as <-.
    assert (¬ (col1 = col2 ∧ row1 = row2)) as Hcell
      by (intros [-> ->]; apply Hij; lia).
    simpl. split; [| split].
    - intros Heq. by apply Hcell, chunk_id_inj.
    - intros Heq. by apply Hcell, (chunk_filename_inj (Format_str (ic_format self))).
    - intros Heq. unfold path_join in Heq. apply (inj _) in Heq.
      injection Heq as Heq.
      by apply Hcell, (chunk_filename_inj (Format_str (ic_format self))). }
  split; [| split; [exact Hdistinct |]].
  - intros c (i & Hi)%list_elem_of_lookup.
    apply grid_lookup_any in Hi as (cx & cy & col & row & _ & _ & _ & _ & _ & ->).
    done.
  - intros _. eexists. split; [| split; [reflexivity |]].
    + rewrite Hext, fmap_app. f_equal.
      rewrite <- list_fmap_compose. done.
    + apply NoDup_alt. intros i j p Hi Hj.
      rewrite list_lookup_fmap in Hi, Hj.
      destruct (_ !! i) as [c1 |] eqn:H1; [| done].
      destruct (_ !! j) as [c2 |] eqn:H2; [| done].
      simpl in Hi, Hj. destruct (decide (i = j)) as [| Hij]; [done |].
      destruct (Hdistinct i j c1 c2 Hij H1 H2) as (_ & _ & Hpath).
      congruence.
Qed.

(** The two tiles of the 3 x 2 image have different file names and went to
    two different files. *)
Lemma chunkImage_distinct_names_witness :
  ∃ m w', chunkImage quiet_env 0 chunker2 "map.png" empty_world = (Returned m, w') ∧
          (∀ c1 c2, chunks m !! 0%nat = Some c1 → chunks m !! 1%nat = Some c2 →
                    filename c1 ≠ filename c2) ∧
          NoDup (extracted (trace w')).*2.
Proof.
  pose proof (chunkImage_distinct_names quiet_env 0 chunker2 "map.png" empty_world)
    as Hnames.
  destruct (chunkImage quiet_env 0 chunker2 "map.png" empty_world)
    as [[m | e |] w'] eqn:Hrun; [| vm_compute in Hrun; discriminate..].
  exists m, w'. split; [reflexivity |].
  destruct (Hnames m w' eq_refl) as (_ & Hdistinct & Hfiles).
  split.
  - intros c1 c2 H1 H2.
    exact (proj1 (proj2 (Hdistinct 0%nat 1%nat c1 c2 ltac:(lia) H1 H2))).
  - destruct (Hfiles eq_refl) as (targets & -> & _ & Hnodup). exact Hnodup.
Defined.

(** ** A partition that fails *)

(** An invariant of the world that every turn keeps, whatever its outcome,
    holds after the loop, whatever its outcome. *)
Lemma for_range_any {A} (I : World → Prop) (body : Z → A → M A) n :
  ∀ i acc w out w',
    I w →
    (∀ j a w1 out1 w2, I w1 → body j a w1 = (out1, w2) → I w2) →
    for_range n i body acc w = (out, w') →
    I w'.
Proof.
  induction n as [| n IH]; intros i acc w out w' Hw Hbody Hrun.
  - simpl in Hrun. by injection Hrun as _ <-.
  - simpl in Hrun. unfold bind in Hrun.
    destruct (body i acc w) as [[a | e |] w1] eqn:Hb.
    + eapply IH; [| exact Hbody | exact Hrun]. by eapply Hbody.
    + injection Hrun as _ <-. by eapply Hbody.
    + injection Hrun as _ <-. by eapply Hbody.
Qed.

Lemma for_lt_any {A} (I : World → Prop) fuel bound (body : Z → A → M A) acc w out w' :
  I w →
  (∀ j a w1 out1 w2, I w1 → body j a w1 = (out1, w2) → I w2) →
  for_lt fuel bound body acc w = (out, w') →
  I w'.
Proof.
  intros Hw Hbody Hrun. destruct bound as [b | | |]; simpl in Hrun.
  - by eapply for_range_any.
  - unfold bind, out_of_fuel in Hrun.
    destruct (for_range fuel 0 body acc w) as [[a | e |] w1] eqn:Hloop;
      injection Hrun as _ <-; by eapply for_range_any.
  - by injection Hrun as _ <-.
  - by injection Hrun as _ <-.
Qed.

(** No tile is called [metadata.json]. *)
Lemma tile_name_not_manifest (col row : Z) (fmt : string) :
  (pretty col +:+ "_" +:+ pretty row) +:+ "." +:+ fmt ≠ "metadata.json".
Proof.
  intros Heq.
  assert (all_chars (λ c, negb (Ascii.eqb c "_"%char))
            ((pretty col +:+ "_" +:+ pretty row) +:+ "." +:+ fmt) = true) as Hall
    by (by rewrite Heq).
  rewrite !all_chars_app in Hall.
  apply andb_prop in Hall as [Hall _]. apply andb_prop in Hall as [_ Hall].
  discriminate.
Qed.

(** The two loops of [chunkImage] write tiles only: whatever their outcome,
    the manifest file and the files outside the output directory are as
    they were. *)
Lemma extraction_loops_keep_manifest env fuel self image W H (bx bY : jsint)
    acc w out w' :
  for_lt fuel bY (λ row chunks,
    for_lt fuel bx (λ col chunks,
      let* chunk := createChunk env self image col row W H in
      ret (chunks ++ [chunk])) chunks) acc w = (out, w') →
  files w' !! path_join (outputDir self) "metadata.json"
  = files w !! path_join (outputDir self) "metadata.json" ∧
  ∀ p, under (outputDir self) p = false → files w' !! p = files w !! p.
Proof.
  set (I := λ w1 : World,
         files w1 !! path_join (outputDir self) "metadata.json"
         = files w !! path_join (outputDir self) "metadata.json" ∧
         ∀ p, under (outputDir self) p = false → files w1 !! p = files w !! p).
  intros Hloop. change (I w').
  eapply (for_lt_any I); [| | exact Hloop]; [done |].
  intros row a w5 out5 w6 Hw5 Hin.
  eapply (for_lt_any I); [exact Hw5 | | exact Hin].
  intros col b w7 out7 w8 [Hm7 Hfr7] Hstep. unfold bind in Hstep.
  rewrite createChunk_run in Hstep. simpl in Hstep.
  destruct (fault env _ w7); injection Hstep as _ <-; [done |]. split; simpl.
  - rewrite lookup_insert_ne; [done |].
    unfold path_join. intros Heq. apply (inj _) in Heq. injection Heq as Heq.
    by apply tile_name_not_manifest in Heq.
  - intros p Hp. rewrite lookup_insert_ne; [by apply Hfr7 |].
    intros <-. by rewrite under_path_join in Hp.
Qed.



(** X8: the manifest is a function of the dimensions read and of the
    chunker's settings alone: two partitions of images of the same size by
    the same chunker return the same manifest, the same regions in the same
    order, whatever is on disk, whatever the tiles hold and whenever they
    run. *)
Theorem chunkImage_manifest_determined env1 env2 fuel1 fuel2 self input1 input2
    w1 w2 W H m1 m2 w1' w2' :
  (∀ w0, image_size env1 input1 w0 = (Some W, Some H)) →
  (∀ w0, image_size env2 input2 w0 = (Some W, Some H)) →
  chunkImage env1 fuel1 self input1 w1 = (Returned m1, w1') →
  chunkImage env2 fuel2 self input2 w2 = (Returned m2, w2') →
  m1 = m2.
Proof.
  intros Hsize1 Hsize2 Hrun1 Hrun2.
  apply chunkImage_returned in Hrun1 as (W1 & H1 & wa & Hsz1 & _ & _ & ->).
  apply chunkImage_returned in Hrun2 as (W2 & H2 & wb & Hsz2 & _ & _ & ->).
  rewrite Hsize1 in Hsz1. rewrite Hsize2 in Hsz2.
  injection Hsz1 as <- <-. injection Hsz2 as <- <-. reflexivity.
Qed.

(** The same image, cut on an empty disk and on a disk with a stale
    manifest, by an image library whose clock and state differ. *)
Lemma chunkImage_manifest_determined_witness :
  ∃ m w1' w2',
    chunkImage quiet_env 0 chunker2 "map.png" empty_world = (Returned m, w1') ∧
    chunkImage stuck_env 7 chunker2 "copy.png" stale_world = (Returned m, w2').
Proof.
  destruct (chunkImage quiet_env 0 chunker2 "map.png" empty_world)
    as [[m1 | e |] w1'] eqn:Hrun1; [| vm_compute in Hrun1; discriminate..].
  destruct (chunkImage stuck_env 7 chunker2 "copy.png" stale_world)
    as [[m2 | e |] w2'] eqn:Hrun2; [| vm_compute in Hrun2; discriminate..].
  exists m1, w1', w2'. split; [reflexivity |].
  by rewrite (chunkImage_manifest_determined quiet_env stuck_env 0 7 chunker2
                "map.png" "copy.png" empty_world stale_world 3 2 m1 m2 w1' w2'
                ltac:(reflexivity) ltac:(reflexivity) Hrun1 Hrun2).
Defined.

(** ** The pipeline, further *)

(** X9: compression never changes the geometry.  The final manifest has
    the version, the dimensions, the tile size and the counts of the
    chunker's manifest, and its entries have, in the same order, the
    identifiers, grid cells and pixel rectangles of the chunker's regions;
    only the file names and the format tag differ. *)
Theorem processMapToKTX2_keeps_geometry env fuel options w report w' :
  processMapToKTX2 env fuel options w = (Returned report, w') →
  ∃ m w1,
    chunkImage env fuel (pipeline_chunker options) (po_input options) w
    = (Returned m, w1) ∧
    version (pr_metadata report) = version m ∧
    totalWidth (pr_metadata report) = totalWidth m ∧
    totalHeight (pr_metadata report) = totalHeight m ∧
    chunkWidth (pr_metadata report) = chunkWidth m ∧
    chunkHeight (pr_metadata report) = chunkHeight m ∧
    chunksX (pr_metadata report) = chunksX m ∧
    chunksY (pr_metadata report) = chunksY m ∧
    (λ c, (id c, x c, y c, pixelX c, pixelY c, width c, height c))
      <$> chunks (pr_metadata report)
    = (λ c, (id c, x c, y c, pixelX c, pixelY c, width c, height c)) <$> chunks m.
Proof.
  intros Hrun.
  apply processMapToKTX2_returned in Hrun
    as (m & w1 & rs & w3 & Hchunk & _ & Hlen & _ & -> & _).
  exists m, w1. simpl. repeat split; try done.
  by apply (fmap_renamed
              (λ c, (id c, x c, y c, pixelX c, pixelY c, width c, height c))).
Qed.

(** The run with one failed conversion: the two rectangles are those of the
    partition. *)
Lemma processMapToKTX2_keeps_geometry_witness :
  ∃ report w',
    processMapToKTX2 flaky_env 0 options2 empty_world = (Returned report, w') ∧
    (λ c, (pixelX c, pixelY c, width c, height c)) <$> chunks (pr_metadata report)
    = [(0, 0, 2, 2); (2, 0, 1, 2)].
Proof.
  pose proof (processMapToKTX2_keeps_geometry flaky_env 0 options2 empty_world)
    as Hgeo.
  destruct (processMapToKTX2 flaky_env 0 options2 empty_world)
    as [[report | e |] w'] eqn:Hrun; [| vm_compute in Hrun; discriminate..].
  destruct (Hgeo report w' eq_refl) as (m & w1 & _).
  exists report, w'. split; [reflexivity |].
  vm_compute in Hrun. injection Hrun as <- _. reflexivity.
Defined.

Section CompressOutputs.
Variable env : Env.
Variable forge : TextureForge.
Variables chunksDir ktx2Dir : string.

Local Abbreviation out_of :=
  (λ c : ChunkMetadata,
     path_join ktx2Dir (replace_first ".png" ".ktx2" (filename c))).
Local Abbreviation cmd_of :=
  (λ c : ChunkMetadata,
     buildToktxCommand forge (path_join chunksDir (filename c)) (out_of c)).

(** One turn of the loop, seen from the disk: at most one encoder run, its
    own; no file touched but the tile's output; after a success the output
    is there, of the size reported. *)
Lemma compressChunk_output i chunk st w st1 w1 :
  compressChunk env forge chunksDir ktx2Dir i chunk st w = (Returned st1, w1) →
  ∃ r cmds,
    ls_conversions st1 = ls_conversions st ++ [r] ∧
    length (ls_chunks st1) = length (ls_chunks st) ∧
    drop (S i) (ls_chunks st1) = drop (S i) (ls_chunks st) ∧
    executed (trace w1) = executed (trace w) ++ cmds ∧
    cmds `sublist_of` [cmd_of chunk] ∧
    (∀ p, p ≠ out_of chunk → files w1 !! p = files w !! p) ∧
    (success r = true →
     ∃ bytes, files w1 !! out_of chunk = Some bytes ∧
              compressedSize r = Z.of_nat (String.length bytes)).
Proof.
  unfold compressChunk. intros Hrun.
  apply bind_returned in Hrun as (r & w2 & Hconv & Hrun).
  destruct (convertFile_detail env forge (path_join chunksDir (filename chunk))
              (Some (out_of chunk)) w) as (r1 & wa & Hrun1 & Hexec & Hsucc).
  destruct (convertFile_world env forge (path_join chunksDir (filename chunk))
              (Some (out_of chunk)) w) as (r2 & wb & Hrun2 & _ & _ & _ & _ & Hframe).
  rewrite Hconv in Hrun1, Hrun2.
  injection Hrun1 as <- <-. injection Hrun2 as <- <-. simpl in *.
  exists r.
  exists (if decide (executed (trace w2) = executed (trace w)) then []
          else [cmd_of chunk]).
  assert (ls_conversions st1 = ls_conversions st ++ [r]
          ∧ length (ls_chunks st1) = length (ls_chunks st)
          ∧ drop (S i) (ls_chunks st1) = drop (S i) (ls_chunks st) ∧ w1 = w2)
    as (-> & -> & -> & ->).
  { destruct (success r); unfold ret in Hrun; injection Hrun as <- <-; simpl;
      rewrite ?length_insert, ?drop_insert_lt by lia; done. }
  repeat split; try done.
  - case_decide as Hsame; [by rewrite app_nil_r |].
    by destruct Hexec as [Hexec | Hexec].
  - case_decide; [apply sublist_nil_l | done].
  - intros Hok. destruct (Hsucc Hok) as (input & output & _ & Hout & _ & HC & _).
    by exists output.
Qed.

(** The loop, seen from the disk. *)
Lemma compressLoop_outputs n :
  ∀ i st w st' w',
    (i + n = length (ls_chunks st))%nat →
    compressLoop env forge chunksDir ktx2Dir n i st w = (Returned st', w') →
    ∃ rs cmds,
      ls_conversions st' = ls_conversions st ++ rs ∧
      executed (trace w') = executed (trace w) ++ cmds ∧
      cmds `sublist_of` (cmd_of <$> drop i (ls_chunks st)) ∧
      (∀ p, p ∉ (out_of <$> drop i (ls_chunks st)) → files w' !! p = files w !! p) ∧
      (NoDup (out_of <$> drop i (ls_chunks st)) →
       Forall2 (λ c0 r,
                  success r = true →
                  ∃ bytes, files w' !! out_of c0 = Some bytes ∧
                           compressedSize r = Z.of_nat (String.length bytes))
         (drop i (ls_chunks st)) rs).
Proof.
  induction n as [| n IH]; intros i st w st' w' Hlen Hrun.
  - simpl in Hrun. injection Hrun as <- <-. exists [], [].
    rewrite !app_nil_r, drop_ge by lia. repeat split; try done.
  - simpl in Hrun. destruct (ls_chunks st !! i) as [chunk |] eqn:Hi.
    2:{ apply lookup_ge_None in Hi. lia. }
    apply bind_returned in Hrun as (st1 & w1 & Hstep & Hrun).
    destruct (compressChunk_output _ _ _ _ _ _ Hstep)
      as (r & cmds0 & Hconv & Hlen1 & Hdrop & Hexec & Hsub & Hframe & Hsucc).
    destruct (IH (S i) st1 w1 st' w' ltac:(lia) Hrun)
      as (rs & cmds & Hconv' & Hexec' & Hsub' & Hframe' & Hfiles').
    rewrite Hdrop in Hsub', Hframe', Hfiles'.
    exists (r :: rs), (cmds0 ++ cmds). rewrite (drop_S _ chunk i Hi). csimpl.
    split; [by rewrite Hconv', Hconv, <- app_assoc |].
    split; [by rewrite Hexec', Hexec, <- app_assoc |].
    split; [by apply (sublist_app _ [_]) |].
    split.
    + intros p Hp. apply not_elem_of_cons in Hp as [Hne Hp].
      rewrite Hframe' by done. by apply Hframe.
    + intros [Hnotin Hnodup]%NoDup_cons. constructor; [| by apply Hfiles'].
      intros Hok. destruct (Hsucc Hok) as (bytes & Hout & HC).
      exists bytes. by rewrite Hframe'.
Qed.

End CompressOutputs.

(** The names of an entry of the manifest the pipeline's chunker returns. *)
Lemma chunk_entry_names env fuel options w m w1 i c0 :
  chunkImage env fuel (pipeline_chunker options) (po_input options) w = (Returned m, w1) →
  chunks m !! i = Some c0 →
  ∃ cx col row,
    chunksX m = Int cx ∧ 0 ≤ col < cx ∧ Z.of_nat i = row * cx + col ∧
    id c0 = pretty col +:+ "_" +:+ pretty row ∧
    filename c0 = id c0 +:+ ".png" ∧
    replace_first ".png" ".ktx2" (filename c0) = id c0 +:+ ".ktx2".
Proof.
  intros Hchunk Hc0.
  apply chunkImage_returned in Hchunk as (W & H & _ & _ & _ & _ & ->). simpl in *.
  apply grid_lookup_any in Hc0 as (cx & cy & col & row & HX & _ & Hcol & _ & Hi & ->).
  exists cx, col, row. repeat split; try done; try lia. simpl.
  apply replace_png_ext.
  apply (all_chars_weaken id_char); [| apply chunk_id_chars]. by apply id_char_not.
Qed.

(** No two entries share the path of their compressed tile. *)
Lemma tile_outputs_NoDup env fuel options w m w1 (dir : string) :
  chunkImage env fuel (pipeline_chunker options) (po_input options) w = (Returned m, w1) →
  NoDup ((λ c, path_join dir (replace_first ".png" ".ktx2" (filename c))) <$> chunks m).
Proof.
  intros Hchunk. apply NoDup_alt. intros i j p Hi Hj.
  apply list_lookup_fmap_Some in Hi as (c1 & -> & Hc1).
  apply list_lookup_fmap_Some in Hj as (c2 & Heq & Hc2).
  destruct (chunk_entry_names _ _ _ _ _ _ _ _ Hchunk Hc1)
    as (cx & col1 & row1 & HX & _ & Hi & Hid1 & _ & Hren1).
  destruct (chunk_entry_names _ _ _ _ _ _ _ _ Hchunk Hc2)
    as (cx' & col2 & row2 & HX' & _ & Hj & Hid2 & _ & Hren2).
  rewrite HX in HX'. injection HX' as <-.
  rewrite Hren1, Hren2, Hid1, Hid2 in Heq.
  unfold path_join in Heq. apply (inj _) in Heq. injection Heq as Heq.
  apply (chunk_filename_inj "ktx2") in Heq as [-> ->]. lia.
Qed.

(** The chunker runs no encoder. *)
Lemma chunkImage_no_exec env fuel self inputPath w m w' :
  chunkImage env fuel self inputPath w = (Returned m, w') →
  executed (trace w') = executed (trace w).
Proof.
  unfold chunkImage. intros Hrun.
  apply bind_returned in Hrun as (_ & w1 & [_ ->]%call_returned & Hrun).
  apply bind_returned in Hrun as ([[W |] [H |]] & w2 & Hmeta & Hrun);
    try discriminate.
  unfold sharp_metadata in Hmeta.
  destruct (fault env _ _); [discriminate |]. injection Hmeta as _ <-.
  destruct ((W =? 0) || (H =? 0)); [discriminate |].
  apply bind_returned in Hrun as (cs & w3 & Hloop & Hrun).
  apply bind_returned in Hrun as (_ & w4 & [_ ->]%fs_writeFile_returned & Hrun).
  injection Hrun as _ <-. simpl. rewrite executed_snoc, app_nil_r.
  eapply (for_lt_inv (λ w1, executed (trace w1) = executed (trace w)));
    [| | exact Hloop].
  - simpl. by rewrite !executed_snoc, !app_nil_r.
  - intros row a w5 a' w6 Hw5 Hin.
    eapply (for_lt_inv (λ w1, executed (trace w1) = executed (trace w)));
      [exact Hw5 | | exact Hin].
    intros col b w7 b' w8 Hw7 Hb.
    apply bind_returned in Hb as (c & w9 & Hc & Hb). injection Hb as _ <-.
    rewrite createChunk_run in Hc. simpl in Hc.
    destruct (fault env _ w7); [discriminate |]. injection Hc as _ <-. simpl.
    by rewrite executed_snoc, app_nil_r.
Qed.

Section PipelineDisk.
Variable env : Env.
Variable fuel : nat.
Variable options : ProcessOptions.

Local Abbreviation chunksDir := (path_join (po_outputDir options) "chunks_temp").
Local Abbreviation ktx2Dir := (path_join (po_outputDir options) "chunks").

(** A run that returns, seen from the disk. *)
Lemma processMapToKTX2_disk w report w' :
  processMapToKTX2 env fuel options w = (Returned report, w') →
  ∃ m w1 w3 cmds,
    chunkImage env fuel (pipeline_chunker options) (po_input options) w
    = (Returned m, w1) ∧
    report = report_of m (pr_conversions report) ∧
    length (pr_conversions report) = length (chunks m) ∧
    executed (trace w3) = executed (trace w1) ++ cmds ∧
    cmds `sublist_of`
      ((λ c, buildToktxCommand (pipeline_forge options)
               (path_join chunksDir (filename c))
               (path_join ktx2Dir (replace_first ".png" ".ktx2" (filename c))))
         <$> chunks m) ∧
    (∀ p, p ∉ ((λ c, path_join ktx2Dir (replace_first ".png" ".ktx2" (filename c)))
                 <$> chunks m) →
          files w3 !! p = files w1 !! p) ∧
    Forall2 (λ c0 r,
               success r = true →
               ∃ bytes,
                 files w3 !! path_join ktx2Dir
                               (replace_first ".png" ".ktx2" (filename c0))
                 = Some bytes ∧
                 compressedSize r = Z.of_nat (String.length bytes))
      (chunks m) (pr_conversions report) ∧
    w' = {| files := <[path_join ktx2Dir "metadata.json"
                       := JSON_stringify (pr_metadata report)]>
                       (filter (λ kv, under chunksDir kv.1 = false) (files w3));
            trace := (trace w3 ++ [EvRm chunksDir])
                     ++ [EvWriteFile (path_join ktx2Dir "metadata.json")
                           (JSON_stringify (pr_metadata report))] |}.
Proof.
  unfold processMapToKTX2.
  fold (pipeline_chunker options) (pipeline_forge options). intros Hrun.
  apply bind_returned in Hrun as (m & w1 & Hchunk & Hrun).
  apply bind_returned in Hrun as (_ & w2 & [_ ->]%call_returned & Hrun).
  apply bind_returned in Hrun as (st & w3 & Hloop & Hrun).
  apply bind_returned in Hrun as (_ & w4 & [_ ->]%fs_rm_returned & Hrun).
  apply bind_returned in Hrun as (_ & w5 & [_ ->]%fs_writeFile_returned & Hrun).
  injection Hrun as <- <-.
  destruct (compressLoop_all env options (chunks m) (log (EvMkdir ktx2Dir) w1))
    as (st' & w3' & Hloop' & Hlen & Hchunks & _ & HO & HC & _).
  rewrite Hloop in Hloop'. injection Hloop' as <- <-.
  destruct (compressLoop_outputs env (pipeline_forge options) chunksDir ktx2Dir
              _ 0 _ _ _ _ eq_refl Hloop)
    as (rs & cmds & Hconv & Hexec & Hsub & Hframe & Hfiles).
  simpl in Hconv, Hexec, Hsub, Hframe, Hfiles. subst rs.
  rewrite executed_snoc, app_nil_r in Hexec.
  exists m, w1, w3, cmds. simpl.
  split; [done |].
  split; [unfold report_of; by rewrite Hchunks, HO, HC |].
  split; [done |]. split; [done |]. split; [done |]. split; [done |].
  split; [| done].
  apply Hfiles. by eapply tile_outputs_NoDup.
Qed.

End PipelineDisk.

(** The manifest of the compressed tiles is none of the tiles. *)
Lemma manifest_not_tile_output env fuel options w m w1 :
  chunkImage env fuel (pipeline_chunker options) (po_input options) w = (Returned m, w1) →
  path_join (path_join (po_outputDir options) "chunks") "metadata.json"
  ∉ (λ c, path_join (path_join (po_outputDir options) "chunks")
            (replace_first ".png" ".ktx2" (filename c))) <$> chunks m.
Proof.
  intros Hchunk (c0 & Heq & (i & Hc0)%list_elem_of_lookup)%list_elem_of_fmap.
  destruct (chunk_entry_names _ _ _ _ _ _ _ _ Hchunk Hc0)
    as (cx & col & row & _ & _ & _ & Hid & _ & Hren).
  rewrite Hren, Hid in Heq.
  unfold path_join in Heq. apply (inj _) in Heq. injection Heq as Heq.
  symmetry in Heq. by apply (tile_name_not_manifest col row "ktx2") in Heq.
Qed.

(** X10: after a run that returns, with a normalised output directory,
    nothing is left of the temporary directory: no path in or below
    [<outputDir>/chunks_temp] holds a file,
    so the intermediate tile of every entry is gone, also that of an entry
    whose conversion failed and whose file name still ends in [.png]. *)
Theorem processMapToKTX2_removes_temp env fuel options w report w' :
  processMapToKTX2 env fuel options w = (Returned report, w') →
  normalised (po_outputDir options) = true →
  (∀ p, normalised p = true →
        under (path_join (po_outputDir options) "chunks_temp") p = true →
        files w' !! p = None) ∧
  (∀ c, c ∈ chunks (pr_metadata report) → files w' !! tile_input options c = None).
Proof.
  intros Hrun _.
  apply processMapToKTX2_returned in Hrun
    as (m & w1 & rs & w3 & _ & _ & _ & _ & _ & _ & _ & _ & _ & ->).
  assert (∀ p, under (path_join (po_outputDir options) "chunks_temp") p = true →
          files {| files :=
                     <[path_join (path_join (po_outputDir options) "chunks")
                         "metadata.json"
                       := JSON_stringify (pr_metadata report)]>
                       (filter (λ kv : string * string,
                                  under (path_join (po_outputDir options) "chunks_temp")
                                    kv.1 = false) (files w3));
                   trace := [] |} !! p = None) as Hgone.
  { intros p Hp. simpl. rewrite lookup_insert_ne.
    - by rewrite lookup_rm, Hp.
    - intros <-. by rewrite under_chunks_temp_chunks in Hp. }
  split; [intros p _; apply Hgone |].
  intros c _. apply Hgone. apply under_path_join.
Qed.

(** The run with one failed conversion: the tile of the failed entry is
    gone. *)
Lemma processMapToKTX2_removes_temp_witness :
  ∃ report w',
    processMapToKTX2 flaky_env 0 options2 empty_world = (Returned report, w') ∧
    files w' !! "out/chunks_temp/1_0.png" = None.
Proof.
  pose proof (processMapToKTX2_removes_temp flaky_env 0 options2 empty_world) as Hgone.
  destruct (processMapToKTX2 flaky_env 0 options2 empty_world)
    as [[report | e |] w'] eqn:Hrun; [| vm_compute in Hrun; discriminate..].
  exists report, w'. split; [reflexivity |].
  exact (proj1 (Hgone report w' eq_refl eq_refl) "out/chunks_temp/1_0.png"
           eq_refl eq_refl).
Defined.

(** X11: after a run that returns, with a normalised and plain output
    directory, the compressed tile of every successful conversion is on
    disk: the entry at the index of a successful outcome
    names a file of [<outputDir>/chunks], that file is the output file of
    the outcome, it exists, and its size is the compressed size the outcome
    reports. *)
Theorem processMapToKTX2_outputs_exist env fuel options w report w' :
  processMapToKTX2 env fuel options w = (Returned report, w') →
  normalised (po_outputDir options) = true →
  plain_path (po_outputDir options) = true →
  ∀ i c r,
    chunks (pr_metadata report) !! i = Some c →
    pr_conversions report !! i = Some r →
    success r = true →
    outputFile r = path_join (path_join (po_outputDir options) "chunks") (filename c) ∧
    ∃ bytes,
      files w' !! path_join (path_join (po_outputDir options) "chunks") (filename c)
      = Some bytes ∧
      compressedSize r = Z.of_nat (String.length bytes).
Proof.
  intros Hrun _ _ i c r Hc Hr Hok.
  pose proof Hrun as (m0 & w0 & rs0 & w30 & Hchunk0 & _ & _ & Hio & Hrep0 & _)
    %processMapToKTX2_returned.
  apply processMapToKTX2_disk in Hrun
    as (m & w1 & w3 & cmds & Hchunk & Hreport & Hlen & _ & _ & _ & Hfiles & ->).
  rewrite Hchunk in Hchunk0. injection Hchunk0 as <- <-.
  assert (rs0 = pr_conversions report) as -> by (by rewrite Hrep0).
  rewrite Hreport in Hc. simpl in Hc.
  apply lookup_zip_with_Some in Hc as (c0 & r' & -> & Hc0 & Hr').
  rewrite Hr in Hr'. injection Hr' as <-.
  destruct (chunk_entry_names _ _ _ _ _ _ _ _ Hchunk Hc0)
    as (cx & col & row & _ & _ & _ & Hid & Hpng & Hren).
  pose proof (proj2 (proj1 (Forall2_same_length_lookup _ _ _) Hio) i c0 r Hc0 Hr)
    as [_ Hout].
  pose proof (proj2 (proj1 (Forall2_same_length_lookup _ _ _) Hfiles) i c0 r Hc0 Hr Hok)
    as (bytes & Hbytes & Hsize).
  unfold renamed. rewrite Hok. simpl.
  split; [done |]. exists bytes. split; [| done].
  rewrite lookup_insert_ne.
  - by rewrite lookup_rm, under_chunks_temp_chunks.
  - rewrite Hren, Hid. unfold path_join. intros Heq.
    apply (inj _) in Heq. injection Heq as Heq.
    symmetry in Heq. by apply (tile_name_not_manifest col row "ktx2") in Heq.
Qed.

(** The run with one failed conversion: the compressed first tile is there,
    4 bytes long. *)
Lemma processMapToKTX2_outputs_exist_witness :
  ∃ report w' r,
    processMapToKTX2 flaky_env 0 options2 empty_world = (Returned report, w') ∧
    pr_conversions report !! 0%nat = Some r ∧
    files w' !! "out/chunks/0_0.ktx2" = Some "0123" ∧ compressedSize r = 4.
Proof.
  pose proof (processMapToKTX2_outputs_exist flaky_env 0 options2 empty_world)
    as Hout.
  destruct (processMapToKTX2 flaky_env 0 options2 empty_world)
    as [[report | e |] w'] eqn:Hrun; [| vm_compute in Hrun; discriminate..].
  specialize (Hout report w' eq_refl eq_refl eq_refl 0%nat).
  vm_compute in Hrun. injection Hrun as <- <-.
  eexists _, _, _. split; [reflexivity |]. split; [reflexivity |].
  destruct (Hout _ _ eq_refl eq_refl eq_refl) as (_ & bytes & Hbytes & Hsize).
  split; [reflexivity | exact eq_refl].
Defined.

(** X12: in a run that returns, with a normalised output directory, the
    encoder is started at most once for a tile and for nothing else: the
    commands run are a subsequence, in
    manifest order, of the commands of the entries of the final manifest,
    each reading the tile [<id>.png] of the temporary directory and writing
    [<id>.ktx2] of [<outputDir>/chunks].  No tile is tried a second time
    after a failure. *)
Theorem processMapToKTX2_commands env fuel options w report w' :
  processMapToKTX2 env fuel options w = (Returned report, w') →
  normalised (po_outputDir options) = true →
  ∃ cmds,
    executed (trace w') = executed (trace w) ++ cmds ∧
    cmds `sublist_of` (tile_command options <$> chunks (pr_metadata report)).
Proof.
  intros Hrun _.
  apply processMapToKTX2_disk in Hrun
    as (m & w1 & w3 & cmds & Hchunk & Hreport & Hlen & Hexec & Hsub & _ & _ & ->).
  exists cmds. split.
  - simpl. rewrite !executed_snoc. simpl.
    rewrite Hexec, !app_nil_r. by rewrite (chunkImage_no_exec _ _ _ _ _ _ _ Hchunk).
  - rewrite Hreport. simpl.
    rewrite (fmap_renamed (tile_command options)) by done.
    erewrite list_fmap_ext; [exact Hsub |].
    intros i c Hc. simpl.
    destruct (chunk_entry_names _ _ _ _ _ _ _ _ Hchunk Hc)
      as (cx & col & row & _ & _ & _ & _ & Hpng & Hren).
    unfold tile_command, tile_input, tile_output. by rewrite Hren, Hpng.
Qed.

(** The run with one failed conversion: the encoder was started twice, once
    for each tile. *)
Lemma processMapToKTX2_commands_witness :
  ∃ report w' cmds,
    processMapToKTX2 flaky_env 0 options2 empty_world = (Returned report, w') ∧
    executed (trace w') = cmds ∧ length cmds = 2%nat.
Proof.
  pose proof (processMapToKTX2_commands flaky_env 0 options2 empty_world) as Hcmds.
  destruct (processMapToKTX2 flaky_env 0 options2 empty_world)
    as [[report | e |] w'] eqn:Hrun; [| vm_compute in Hrun; discriminate..].
  destruct (Hcmds report w' eq_refl eq_refl) as (cmds & Hexec & _).
  exists report, w', cmds. split; [reflexivity |].
  vm_compute in Hrun. injection Hrun as <- <-.
  split; [exact Hexec |].
  vm_compute in Hexec. by subst cmds.
Defined.

(** Whatever its outcome, [chunkImage] leaves the files outside its output
    directory as they were. *)
Lemma chunkImage_frame_any env fuel self inputPath w out w' :
  chunkImage env fuel self inputPath w = (out, w') →
  ∀ p, under (outputDir self) p = false → files w' !! p = files w !! p.
Proof.
  intros Hrun.
  unfold chunkImage, bind in Hrun.
  unfold fs_mkdir, call in Hrun.
  destruct (fault env (EvMkdir _) w); [by injection Hrun as _ <- |].
  unfold sharp_metadata in Hrun.
  destruct (fault env (EvMetadata _) _); [by injection Hrun as _ <- |].
  destruct (image_size env inputPath _) as [[W |] [H |]];
    try (by injection Hrun as _ <-).
  destruct ((W =? 0) || (H =? 0)); [by injection Hrun as _ <- |].
  match type of Hrun with
  | (let (_, _) := ?loop ?w0 in _) = _ =>
      destruct (loop w0) as [[cs | e |] w3] eqn:Hloop
  end;
    apply extraction_loops_keep_manifest in Hloop as [_ Hloop]; simpl in Hloop.
  - unfold saveMetadata, fs_writeFile, bind, call in Hrun.
    destruct (fault env (EvWriteFile _ _) w3).
    + by injection Hrun as _ <-.
    + simpl in Hrun. injection Hrun as _ <-. simpl.
      intros p Hp. rewrite lookup_insert_ne; [by apply Hloop |].
      intros <-. by rewrite under_path_join in Hp.
  - by injection Hrun as _ <-.
  - by injection Hrun as _ <-.
Qed.

(** The ways in which [processMapToKTX2] does not return: the partition did
    not return, or one of the three calls after it failed: the creation of
    the output directory, the removal of the temporary one, the write of the
    final manifest.  The conversions are not among them. *)
Lemma processMapToKTX2_failure env fuel options w out w' :
  processMapToKTX2 env fuel options w = (out, w') →
  (∀ report, out ≠ Returned report) →
  (∃ out0,
     chunkImage env fuel (pipeline_chunker options) (po_input options) w = (out0, w') ∧
     ∀ m, out0 ≠ Returned m) ∨
  ∃ m w1,
    chunkImage env fuel (pipeline_chunker options) (po_input options) w
    = (Returned m, w1) ∧
    (w' = log (EvMkdir (path_join (po_outputDir options) "chunks")) w1 ∨
     ∃ st w3,
       compressLoop env (pipeline_forge options)
         (path_join (po_outputDir options) "chunks_temp")
         (path_join (po_outputDir options) "chunks") (length (chunks m)) 0
         {| ls_chunks := chunks m; ls_conversions := [];
            ls_totalOriginalSize := 0; ls_totalCompressedSize := 0 |}
         (log (EvMkdir (path_join (po_outputDir options) "chunks")) w1)
       = (Returned st, w3) ∧
       (w' = log (EvRm (path_join (po_outputDir options) "chunks_temp")) w3 ∨
        ∃ content,
          w' = log (EvWriteFile
                      (path_join (path_join (po_outputDir options) "chunks")
                         "metadata.json") content)
                 {| files := filter (λ kv : string * string,
                                       under (path_join (po_outputDir options)
                                                "chunks_temp") kv.1 = false)
                               (files w3);
                    trace := trace w3
                             ++ [EvRm (path_join (po_outputDir options)
                                         "chunks_temp")] |})).
Proof.
  unfold processMapToKTX2.
  fold (pipeline_chunker options) (pipeline_forge options). intros Hrun Hfail.
  destruct (chunkImage env fuel (pipeline_chunker options) (po_input options) w)
    as [[m | e |] w1] eqn:Hchunk.
  - right. exists m, w1. split; [done |].
    rewrite (bind_run _ _ _ _ _ Hchunk) in Hrun.
    unfold fs_mkdir, call, bind at 1 in Hrun.
    destruct (fault env (EvMkdir _) w1); [left; by injection Hrun as _ <- |].
    right.
    destruct (compressLoop_all env options (chunks m)
                (log (EvMkdir (path_join (po_outputDir options) "chunks")) w1))
      as (st & w3 & Hloop & _).
    exists st, w3. split; [done |].
    rewrite (bind_run _ _ _ _ _ Hloop) in Hrun.
    unfold fs_rm, call, bind at 1 2 in Hrun.
    destruct (fault env (EvRm _) w3); [left; by injection Hrun as _ <- |].
    right. unfold fs_writeFile, call, bind in Hrun. simpl in Hrun.
    destruct (fault env (EvWriteFile _ _) _).
    + injection Hrun as _ <-. by eexists.
    + simpl in Hrun. injection Hrun as <- _. by eelim Hfail.
  - left. rewrite (bind_thrown _ _ _ _ _ Hchunk) in Hrun.
    injection Hrun as _ <-. by exists (Thrown e).
  - left. unfold bind in Hrun. rewrite Hchunk in Hrun.
    injection Hrun as _ <-. by exists OutOfFuel.
Qed.

(** X13: a run of the pipeline that ends before the write of the final
    manifest leaves that file alone.  When the run does not return a report,
    and the call that ended it was not the write of the final manifest
    itself, [<outputDir>/chunks/metadata.json] is as it was before the run,
    whichever of the earlier steps failed. *)
Theorem processMapToKTX2_failure_keeps_manifest env fuel options w out w' :
  processMapToKTX2 env fuel options w = (out, w') →
  (∀ report, out ≠ Returned report) →
  normalised (po_outputDir options) = true →
  plain_path (po_outputDir options) = true →
  (∀ content,
     last (trace w')
     ≠ Some (EvWriteFile
               (path_join (path_join (po_outputDir options) "chunks") "metadata.json")
               content)) →
  files w' !! path_join (path_join (po_outputDir options) "chunks") "metadata.json"
  = files w !! path_join (path_join (po_outputDir options) "chunks") "metadata.json".
Proof.
  intros Hrun Hfail _ _ Hlast.
  destruct (processMapToKTX2_failure _ _ _ _ _ _ Hrun Hfail)
    as [(out0 & Hchunk & _) | (m & w1 & Hchunk & Hcases)].
  - apply (chunkImage_frame_any _ _ _ _ _ _ _ Hchunk). simpl.
    apply under_chunks_temp_chunks.
  - pose proof (chunkImage_frame_any _ _ _ _ _ _ _ Hchunk _
                  (under_chunks_temp_chunks (po_outputDir options) "metadata.json"))
      as Hw1.
    simpl in Hw1.
    destruct Hcases as [-> | (st & w3 & Hloop & Hcases)]; [done |].
    destruct (compressLoop_outputs env (pipeline_forge options) _ _ _ 0 _ _ _ _
                eq_refl Hloop) as (_ & _ & _ & _ & _ & Hframe & _).
    specialize (Hframe _ (manifest_not_tile_output _ _ _ _ _ _ Hchunk)).
    simpl in Hframe.
    destruct Hcases as [-> | (content & ->)]; simpl.
    + by rewrite Hframe.
    + exfalso. eapply Hlast. apply last_snoc.
Qed.

(** The temporary directory cannot be removed: the final manifest of the
    earlier run is still there. *)
Lemma processMapToKTX2_failure_keeps_manifest_witness :
  ∃ w',
    processMapToKTX2 stuck_env 0 options2 used_world
    = (Thrown (JsError "EPERM: operation not permitted, rm"), w') ∧
    files w' !! "out/chunks/metadata.json" = Some "old report".
Proof.
  destruct (processMapToKTX2 stuck_env 0 options2 used_world) as [out w'] eqn:Hrun.
  pose proof (processMapToKTX2_failure_keeps_manifest stuck_env 0 options2
                used_world out w' Hrun) as Hkeep.
  assert (out = Thrown (JsError "EPERM: operation not permitted, rm")) as ->
    by (vm_compute in Hrun; by injection Hrun as <- _).
  exists w'. split; [reflexivity |].
  assert (∀ content,
            last (trace w')
            ≠ Some (EvWriteFile
                      (path_join (path_join (po_outputDir options2) "chunks")
                         "metadata.json") content))
    as Hlast by (vm_compute in Hrun; injection Hrun as <-; discriminate).
  exact (Hkeep ltac:(discriminate) eq_refl eq_refl Hlast).
Defined.



(** ** The directory batch *)

(** Without a progress callback the loop of [convertDirectory] returns, with
    one more result for each file left, in order. *)
Lemma convertEach_spec env self inputDir outputDir total (rest : list string) :
  ∀ i results w,
    ∃ rs w',
      convertEach env self inputDir outputDir None total i rest results w
      = (Returned (results ++ rs), w') ∧
      Forall2 (λ file r,
                 inputFile r = path_join inputDir file ∧
                 outputFile r = batch_output inputDir outputDir file)
        rest rs ∧
      accessed (trace w') = accessed (trace w) ++ (path_join inputDir <$> rest) ∧
      written (trace w') = written (trace w).
Proof.
  induction rest as [| file rest IH]; intros i results w.
  - exists [], w. simpl. rewrite !app_nil_r. repeat split; constructor.
  - destruct (convertFile_world env self (path_join inputDir file)
                (Some (batch_output inputDir outputDir file)) w)
      as (r & w1 & Hrun & Hin & Hout & Hacc & Hwr & _).
    destruct (IH (i + 1) (results ++ [r]) w1) as (rs & w' & Hrest & Hall & Hacc' & Hwr').
    exists (r :: rs), w'. split; [| split; [| split]].
    + simpl. unfold convertOne.
      fold (batch_output inputDir outputDir file).
      unfold bind. rewrite Hrun. unfold ret at 1.
      by rewrite Hrest, <- app_assoc.
    + by constructor.
    + rewrite Hacc', Hacc, <- app_assoc. done.
    + by rewrite Hwr', Hwr.
Qed.

(** X15: when no name of the listing matches the pattern, the batch returns
    the empty list and has done nothing else: the target directory is not
    created and no file is looked at. *)
Theorem convertDirectory_no_match env readdir self inputDir outputDir filePattern
    onProgress w names :
  readdir inputDir w = inl names →
  Forall (λ file, nullish filePattern is_image_name file = false) names →
  convertDirectory env readdir self inputDir outputDir filePattern onProgress w
  = (Returned [], w).
Proof.
  intros Hdir Hnone. unfold convertDirectory, fs_readdir, bind. rewrite Hdir.
  replace (List.filter (nullish filePattern is_image_name) names) with (@nil string);
    [done |].
  symmetry. clear Hdir.
  induction Hnone as [| file names Hfile _ IH]; [done |].
  simpl. by rewrite Hfile.
Qed.

(** A listing filtered by a pattern that matches no name. *)
Lemma convertDirectory_no_match_witness :
  convertDirectory quiet_env listing3 forge0 "maps" None (Some (λ _, false)) None
    empty_world
  = (Returned [], empty_world).
Proof.
  apply (convertDirectory_no_match quiet_env listing3 forge0 "maps" None
           (Some (λ _, false)) None empty_world ["a.png"; "notes.txt"; "b.JPG"]).
  - reflexivity.
  - repeat constructor.
Defined.

(** X16: when the directory can be listed and the target directory created,
    a batch without progress callback returns, whatever happens to the
    single conversions.  With normalised directories and a listing of entry
    names, there is one result for each name the pattern matches, in the
    order of the listing, whose input is the name in the input directory and
    whose output is in the output directory when one is given (and not
    empty), beside the input otherwise.  The inputs are looked at in that
    order and nothing is written with [fs.writeFile]. *)
Theorem convertDirectory_results env readdir self inputDir outputDir filePattern
    w names :
  readdir inputDir w = inl names →
  fault env (EvMkdir (nullish outputDir inputDir)) w = None →
  normalised inputDir = true →
  (∀ dir, truthy_dir outputDir = Some dir → normalised dir = true) →
  Forall (λ file, simple_name file = true) names →
  ∃ rs w',
    convertDirectory env readdir self inputDir outputDir filePattern None w
    = (Returned rs, w') ∧
    Forall2 (λ file r,
               inputFile r = path_join inputDir file ∧
               outputFile r = batch_output inputDir outputDir file)
      (List.filter (nullish filePattern is_image_name) names) rs ∧
    accessed (trace w')
    = accessed (trace w)
      ++ (path_join inputDir <$> List.filter (nullish filePattern is_image_name) names) ∧
    written (trace w') = written (trace w).
Proof.
  intros Hdir Hmk _ _ _. unfold convertDirectory, fs_readdir, bind at 1. rewrite Hdir.
  destruct (List.filter (nullish filePattern is_image_name) names)
    as [| file rest] eqn:Hfiles.
  - exists [], w. simpl. rewrite app_nil_r. repeat split; constructor.
  - change ((length (file :: rest) =? 0)%nat) with false. cbv iota.
    unfold fs_mkdir, call, bind at 1. rewrite Hmk.
    destruct (convertEach_spec env self inputDir outputDir (length (file :: rest))
                (file :: rest) 0 [] (log (EvMkdir (nullish outputDir inputDir)) w))
      as (rs & w' & Hrun & Hall & Hacc & Hwr).
    exists rs, w'. split; [exact Hrun |]. split; [exact Hall |].
    rewrite Hacc, Hwr. simpl.
    by rewrite accessed_snoc, written_snoc, !app_nil_r.
Qed.

(** Two of the three names are converted, in the order of the listing. *)
Lemma convertDirectory_results_witness :
  ∃ rs w',
    convertDirectory quiet_env listing3 forge0 "maps" (Some "out") None None
      empty_world
    = (Returned rs, w') ∧
    outputFile <$> rs = ["out/a.ktx2"; "out/b.ktx2"] ∧
    accessed (trace w') = ["maps/a.png"; "maps/b.JPG"].
Proof.
  destruct (convertDirectory_results quiet_env listing3 forge0 "maps" (Some "out")
              None empty_world ["a.png"; "notes.txt"; "b.JPG"] eq_refl eq_refl eq_refl)
    as (rs & w' & Hrun & Hall & Hacc & _);
    [by intros dir [= <-] | by repeat constructor |].
  exists rs, w'. split; [exact Hrun |]. split; [| exact Hacc].
  vm_compute in Hrun. by injection Hrun as <- _.
Defined.

(** X17: a progress callback that throws ends the batch after the first
    conversion: the batch fails with the exception of the callback, the
    result of the first conversion is lost with it, and no other file of the
    listing is looked at: the one path checked is that of the first matching
    entry in the (normalised) input directory. *)
Theorem convertDirectory_callback_throws env readdir self inputDir outputDir filePattern
    (callback : ProgressCallback) w names file rest ex :
  readdir inputDir w = inl names →
  List.filter (nullish filePattern is_image_name) names = file :: rest →
  fault env (EvMkdir (nullish outputDir inputDir)) w = None →
  (∀ current total name result w0, callback current total name result w0 = (Thrown ex, w0)) →
  normalised inputDir = true →
  simple_name file = true →
  ∃ w',
    convertDirectory env readdir self inputDir outputDir filePattern (Some callback) w
    = (Thrown ex, w') ∧
    accessed (trace w') = accessed (trace w) ++ [path_join inputDir file].
Proof.
  intros Hdir Hfiles Hmk Hcb _ _. unfold convertDirectory, fs_readdir, bind at 1.
  rewrite Hdir, Hfiles.
  change ((length (file :: rest) =? 0)%nat) with false. cbv iota.
  unfold fs_mkdir, call, bind at 1. rewrite Hmk.
  destruct (convertFile_world env self (path_join inputDir file)
              (Some (batch_output inputDir outputDir file))
              (log (EvMkdir (nullish outputDir inputDir)) w))
    as (r & w1 & Hrun & _ & _ & Hacc & _).
  exists w1. split.
  - simpl. apply bind_thrown. unfold convertOne.
    fold (batch_output inputDir outputDir file).
    rewrite (bind_run _ _ _ _ _ Hrun). apply bind_thrown. apply Hcb.
  - rewrite Hacc. simpl. by rewrite accessed_snoc, app_nil_r.
Qed.

(** The second image of the listing is never looked at. *)
Lemma convertDirectory_callback_throws_witness :
  ∃ w',
    convertDirectory quiet_env listing3 forge0 "maps" None None (Some failing_callback)
      empty_world
    = (Thrown (JsError "progress failed"), w') ∧
    accessed (trace w') = ["maps/a.png"].
Proof.
  exact (convertDirectory_callback_throws quiet_env listing3 forge0 "maps" None None
           failing_callback empty_world ["a.png"; "notes.txt"; "b.JPG"] "a.png" ["b.JPG"]
           (JsError "progress failed") eq_refl eq_refl eq_refl
           (λ _ _ _ _ _, eq_refl) eq_refl eq_refl).
Defined.

(** X18: the encoder options of the pipeline.  Every command of a run that
    returns, with a normalised output directory, is [toktx], the flags of the forge the pipeline builds from its
    options, [--t2 --threads 0], then the compressed tile and the tile of an
    entry of the final manifest.  The flags never have [--normal_map], have
    [--genmipmap] exactly when [mipmaps] is given as true, and with no mode,
    quality or compression level given they are those of ETC1S at level 2
    and quality 128. *)
Theorem processMapToKTX2_encoder_options env fuel options w report w' :
  processMapToKTX2 env fuel options w = (Returned report, w') →
  normalised (po_outputDir options) = true →
  ∃ cmds,
    executed (trace w') = executed (trace w) ++ cmds ∧
    Forall (λ cmd,
              ∃ c, c ∈ chunks (pr_metadata report) ∧
                   cmd = "toktx " +:+
                         join_space (toktx_flags (pipeline_forge options)
                                     ++ ["--t2"; "--threads"; "0";
                                         tile_output options c; tile_input options c]))
      cmds ∧
    ("--normal_map" ∉ toktx_flags (pipeline_forge options)) ∧
    ("--genmipmap" ∈ toktx_flags (pipeline_forge options)
     ↔ po_mipmaps options = Some true) ∧
    (po_mode options = None → po_quality options = None →
     po_compressionLevel options = None →
     ∃ tail,
       toktx_flags (pipeline_forge options)
       = ["--bcmp"; "--clevel"; "2"; "--qlevel"; "128";
          "--max_endpoints"; "16128"; "--max_selectors"; "16128"] ++ tail).
Proof.
  intros Hrun _.
  apply processMapToKTX2_disk in Hrun
    as (m & w1 & w3 & cmds & Hchunk & Hreport & Hlen & Hexec & Hsub & _ & _ & ->).
  exists cmds. split; [| split; [| split; [| split]]].
  - simpl. rewrite !executed_snoc. simpl.
    rewrite Hexec, !app_nil_r. by rewrite (chunkImage_no_exec _ _ _ _ _ _ _ Hchunk).
  - apply Forall_forall. intros cmd Hcmd.
    pose proof (elem_of_sublist _ _ _ Hcmd Hsub)
      as (c0 & -> & (i & Hc0)%list_elem_of_lookup)%list_elem_of_fmap.
    destruct (chunk_entry_names _ _ _ _ _ _ _ _ Hchunk Hc0)
      as (cx & col & row & _ & _ & _ & _ & Hpng & Hren).
    assert (is_Some (pr_conversions report !! i)) as [r Hr].
    { apply lookup_lt_is_Some. rewrite Hlen. by eapply lookup_lt_Some. }
    exists (renamed c0 r). split.
    + rewrite Hreport. simpl. apply list_elem_of_lookup. exists i.
      rewrite lookup_zip_with, Hc0. simpl. by rewrite Hr.
    + rewrite buildToktxCommand_args, Hren, Hpng.
      unfold tile_output, tile_input, renamed.
      by destruct (success r).
  - unfold toktx_flags, pipeline_forge. simpl.
    pose proof (pretty_not_flag (nullish (po_compressionLevel options) 2)) as Hcl.
    pose proof (pretty_not_flag (nullish (po_quality options) 128)) as Hq.
    destruct (nullish (po_mode options) etc1s), (nullish (po_mipmaps options) false);
      rewrite ?elem_of_app, ?elem_of_cons, ?elem_of_nil;
      intuition (try discriminate);
      match goal with
      | H : ?flag = pretty _ |- _ =>
          symmetry in H; (apply Hcl in H || apply Hq in H); [done | reflexivity]
      end.
  - unfold toktx_flags, pipeline_forge. simpl.
    pose proof (pretty_not_flag (nullish (po_compressionLevel options) 2)) as Hcl.
    pose proof (pretty_not_flag (nullish (po_quality options) 128)) as Hq.
    destruct (po_mipmaps options) as [[|] |], (nullish (po_mode options) etc1s);
      simpl; rewrite ?elem_of_app, ?elem_of_cons, ?elem_of_nil;
      (split; [| intros [=]; tauto || done]); try tauto;
      intuition (try discriminate);
      match goal with
      | H : ?flag = pretty _ |- _ =>
          symmetry in H; (apply Hcl in H || apply Hq in H); [done | reflexivity]
      end.
  - intros Hmode Hq Hcl. unfold toktx_flags, pipeline_forge. simpl.
    rewrite Hmode, Hq, Hcl. simpl. by eexists.
Qed.

(** The run in which nothing fails: the command of the first tile. *)
Lemma processMapToKTX2_encoder_options_witness :
  ∃ report w' cmds,
    processMapToKTX2 quiet_env 0 options2 empty_world = (Returned report, w') ∧
    executed (trace w') = cmds ∧
    cmds !! 0%nat
    = Some ("toktx --bcmp --clevel 2 --qlevel 128 --max_endpoints 16128 "
            +:+ "--max_selectors 16128 --t2 --threads 0 "
            +:+ "out/chunks/0_0.ktx2 out/chunks_temp/0_0.png").
Proof.
  pose proof (processMapToKTX2_encoder_options quiet_env 0 options2 empty_world)
    as Hopts.
  destruct (processMapToKTX2 quiet_env 0 options2 empty_world)
    as [[report | e |] w'] eqn:Hrun; [| vm_compute in Hrun; discriminate..].
  destruct (Hopts report w' eq_refl eq_refl) as (cmds & Hexec & _).
  exists report, w', cmds. split; [reflexivity |].
  vm_compute in Hrun. injection Hrun as <- <-.
  split; [exact Hexec |].
  vm_compute in Hexec. by subst cmds.
Defined.

(** ** More on single conversions *)

(** X19: a conversion whose input file is missing fails without starting
    the encoder and without touching a file; when the check itself did not
    fail for another reason, the error text is the message of [fs.access]
    on a missing file. *)
Theorem convertFile_missing_input env self inputPath outputPath w :
  files w !! inputPath = None →
  ∃ r w',
    convertFile env self inputPath outputPath w = (Returned r, w') ∧
    success r = false ∧
    executed (trace w') = executed (trace w) ∧
    files w' = files w ∧
    (fault env (EvAccess inputPath) (log EvNow w) = None →
     error r
     = Some ("ENOENT: no such file or directory, access '" +:+ inputPath +:+ "'")).
Proof.
  intros Hmissing. rewrite convertFile_run.
  unfold convertFile_try, fs_access, bind, call.
  destruct (fault env (EvAccess inputPath) (log EvNow w)) as [ex |]; simpl.
  - eexists _, _. split; [reflexivity |]. simpl.
    rewrite !executed_snoc, !app_nil_r. repeat split; done.
  - rewrite Hmissing. eexists _, _. split; [reflexivity |]. simpl.
    rewrite !executed_snoc, !app_nil_r. repeat split; done.
Qed.

(** No file at all: the conversion of [tile.png] fails with the text of the
    missing file. *)
Lemma convertFile_missing_input_witness :
  ∃ r w',
    convertFile quiet_env forge0 "tile.png" None empty_world = (Returned r, w') ∧
    error r = Some "ENOENT: no such file or directory, access 'tile.png'" ∧
    executed (trace w') = [].
Proof.
  destruct (convertFile_missing_input quiet_env forge0 "tile.png" None empty_world
              eq_refl) as (r & w' & Hrun & _ & Hexec & _ & Herr).
  exists r, w'. split; [exact Hrun |]. split; [exact (Herr eq_refl) | exact Hexec].
Defined.

(** X20: success does not tell that the encoder wrote the output.  When no
    call fails and the encoder exits with status 0 without writing anything,
    a conversion whose output file is there already, from an earlier run,
    succeeds and reports the size of that old file; the file is as it
    was. *)
Theorem convertFile_stale_output env self inputPath outputPath w input old :
  (∀ e w0, fault env e w0 = None) →
  (∀ command w0, toktx_output env command w0 = None) →
  files w !! inputPath = Some input →
  files w !! nullish outputPath (replace_image_ext inputPath) = Some old →
  ∃ r w',
    convertFile env self inputPath outputPath w = (Returned r, w') ∧
    success r = true ∧
    originalSize r = Z.of_nat (String.length input) ∧
    compressedSize r = Z.of_nat (String.length old) ∧
    files w' = files w.
Proof.
  intros Hquiet Hsilent Hinput Hold. rewrite convertFile_run.
  unfold convertFile_try, fs_access, fs_stat_size, execAsync, Date_now, bind, call.
  repeat (first [rewrite Hquiet | rewrite Hsilent | rewrite Hinput | rewrite Hold];
          simpl).
  eexists _, _. split; [reflexivity |]. done.
Qed.

(** The encoder writes nothing and [tile.ktx2] has 7 bytes from an earlier
    run: the conversion succeeds with a compressed size of 7. *)
Lemma convertFile_stale_output_witness :
  ∃ r w',
    convertFile silent_env forge0 "tile.png" None stale_tile_world = (Returned r, w') ∧
    success r = true ∧ compressedSize r = 7.
Proof.
  destruct (convertFile_stale_output silent_env forge0 "tile.png" None stale_tile_world
              "0123456789" "earlier" (λ _ _, eq_refl) (λ _ _, eq_refl) eq_refl eq_refl)
    as (r & w' & Hrun & Hok & _ & Hsize & _).
  exists r, w'. split; [exact Hrun |]. split; [exact Hok | exact Hsize].
Defined.

(** X21: the availability check never raises and never touches a file: it
    runs [toktx --version] once and answers true exactly when that call did
    not fail. *)
Theorem checkToktxAvailability_total env w :
  ∃ b w',
    checkToktxAvailability env w = (Returned b, w') ∧
    (b = true ↔ fault env (EvExec "toktx --version") w = None) ∧
    files w' = files w ∧
    executed (trace w') = executed (trace w) ++ ["toktx --version"].
Proof.
  unfold checkToktxAvailability, try_catch, bind, call.
  destruct (fault env (EvExec "toktx --version") w) as [ex |];
    eexists _, _; (split; [reflexivity |]); simpl;
    rewrite executed_snoc; repeat split; done.
Qed.

(** * The paths and the commands the code builds

    The statements above name joined paths by [path_join] and assume the
    directories normalised; the encoder is taken to read its output path
    from the command.  The lemmas of this part show that the assumptions
    are enough: with them [path.join] in full gives the same paths, and the
    words of the command are the arguments the code joined. *)

(** A name with an underscore in it is none of [], [.] and [..]. *)
Lemma underscore_not_dots (a b : string) :
  a +:+ String "_" b ≠ "" ∧ a +:+ String "_" b ≠ "." ∧ a +:+ String "_" b ≠ "..".
Proof. destruct a as [| x [| y a]]; repeat split; intros [=]. by destruct a. Qed.

(** The file name of a tile is the name of a directory entry. *)
Lemma tile_name_simple (col row : Z) (ext : string) :
  all_chars not_slash ext = true →
  simple_name ((pretty col +:+ "_" +:+ pretty row) +:+ "." +:+ ext) = true.
Proof.
  intros Hext. unfold simple_name.
  assert (all_chars not_slash ((pretty col +:+ "_" +:+ pretty row) +:+ "." +:+ ext)
          = true) as ->.
  { rewrite (all_chars_app not_slash (pretty col +:+ "_" +:+ pretty row)).
    rewrite (all_chars_weaken id_char not_slash _ (id_char_not "/" eq_refl)
               (chunk_id_chars col row)).
    by rewrite all_chars_app, Hext. }
  rewrite !string_app_assoc.
  change ("_" +:+ pretty row +:+ "." +:+ ext) with (String "_" (pretty row +:+ "." +:+ ext)).
  destruct (underscore_not_dots (pretty col) (pretty row +:+ "." +:+ ext))
    as (H1 & H2 & H3).
  apply String.eqb_neq in H1, H2, H3. by rewrite H1, H2, H3.
Qed.

(** The paths of the pipeline: a normalised output directory, one of the
    two directory names, and the name of an entry. *)
Lemma posix_join_twice (out sub name : string) :
  normalised out = true → simple_name sub = true → simple_name name = true →
  posix_join (posix_join out sub) name = path_join (path_join out sub) name.
Proof.
  intros Hout Hsub Hname.
  rewrite (posix_join_normalised out sub) by done.
  apply posix_join_normalised; [| done]. by apply normalised_path_join.
Qed.

(** The tile and the compressed tile of a cell, and the two manifests, as
    [path.join] gives them. *)
Lemma pipeline_paths_normalised (out : string) (col row : Z) :
  normalised out = true →
  posix_join (posix_join out "chunks_temp") ((pretty col +:+ "_" +:+ pretty row) +:+ ".png")
  = path_join (path_join out "chunks_temp") ((pretty col +:+ "_" +:+ pretty row) +:+ ".png") ∧
  posix_join (posix_join out "chunks") ((pretty col +:+ "_" +:+ pretty row) +:+ ".ktx2")
  = path_join (path_join out "chunks") ((pretty col +:+ "_" +:+ pretty row) +:+ ".ktx2") ∧
  posix_join (posix_join out "chunks_temp") "metadata.json"
  = path_join (path_join out "chunks_temp") "metadata.json" ∧
  posix_join (posix_join out "chunks") "metadata.json"
  = path_join (path_join out "chunks") "metadata.json".
Proof.
  intros Hout. repeat split; apply posix_join_twice; try done.
  - by apply (tile_name_simple col row "png").
  - by apply (tile_name_simple col row "ktx2").
Qed.

(** Where the directory is not normalised the two differ: [path.join]
    drops the leading [./] and the trailing separator. *)
Example posix_join_not_normalised :
  posix_join "./public/maps" "chunks_temp" = "public/maps/chunks_temp" ∧
  path_join "./public/maps" "chunks_temp" = "./public/maps/chunks_temp" ∧
  posix_join "maps/" "a.png" = "maps/a.png" ∧
  posix_join "" "chunks_temp" = "chunks_temp".
Proof. repeat split; reflexivity. Qed.

(** ** The words of a command *)

Lemma split_on_piece sep (a s : string) :
  all_chars (λ c, negb (Ascii.eqb c sep)) a = true →
  split_on sep (a +:+ String sep s) = a :: split_on sep s.
Proof.
  induction a as [| c a IH]; simpl.
  - intros _. change ("" +:+ String sep s) with (String sep s). simpl.
    by rewrite Ascii.eqb_refl.
  - intros [Hc Ha]%andb_prop. apply negb_true_iff in Hc.
    change (String c a +:+ String sep s) with (String c (a +:+ String sep s)).
    simpl. by rewrite Hc, IH.
Qed.

(** Arguments without a space, joined by spaces, are the words of the
    command. *)
Lemma words_join_space (args : list string) :
  args ≠ [] →
  Forall (λ a, all_chars (λ c, negb (Ascii.eqb c " ")) a = true) args →
  words (join_space args) = args.
Proof.
  intros Hne Hargs. unfold words.
  induction Hargs as [| a rest Ha Hrest IH]; [done |].
  destruct rest as [| b rest]; [by apply split_on_whole |].
  rewrite join_space_cons by done.
  change (" " +:+ join_space (b :: rest)) with (String " " (join_space (b :: rest))).
  rewrite split_on_piece by done. by rewrite IH.
Qed.

Lemma plain_char_not_space (c : ascii) :
  plain_char c = true → negb (Ascii.eqb c " ") = true.
Proof. destruct (Ascii.eqb_spec c " ") as [-> |]; [by vm_compute | done]. Qed.

Lemma number_char_plain (c : ascii) : number_char c = true → plain_char c = true.
Proof.
  unfold number_char, plain_char.
  intros [-> | ->]%orb_prop; [done |]. by rewrite !orb_true_r.
Qed.

Lemma id_char_plain (c : ascii) : id_char c = true → plain_char c = true.
Proof.
  unfold id_char. intros [Hc | Hc]%orb_prop; [by apply number_char_plain |].
  unfold plain_char. by rewrite Hc, !orb_true_r.
Qed.

(** With an encoder path and file paths without spaces, the words of the
    command are the arguments [buildToktxCommand] joined: the output path
    is the last but one, the input path the last. *)
Lemma buildToktxCommand_words (self : TextureForge) (inputPath outputPath : string) :
  all_chars plain_char (toktxPath self) = true →
  all_chars plain_char inputPath = true → all_chars plain_char outputPath = true →
  words (buildToktxCommand self inputPath outputPath)
  = toktxPath self
    :: toktx_flags self ++ ["--t2"; "--threads"; "0"; outputPath; inputPath].
Proof.
  intros Hpath Hin Hout.
  pose proof (λ s, all_chars_weaken plain_char _ s plain_char_not_space) as Hplain.
  assert (∀ z : Z, all_chars (λ c, negb (Ascii.eqb c " ")) (pretty z) = true) as Hnum.
  { intros z. apply Hplain.
    apply (all_chars_weaken number_char); [apply number_char_plain |].
    apply pretty_Z_chars. }
  rewrite buildToktxCommand_args.
  rewrite <- join_space_cons by (by destruct (toktx_flags self)).
  apply words_join_space; [done |].
  constructor; [by apply Hplain |].
  apply Forall_app. split.
  - unfold toktx_flags.
    destruct (tf_mode self), (mipmaps self), (normalMap self);
      repeat constructor; apply Hnum.
  - repeat constructor; by apply Hplain.
Qed.

(** The command of a tile of the pipeline, for a plain output directory. *)
Lemma tile_command_words (options : ProcessOptions) (c : ChunkMetadata) (col row : Z) :
  plain_path (po_outputDir options) = true →
  id c = pretty col +:+ "_" +:+ pretty row →
  words (tile_command options c)
  = "toktx"
    :: toktx_flags (pipeline_forge options)
       ++ ["--t2"; "--threads"; "0"; tile_output options c; tile_input options c].
Proof.
  intros [_ Hout]%andb_prop Hid.
  assert (all_chars plain_char (id c) = true) as Hplain.
  { rewrite Hid. apply (all_chars_weaken id_char); [apply id_char_plain |].
    apply chunk_id_chars. }
  unfold tile_command. rewrite buildToktxCommand_words; [done | done | |].
  - unfold tile_input, path_join.
    by rewrite !all_chars_app, Hout, Hplain.
  - unfold tile_output, path_join.
    by rewrite !all_chars_app, Hout, Hplain.
Qed.

(** A path with a space in it is two words of the command: the encoder is
    then given other paths than the code meant. *)
Example words_of_spaced_path :
  words (buildToktxCommand forge0 "in put.png" "out.ktx2")
  = ["toktx"; "--bcmp"; "--clevel"; "2"; "--qlevel"; "128";
     "--max_endpoints"; "16128"; "--max_selectors"; "16128";
     "--t2"; "--threads"; "0"; "out.ktx2"; "in"; "put.png"].
Proof. reflexivity. Qed.

(** ** The paths of the directory batch *)

Lemma all_chars_substring P (s : string) :
  ∀ n m, all_chars P s = true → all_chars P (String.substring n m s) = true.
Proof.
  induction s as [| c s IH]; intros n m; simpl.
  - by destruct n, m.
  - intros [Hc Hs]%andb_prop. destruct n as [| n].
    + destruct m as [| m]; [done |]. simpl. by rewrite Hc, IH.
    + by apply IH.
Qed.

Lemma long_name_simple (s : string) :
  all_chars not_slash s = true → (2 < String.length s)%nat → simple_name s = true.
Proof.
  intros Hs Hlen. unfold simple_name. rewrite Hs.
  assert (s ≠ "" ∧ s ≠ "." ∧ s ≠ "..") as (H1 & H2 & H3)
    by (destruct s as [| a [| b [| c s]]]; simpl in Hlen; try lia;
        repeat split; discriminate).
  apply String.eqb_neq in H1, H2, H3. by rewrite H1, H2, H3.
Qed.

(** The name of an entry with its extension replaced is the name of an
    entry. *)
Lemma replace_image_ext_simple (file : string) :
  simple_name file = true → simple_name (replace_image_ext file) = true.
Proof.
  intros Hfile.
  assert (all_chars not_slash file = true) as Hns
    by (unfold simple_name in Hfile; by apply andb_prop in Hfile as [_ ?]).
  assert (∀ k, simple_name (drop_end k file +:+ ".ktx2") = true) as Hreplaced.
  { intros k. apply long_name_simple.
    - rewrite all_chars_app. unfold drop_end.
      by rewrite all_chars_substring.
    - rewrite string_length_app. simpl. lia. }
  unfold replace_image_ext.
  destruct (ends_with_ci ".png" file || ends_with_ci ".jpg" file); [done |].
  by destruct (ends_with_ci ".jpeg" file).
Qed.

(** The input and the output of a file of the batch, as [path.join] gives
    them. *)
Lemma batch_paths_normalised (inputDir : string) (outputDir : option string)
    (file : string) :
  normalised inputDir = true →
  (∀ dir, truthy_dir outputDir = Some dir → normalised dir = true) →
  simple_name file = true →
  posix_join inputDir file = path_join inputDir file ∧
  batch_output inputDir outputDir file
  = match truthy_dir outputDir with
    | Some dir => posix_join dir (replace_image_ext file)
    | None => replace_image_ext (posix_join inputDir file)
    end.
Proof.
  intros Hin Hout Hfile.
  rewrite (posix_join_normalised inputDir file) by done.
  split; [done |]. unfold batch_output.
  destruct (truthy_dir outputDir) as [dir |]; [| done].
  rewrite posix_join_normalised; [done | by apply Hout |].
  by apply replace_image_ext_simple.
Qed.
